(** * Budget Pro: the local persistence and query layer of [db.js]

    A shallow embedding of [src/bp/db.js] (the IndexedDB-backed [DB] object:
    users, expenses, filtered queries and aggregates) and the properties of
    it that the specification states.

    Conventions of the embedding.
    - A JavaScript number is a value of [num]: [NaN], the two infinities, or
      a finite double of IEEE 754, carried as the rational that it is.
      Every operation rounds what it computes to the nearest double, ties
      to even, with the overflow to an infinity and the gradual underflow
      to zero of the standard, and returns its rational in lowest terms,
      so equal numbers are equal terms.  The sign of zero is not
      represented.
    - A JavaScript string is a [string] of 8-bit characters; the built-ins
      on strings ([trim], [toLowerCase], [localeCompare], the numeric
      grammar) are given for that alphabet.
    - An [async] function is a function from the state of the database
      before the call to its outcome and the state after it.  The clock
      ([Date.now()], [new Date()]) is an explicit argument [now], in
      milliseconds of local civil time, with a constant offset to UTC.
    - A transaction of the browser's engine always commits; the failures of
      the engine itself ([tx.onerror], [tx.onabort], [req.onerror]) are not
      represented. *)

From Stdlib Require Import ZArith QArith Qround Qabs Qpower DecimalString String Ascii List Permutation Sorted Lia Lqa.
From stdpp Require Import base option list strings sorting gmap.

Local Open Scope Z_scope.

(** ** JavaScript numbers

    A number is a double of IEEE 754: [NaN], an infinity, or a finite
    value, which is carried as the rational that it is, in lowest terms.
    What an operation computes is rounded to the nearest double, to the
    even one of two equally near, and to an infinity from [2 ^ 1024] on.
    The two zeros are one value here: no operation of this program tells
    them apart. *)

Inductive num : Type :=
  | NaN
  | NegInf
  | Fin (q : Q)
  | PosInf.

Definition num_of_Z (z : Z) : num := Fin (inject_Z z).

Definition zero : num := num_of_Z 0.

(** [-a] *)
Definition num_neg (a : num) : num :=
  match a with
  | NaN => NaN
  | NegInf => PosInf
  | PosInf => NegInf
  | Fin x => Fin (Qred (- x))
  end.

(** The whole part of the binary logarithm of a positive rational. *)
Definition ilog2 (q : Q) : Z :=
  let e := Z.log2 (Qnum q) - Z.log2 (Z.pos (Qden q)) in
  if Qle_bool (2 ^ e) q then e else e - 1.

(** The nearest integer, the even one of two equally near. *)
Definition round_even (q : Q) : Z :=
  let f := Qfloor q in
  match (q - inject_Z f ?= 1 # 2)%Q with
  | Lt => f
  | Eq => if Z.even f then f else f + 1
  | Gt => f + 1
  end.

(** The double nearest to a positive rational: 53 binary digits from the
    leading one, or the multiples of [2 ^ -1074] below [2 ^ -1022]. *)
Definition round64_pos (q : Q) : num :=
  let e := Z.max (ilog2 q) (-1022) in
  let ulp := (2 ^ (e - 52))%Q in
  let r := (inject_Z (round_even (q / ulp)) * ulp)%Q in
  if Qle_bool (2 ^ 1024) r then PosInf else Fin (Qred r).

(** The double nearest to a rational. *)
Definition round64 (q : Q) : num :=
  let q := Qred q in
  match (q ?= 0)%Q with
  | Eq => zero
  | Gt => round64_pos q
  | Lt => num_neg (round64_pos (- q))
  end.

(** [a + b] *)
Definition num_add (a b : num) : num :=
  match a, b with
  | NaN, _ | _, NaN => NaN
  | PosInf, NegInf | NegInf, PosInf => NaN
  | PosInf, _ | _, PosInf => PosInf
  | NegInf, _ | _, NegInf => NegInf
  | Fin x, Fin y => round64 (x + y)
  end.

(** [a - b] *)
Definition num_sub (a b : num) : num := num_add a (num_neg b).

(** [a < b]; every comparison with [NaN] is false. *)
Definition num_ltb (a b : num) : bool :=
  match a, b with
  | NaN, _ | _, NaN => false
  | _, NegInf => false
  | NegInf, _ => true
  | PosInf, _ => false
  | Fin _, PosInf => true
  | Fin x, Fin y => match x ?= y with Lt => true | _ => false end
  end%Q.

(** [a > b] *)
Definition num_gtb (a b : num) : bool := num_ltb b a.

(** [a === b] on numbers: [NaN] differs from itself. *)
Definition num_eqb (a b : num) : bool :=
  match a, b with
  | NegInf, NegInf | PosInf, PosInf => true
  | Fin x, Fin y => Qeq_bool x y
  | _, _ => false
  end.

(** Truthiness of a number: every number but [0] and [NaN]. *)
Definition num_truthy (a : num) : bool :=
  match a with
  | NaN => false
  | Fin x => negb (Qeq_bool x 0)
  | _ => true
  end.

(** [a || b] on numbers *)
Definition num_or (a b : num) : num := if num_truthy a then a else b.

(** [parseFloat(x.toFixed(2))].  [toFixed(2)] writes the decimal [n / 100]
    for the integer [n] nearest to [100 * x], the larger one of two equally
    near, on the absolute value of [x] with the sign put back; from [1e21]
    on it writes the number itself, as it does for [NaN] and the
    infinities.  [parseFloat] reads that text back, as the double nearest
    to it. *)
Definition round_half_up (q : Q) : Z := Qfloor (q * 100 + (1 # 2)).

Definition parseFloat_toFixed2 (x : num) : num :=
  match x with
  | Fin q =>
      if Qle_bool (inject_Z (10 ^ 21)) (Qabs q) then Fin (Qred q)
      else match q ?= 0 with
           | Lt => num_neg (round64 (round_half_up (- q) # 100))
           | _  => round64 (round_half_up q # 100)
           end%Q
  | _ => x
  end.

(** ** JavaScript strings *)

Definition chars (s : string) : list ascii := list_ascii_of_string s.
Definition str (l : list ascii) : string := string_of_list_ascii l.

Definition code (c : ascii) : Z := Z.of_nat (nat_of_ascii c).

(** White space of [String.prototype.trim] and of the numeric grammar:
    TAB, LF, VT, FF, CR, the space and the no-break space. *)
Definition is_ws (c : ascii) : bool :=
  let n := code c in ((9 <=? n) && (n <=? 13)) || (n =? 32) || (n =? 160).

Fixpoint trimStart_chars (l : list ascii) : list ascii :=
  match l with
  | c :: r => if is_ws c then trimStart_chars r else l
  | [] => []
  end.

Definition trim_chars (l : list ascii) : list ascii :=
  rev (trimStart_chars (rev (trimStart_chars l))).

(** [s.trim()] *)
Definition trim (s : string) : string := str (trim_chars (chars s)).

(** The lower case of a letter: A to Z, and the capital letters with
    accents from 192 to 222. *)
Definition lower_char (c : ascii) : ascii :=
  let n := code c in
  if ((65 <=? n) && (n <=? 90)) || ((192 <=? n) && (n <=? 222) && negb (n =? 215))
  then ascii_of_nat (Z.to_nat (n + 32))
  else c.

(** [s.toLowerCase()] *)
Definition toLowerCase (s : string) : string := str (map lower_char (chars s)).

(** [s.length] *)
Definition slength (s : string) : Z := Z.of_nat (String.length s).

(** [s.slice(0, n)] for [n >= 0] *)
Definition slice0 (n : nat) (s : string) : string := str (take n (chars s)).

(** [s.padStart(2, '0')] *)
Definition padStart2 (s : string) : string :=
  match s with
  | EmptyString => "00"
  | String c EmptyString => String "0" s
  | _ => s
  end%string.

(** Truthiness of a string: every string but the empty one. *)
Definition str_truthy (s : string) : bool :=
  match s with EmptyString => false | _ => true end.

(** The order of two strings by the codes of their characters, which is
    the order of the relational operators on strings. *)
Fixpoint compare_chars (a b : list ascii) : comparison :=
  match a, b with
  | [], [] => Eq
  | [], _ :: _ => Lt
  | _ :: _, [] => Gt
  | x :: a', y :: b' =>
      match code x ?= code y with
      | Eq => compare_chars a' b'
      | c => c
      end
  end.

Definition str_compare (a b : string) : comparison :=
  compare_chars (chars a) (chars b).

(** [a >= b] on strings *)
Definition str_geb (a b : string) : bool :=
  match str_compare a b with Lt => false | _ => true end.

(** [a.localeCompare(b)]: negative, zero or positive.  The collation is
    taken to be the order of the character codes; on strings of digits and
    hyphens of one shape, as the dates [YYYY-MM-DD] are, every collation
    agrees with it. *)
Definition localeCompare (a b : string) : num :=
  match str_compare a b with
  | Lt => num_of_Z (-1)
  | Eq => num_of_Z 0
  | Gt => num_of_Z 1
  end.

(** ** Values and the conversion to numbers *)

Inductive jsval : Type :=
  | JUndefined
  | JNull
  | JBool (b : bool)
  | JNum (n : num)
  | JStr (s : string).

Definition is_digit (c : ascii) : bool :=
  let n := code c in (48 <=? n) && (n <=? 57).

(** The value of a digit in a radix up to 16, if the character is one. *)
Definition digit_of (radix : Z) (c : ascii) : option Z :=
  let n := code c in
  let v := if (48 <=? n) && (n <=? 57) then n - 48
           else if (97 <=? n) && (n <=? 102) then n - 87
           else if (65 <=? n) && (n <=? 70) then n - 55
           else radix in
  if v <? radix then Some v else None.

Fixpoint digits_val (radix acc : Z) (l : list ascii) : option Z :=
  match l with
  | [] => Some acc
  | c :: r =>
      match digit_of radix c with
      | Some v => digits_val radix (acc * radix + v) r
      | None => None
      end
  end.

Fixpoint span_digits (l : list ascii) : list ascii * list ascii :=
  match l with
  | c :: r =>
      if is_digit c
      then let '(d, t) := span_digits r in (c :: d, t)
      else ([], l)
  | [] => ([], [])
  end.

Definition dec_val (l : list ascii) : Z := default 0 (digits_val 10 0 l).

Definition pow10 (e : Z) : Q :=
  if 0 <=? e then inject_Z (10 ^ e) else 1 # Z.to_pos (10 ^ (- e)).

Definition is_nil {A} (l : list A) : bool :=
  match l with [] => true | _ => false end.

Definition split_sign (l : list ascii) : bool * list ascii :=
  match l with
  | "-"%char :: r => (true, r)
  | "+"%char :: r => (false, r)
  | _ => (false, l)
  end.

(** [StrUnsignedDecimalLiteral]: [Infinity], or digits with an optional
    fraction and an optional exponent, one of the two digit runs being
    non-empty. *)
Definition parse_unsigned_decimal (l : list ascii) : option num :=
  if decide (l = chars "Infinity") then Some PosInf else
  let '(ip, r1) := span_digits l in
  let '(fp, r2) :=
    match r1 with
    | "."%char :: r => span_digits r
    | _ => ([], r1)
    end in
  if is_nil ip && is_nil fp then None else
  let mant := dec_val (ip ++ fp) in
  let scale := Z.of_nat (length fp) in
  match r2 with
  | [] => Some (round64 (inject_Z mant * pow10 (- scale)))
  | e :: r3 =>
      if decide (e = "e"%char \/ e = "E"%char) then
        let '(neg, r4) := split_sign r3 in
        let '(ed, r5) := span_digits r4 in
        if is_nil ed || negb (is_nil r5) then None
        else
          let ex := if neg then - dec_val ed else dec_val ed in
          Some (round64 (inject_Z mant * pow10 (ex - scale)))
      else None
  end.

(** [0x], [0o] and [0b] literals, which take no sign. *)
Definition parse_radix_literal (l : list ascii) : option num :=
  match l with
  | "0"%char :: p :: ((_ :: _) as ds) =>
      let radix :=
        if decide (p = "x"%char \/ p = "X"%char) then Some 16
        else if decide (p = "o"%char \/ p = "O"%char) then Some 8
        else if decide (p = "b"%char \/ p = "B"%char) then Some 2
        else None in
      r ← radix; v ← digits_val r 0 ds; Some (round64 (inject_Z v))
  | _ => None
  end.

(** [StringToNumber]: the trimmed text is empty (zero), a literal of the
    numeric grammar, read as the double nearest to the decimal that it
    writes, or not a number. *)
Definition StringToNumber (s : string) : num :=
  let l := trim_chars (chars s) in
  if is_nil l then zero else
  match parse_radix_literal l with
  | Some n => n
  | None =>
      let '(neg, r) := split_sign l in
      match parse_unsigned_decimal r with
      | Some n => if neg then num_neg n else n
      | None => NaN
      end
  end.

Definition norm (n : num) : num :=
  match n with Fin q => Fin (Qred q) | _ => n end.

(** The number that a value [JNum n] carries: [n], or the double nearest
    to it when [n] is written as a rational that is not a double, as a
    literal of a program is. *)
Definition double_of (n : num) : num :=
  match n with Fin q => round64 q | _ => n end.

(** [Number(v)] and the unary [+v] *)
Definition ToNumber (v : jsval) : num :=
  match v with
  | JUndefined => NaN
  | JNull => zero
  | JBool b => if b then num_of_Z 1 else zero
  | JNum n => double_of n
  | JStr s => StringToNumber s
  end.

(** [String(z)] for an integer *)
Definition string_of_Z (z : Z) : string :=
  DecimalString.NilZero.string_of_int (Z.to_int z).

(** ** Dates

    A [Date] is its time value: milliseconds since the epoch, read in local
    civil time. *)

Definition msPerDay : Z := 86400000.

Definition Day (t : Z) : Z := t / msPerDay.

(** The civil date (year, month 1..12, day 1..31) of a day number, by eras
    of 400 years that start on the first of March. *)
Definition civil_from_days (days : Z) : Z * Z * Z :=
  let z := days + 719468 in
  let era := z / 146097 in
  let doe := z mod 146097 in
  let yoe := (doe - doe / 1460 + doe / 36524 - doe / 146096) / 365 in
  let doy := doe - (365 * yoe + yoe / 4 - yoe / 100) in
  let mp := (5 * doy + 2) / 153 in
  let d := doy - (153 * mp + 2) / 5 + 1 in
  let m := if mp <? 10 then mp + 3 else mp - 9 in
  let y := yoe + era * 400 in
  (if m <=? 2 then y + 1 else y, m, d).

(** The day number of a civil date. *)
Definition days_from_civil (y m d : Z) : Z :=
  let y' := if m <=? 2 then y - 1 else y in
  let era := y' / 400 in
  let yoe := y' mod 400 in
  let doy := (153 * (if 2 <? m then m - 3 else m + 9) + 2) / 5 + d - 1 in
  let doe := yoe * 365 + yoe / 4 - yoe / 100 + doy in
  era * 146097 + doe - 719468.

Definition getFullYear (t : Z) : Z := (civil_from_days (Day t)).1.1.
(** [getMonth()] counts from 0. *)
Definition getMonth (t : Z) : Z := (civil_from_days (Day t)).1.2 - 1.
Definition getDate (t : Z) : Z := (civil_from_days (Day t)).2.
(** [getDay()]: 0 is Sunday; the epoch was a Thursday. *)
Definition getDay (t : Z) : Z := (Day t + 4) mod 7.

(** [new Date(year, month, 1)], [month] counted from 0 and carried over
    into the year; a year from 0 to 99 stands for 1900 + year. *)
Definition Date_ym1 (year month : Z) : Z :=
  let yr := if (0 <=? year) && (year <=? 99) then 1900 + year else year in
  days_from_civil (yr + month / 12) (month mod 12 + 1) 1 * msPerDay.

(** A date as 'YYYY-MM-DD' *)
Definition _ds (d : Z) : string :=
  string_of_Z (getFullYear d) +:+ "-" +:+
  padStart2 (string_of_Z (getMonth d + 1)) +:+ "-" +:+
  padStart2 (string_of_Z (getDate d)).

(** ** SHA-256 ([crypto.subtle.digest]) and the text encoder *)

Module Sha256.

Definition w32 (x : Z) : Z := x mod 2 ^ 32.

Definition rotr (n x : Z) : Z :=
  w32 (Z.lor (Z.shiftr x n) (Z.shiftl x (32 - n))).

Definition Ch (x y z : Z) : Z :=
  Z.lxor (Z.land x y) (Z.land (Z.lxor x (2 ^ 32 - 1)) z).

Definition Maj (x y z : Z) : Z :=
  Z.lxor (Z.lxor (Z.land x y) (Z.land x z)) (Z.land y z).

Definition Sigma0 (x : Z) : Z := Z.lxor (Z.lxor (rotr 2 x) (rotr 13 x)) (rotr 22 x).
Definition Sigma1 (x : Z) : Z := Z.lxor (Z.lxor (rotr 6 x) (rotr 11 x)) (rotr 25 x).
Definition sigma0 (x : Z) : Z := Z.lxor (Z.lxor (rotr 7 x) (rotr 18 x)) (Z.shiftr x 3).
Definition sigma1 (x : Z) : Z := Z.lxor (Z.lxor (rotr 17 x) (rotr 19 x)) (Z.shiftr x 10).

Definition primes : list Z :=
  [2; 3; 5; 7; 11; 13; 17; 19; 23; 29; 31; 37; 41; 43; 47; 53;
   59; 61; 67; 71; 73; 79; 83; 89; 97; 101; 103; 107; 109; 113; 127; 131;
   137; 139; 149; 151; 157; 163; 167; 173; 179; 181; 191; 193; 197; 199; 211; 223;
   227; 229; 233; 239; 241; 251; 257; 263; 269; 271; 277; 281; 283; 293; 307; 311].

(** The integer cube root below [2 ^ bits]. *)
Fixpoint icbrt (n : Z) (bits : nat) (r : Z) : Z :=
  match bits with
  | O => r
  | S b =>
      let c := r + 2 ^ Z.of_nat b in
      icbrt n b (if c ^ 3 <=? n then c else r)
  end.

(** The first 32 bits of the fractional parts of the square roots of the
    first 8 primes, and of the cube roots of the first 64. *)
Definition H0 : list Z :=
  Eval vm_compute in map (fun p => w32 (Z.sqrt (p * 2 ^ 64))) (take 8 primes).

Definition K : list Z :=
  Eval vm_compute in map (fun p => w32 (icbrt (p * 2 ^ 96) 36 0)) primes.

(** Padding: the bit 1, zeros up to 56 modulo 64, and the length in bits
    on 8 bytes, the most significant first. *)
Definition be_bytes (n : nat) (x : Z) : list Z :=
  map (fun i => Z.shiftr x (8 * Z.of_nat i) mod 256) (rev (seq 0 n)).

Definition pad (msg : list Z) : list Z :=
  let len := Z.of_nat (length msg) in
  msg ++ [128] ++ replicate (Z.to_nat ((55 - len) mod 64)) 0 ++ be_bytes 8 (8 * len).

Definition be_word (bs : list Z) : Z :=
  fold_left (fun acc b => acc * 256 + b) bs 0.

Fixpoint words (n : nat) (bs : list Z) : list Z :=
  match n with
  | O => []
  | S k => be_word (take 4 bs) :: words k (drop 4 bs)
  end.

(** The message schedule, the most recent word first. *)
Fixpoint schedule (n : nat) (ws : list Z) : list Z :=
  match n with
  | O => ws
  | S k =>
      let w := w32 (sigma1 (nth 1 ws 0) + nth 6 ws 0 + sigma0 (nth 14 ws 0) + nth 15 ws 0) in
      schedule k (w :: ws)
  end.

Definition state : Type := Z * Z * Z * Z * Z * Z * Z * Z.

Definition round (s : state) (kw : Z * Z) : state :=
  let '(a, b, c, d, e, f, g, h) := s in
  let t1 := h + Sigma1 e + Ch e f g + kw.1 + kw.2 in
  let t2 := Sigma0 a + Maj a b c in
  (w32 (t1 + t2), a, b, c, w32 (d + t1), e, f, g).

Definition compress (s : state) (block : list Z) : state :=
  let w := rev (schedule 48 (rev (words 16 block))) in
  let '(a, b, c, d, e, f, g, h) := fold_left round (zip K w) s in
  let '(a0, b0, c0, d0, e0, f0, g0, h0) := s in
  (w32 (a0 + a), w32 (b0 + b), w32 (c0 + c), w32 (d0 + d),
   w32 (e0 + e), w32 (f0 + f), w32 (g0 + g), w32 (h0 + h)).

Fixpoint blocks (n : nat) (bs : list Z) : list (list Z) :=
  match n with
  | O => []
  | S k => take 64 bs :: blocks k (drop 64 bs)
  end.

Definition init : state :=
  match H0 with
  | [a; b; c; d; e; f; g; h] => (a, b, c, d, e, f, g, h)
  | _ => (0, 0, 0, 0, 0, 0, 0, 0)
  end.

(** The digest, as its 32 bytes. *)
Definition digest (msg : list Z) : list Z :=
  let p := pad msg in
  let '(a, b, c, d, e, f, g, h) :=
    fold_left compress (blocks (length p / 64) p) init in
  concat (map (be_bytes 4) [a; b; c; d; e; f; g; h]).

End Sha256.

(** [new TextEncoder().encode(s)]: UTF-8 of characters below 256. *)
Definition encode (s : string) : list Z :=
  concat (map (fun c =>
    let n := code c in
    if n <? 128 then [n] else [Z.lor 192 (Z.shiftr n 6); Z.lor 128 (Z.land n 63)])
    (chars s)).

Definition hex_digit (n : Z) : ascii :=
  ascii_of_nat (Z.to_nat (if n <? 10 then 48 + n else 87 + n)).

(** [b.toString(16).padStart(2, '0')] for a byte *)
Definition hex_byte (b : Z) : list ascii := [hex_digit (b / 16); hex_digit (b mod 16)].

(** The SHA-256 of the salted PIN, in hexadecimal *)
Definition _hash (pin : string) : string :=
  str (concat (map hex_byte (Sha256.digest (encode ("bp_v5_salt_" +:+ pin))))).

(** ** The object stores of the database

    An object store of IndexedDB with [keyPath: 'id'] and
    [autoIncrement: true]: its records in the order of their keys, and the
    key generator, which starts at 1 and never goes back. *)

Record user : Type := mkUser {
  user_key : Z;            (* id *)
  username : string;
  pinHash : string;
  createdAt : num
}.

Record expense : Type := mkExpense {
  expense_key : Z;         (* id *)
  user_id : num;
  name : string;
  amount : num;
  category : string;
  date : string;
  hour : num;
  minute : num;
  ts : num
}.

(** What the engine needs of a record: its key, the record with the key
    put in, and the clash of two records on a unique index. *)
Class Stored (A : Type) : Type := {
  key_of : A -> Z;
  with_key : Z -> A -> A;
  clash : A -> A -> bool
}.

(** [users] has the unique index [ix_username]. *)
#[export] Instance user_stored : Stored user := {
  key_of := user_key;
  with_key k u := mkUser k (username u) (pinHash u) (createdAt u);
  clash u v := bool_decide (username u = username v)
}.

(** [expenses] has no index at all. *)
#[export] Instance expense_stored : Stored expense := {
  key_of := expense_key;
  with_key k e :=
    mkExpense k (user_id e) (name e) (amount e) (category e) (date e)
              (hour e) (minute e) (ts e);
  clash _ _ := false
}.

Record objectStore (A : Type) : Type := mkStore {
  records : list A;
  keygen : Z
}.
Arguments mkStore {A} _ _.
Arguments records {A} _.
Arguments keygen {A} _.

Record database : Type := mkDB {
  users : objectStore user;
  expenses : objectStore expense
}.

(** The database that [onupgradeneeded] leaves. *)
Definition empty_store {A} : objectStore A := mkStore [] 1.
Definition empty_db : database := mkDB empty_store empty_store.

(** The two stores, by name. *)
Inductive storeName : Type -> Type :=
  | Users : storeName user
  | Expenses : storeName expense.

Definition objectStore_of {A} (n : storeName A) (db : database) : objectStore A :=
  match n in storeName T return objectStore T with
  | Users => users db
  | Expenses => expenses db
  end.

Definition set_objectStore {A} (n : storeName A) (s : objectStore A) (db : database)
  : database :=
  match n in storeName T return objectStore T -> database with
  | Users => fun s => mkDB s (expenses db)
  | Expenses => fun s => mkDB (users db) s
  end s.

Definition stored_of {A} (n : storeName A) : Stored A :=
  match n with
  | Users => user_stored
  | Expenses => expense_stored
  end.

(** ** Errors and the monad of the asynchronous operations *)

Inductive error : Type :=
  | NomTropCourt
  | NomDejaUtilise
  | UtilisateurIntrouvable
  | CodePinIncorrect
  | NomRequis
  | MontantInvalide
  | DateRequise
  | EnregistrementEchoue
  | DepenseIntrouvable
  | EcritureEchouee.

#[export] Instance error_eq_dec : EqDecision error.
Proof. solve_decision. Defined.

(** The message of each [new Error(...)] *)
Definition message (e : error) : string :=
  match e with
  | NomTropCourt => "Nom trop court (2 caractères min)."
  | NomDejaUtilise => "Ce nom est déjà utilisé."
  | UtilisateurIntrouvable => "Utilisateur introuvable."
  | CodePinIncorrect => "Code PIN incorrect."
  | NomRequis => "Le nom est requis."
  | MontantInvalide => "Montant invalide (doit être > 0)."
  | DateRequise => "La date est requise."
  | EnregistrementEchoue => "Enregistrement échoué, réessayez."
  | DepenseIntrouvable => "Dépense introuvable."
  | EcritureEchouee => "Écriture échouée: ConstraintError"
  end.

(** The kinds of the specification: a rejected input, a name that is taken,
    something that is not there. *)
Definition is_validation_error (e : error) : bool :=
  match e with
  | NomTropCourt | NomRequis | MontantInvalide | DateRequise => true
  | _ => false
  end.

Definition is_duplicate_user_error (e : error) : bool :=
  match e with NomDejaUtilise => true | _ => false end.

Definition is_not_found_error (e : error) : bool :=
  match e with UtilisateurIntrouvable | DepenseIntrouvable => true | _ => false end.

Inductive result (A : Type) : Type :=
  | Resolved (a : A)
  | Rejected (e : error).
Arguments Resolved {A} _.
Arguments Rejected {A} _.

(** A promise run on a database: what it settles to, and the database then. *)
Definition async (A : Type) : Type := database -> result A * database.

Definition resolve {A} (a : A) : async A := fun db => (Resolved a, db).
Definition throw {A} (e : error) : async A := fun db => (Rejected e, db).

Definition await {A B} (m : async A) (k : A -> async B) : async B :=
  fun db =>
    match m db with
    | (Resolved a, db') => k a db'
    | (Rejected e, db') => (Rejected e, db')
    end.

Notation "'let!' x ':=' m 'in' k" := (await m (fun x => k))
  (at level 10, x pattern, m at level 100, k at level 200).

(** ** The private accessors *)

(** [_add]: the record without its [id], stored under the next key; the
    key once the transaction is complete.  A clash on a unique index aborts
    the transaction. *)
Definition _add {A} (n : storeName A) (record : A) : async Z :=
  fun db =>
    let s := objectStore_of n db in
    if existsb (clash (Stored := stored_of n) record) (records s) then (Rejected EcritureEchouee, db)
    else
      let key := keygen s in
      (Resolved key,
       set_objectStore n (mkStore (records s ++ [with_key (Stored := stored_of n) key record]) (key + 1)) db).

(** [_get]: the record of a key, or [null] *)
Definition _get {A} (n : storeName A) (key : Z) : async (option A) :=
  fun db =>
    (Resolved (find (fun r => key_of (Stored := stored_of n) r =? key)
                    (records (objectStore_of n db))), db).

(** [_findOne] on [ix_username]: the first user of that name, or [null] *)
Definition _findOne (value : string) : async (option user) :=
  fun db =>
    (Resolved (find (fun u => bool_decide (username u = value)) (records (users db))), db).

(** [_getAllFromStore]: every record, in the order of the keys *)
Definition _getAllFromStore {A} (n : storeName A) : async (list A) :=
  fun db => (Resolved (records (objectStore_of n db)), db).

(** [_delete]: the record of that key is gone, if there was one.  The
    transaction is taken to commit; its [tx.onerror] is not represented. *)
Definition _delete {A} (n : storeName A) (key : Z) : async bool :=
  fun db =>
    let s := objectStore_of n db in
    (Resolved true,
     set_objectStore n
       (mkStore (filter (fun r => key_of (Stored := stored_of n) r ≠ key) (records s))
                (keygen s)) db).

(** [_count] *)
Definition _count {A} (n : storeName A) : async Z :=
  fun db => (Resolved (Z.of_nat (length (records (objectStore_of n db)))), db).

(** ** Sorting

    [Array.prototype.sort] with a comparison function: a stable sort, in
    which [x] is put after [y] when the comparison of [x] with [y] is
    positive. *)
Section Sort.
Context {A : Type} (cmp : A -> A -> num).

Fixpoint sort_insert (x : A) (l : list A) : list A :=
  match l with
  | [] => [x]
  | y :: r => if num_gtb (cmp x y) zero then y :: sort_insert x r else x :: l
  end.

Definition sort (l : list A) : list A := foldr sort_insert [] l.
End Sort.

(** ** Objects used as maps

    The accumulators of the statistics are plain objects ([{}],
    [Object.fromEntries]): their own properties, over the members that
    every object inherits from [Object.prototype]. *)

Inductive propval : Type :=
  | PNum (n : num)
  | PText.  (* a string made by [+] from a value that is not a number *)

Definition Object_prototype : list string :=
  ["constructor"; "__defineGetter__"; "__defineSetter__"; "hasOwnProperty";
   "__lookupGetter__"; "__lookupSetter__"; "isPrototypeOf";
   "propertyIsEnumerable"; "toString"; "valueOf"; "__proto__";
   "toLocaleString"]%string.

Inductive lookup_result : Type :=
  | Own (v : propval)
  | Inherited          (* a function, or the prototype itself: truthy *)
  | Undefined.

(** [o[k]] *)
Definition obj_get (o : gmap string propval) (k : string) : lookup_result :=
  match o !! k with
  | Some v => Own v
  | None => if bool_decide (k ∈ Object_prototype) then Inherited else Undefined
  end.

(** [k in o] *)
Definition obj_has (o : gmap string propval) (k : string) : bool :=
  match obj_get o k with Undefined => false | _ => true end.

(** [o[k] = v]; the setter of [__proto__] ignores a value that is not an
    object. *)
Definition obj_set (o : gmap string propval) (k : string) (v : propval)
  : gmap string propval :=
  if bool_decide (k = "__proto__"%string) then o else <[k := v]> o.

(** [(x || 0) + n] for a looked-up [x] *)
Definition or0_plus (x : lookup_result) (n : num) : propval :=
  match x with
  | Own (PNum m) => PNum (num_add (num_or m zero) n)
  | Own PText | Inherited => PText
  | Undefined => PNum (num_add zero n)
  end.

(** [x + n] for a looked-up [x] that is there *)
Definition plus (x : lookup_result) (n : num) : propval :=
  match x with
  | Own (PNum m) => PNum (num_add m n)
  | Undefined => PNum NaN
  | _ => PText
  end.

(** ** The [DB] object *)

(** The fields that the form hands to [addExpense].  The three texts are
    strings, or absent ([null], [undefined]); the three numbers are any
    primitive value. *)
Record expenseFields : Type := mkFields {
  in_name : option string;
  in_amount : jsval;
  in_category : option string;
  in_date : option string;
  in_hour : jsval;
  in_minute : jsval
}.

(** [{ id, username }] *)
Record session : Type := mkSession {
  session_id : Z;
  session_username : string
}.

Definition hasUsers : async bool :=
  let! n := _count Users in resolve (0 <? n).

Definition createUser (now : Z) (username_ pin : string) : async session :=
  let u := toLowerCase (trim username_) in
  if slength u <? 2 then throw NomTropCourt else
  let! exists_ := _findOne u in
  if bool_decide (is_Some exists_) then throw NomDejaUtilise else
  let hash := _hash pin in
  let! id := _add Users (mkUser 0 u hash (num_of_Z now)) in
  resolve (mkSession id u).

Definition verifyUser (username_ pin : string) : async session :=
  let u := toLowerCase (trim username_) in
  let! found := _findOne u in
  match found with
  | None => throw UtilisateurIntrouvable
  | Some user =>
      if bool_decide (_hash pin ≠ pinHash user) then throw CodePinIncorrect
      else resolve (mkSession (user_key user) (username user))
  end.

(** [x || d] for a string that may be absent *)
Definition str_or (x : option string) (d : string) : string :=
  match x with
  | Some s => if str_truthy s then s else d
  | None => d
  end.

(** [!name?.trim()] *)
Definition name_missing (x : option string) : bool :=
  match x with
  | Some s => negb (str_truthy (trim s))
  | None => true
  end.

(** The record that [addExpense] writes, before the engine gives it its
    [id]. *)
Definition expense_record (now : Z) (userId : Z) (f : expenseFields) : expense := {|
  expense_key := 0;
  user_id  := num_of_Z userId;
  name     := trim (default EmptyString (in_name f));
  amount   := parseFloat_toFixed2 (ToNumber (in_amount f));
  category := str_or (in_category f) "Alimentation";
  date     := default EmptyString (in_date f);
  hour     := num_or (ToNumber (in_hour f)) zero;
  minute   := num_or (ToNumber (in_minute f)) zero;
  ts       := num_of_Z now
|}.

Definition addExpense (now : Z) (userId : Z) (f : expenseFields) : async Z :=
  if name_missing (in_name f) then throw NomRequis else
  if negb (num_gtb (ToNumber (in_amount f)) zero) then throw MontantInvalide else
  if negb (str_truthy (default EmptyString (in_date f))) then throw DateRequise else
  let record := expense_record now userId f in
  let! newId := _add Expenses record in
  if newId =? 0 then throw EnregistrementEchoue else
  resolve newId.

(** The test of step 3 of [getExpenses] on the date [d] of a record.  The
    two or [dow - 1] days that '3days' and 'week' go back are days of 24
    hours on the clock of the constant offset; where the offset of the
    local time changes within them, the source can reach another day. *)
Definition in_period (now : Z) (period : string) (d : string) : bool :=
  let today := _ds now in
  if bool_decide (period = "today"%string) then bool_decide (d = today)
  else if bool_decide (period = "3days"%string) then
    str_geb d (_ds (now - 2 * 86400000))
  else if bool_decide (period = "week"%string) then
    let dow := if getDay now =? 0 then 7 else getDay now in
    let mon := now - (dow - 1) * 86400000 in
    str_geb d (_ds mon)
  else if bool_decide (period = "month"%string) then
    bool_decide (slice0 7 d = slice0 7 today)
  else if bool_decide (period = "year"%string) then
    bool_decide (slice0 4 d = slice0 4 today)
  else true.

(** The comparison function of step 5: the most recent first *)
Definition by_recency (a b : expense) : num :=
  num_or (num_or (num_or (localeCompare (date b) (date a))
                         (num_sub (hour b) (hour a)))
                 (num_sub (minute b) (minute a)))
         (num_sub (ts b) (ts a)).

(** [getExpenses(userId, period = 'all', category = 'Toutes')]; an omitted
    argument is [None]. *)
Definition getExpenses (now : Z) (userId : Z) (period category_ : option string)
  : async (list expense) :=
  let period_ := default "all"%string period in
  let cat := default "Toutes"%string category_ in
  let! all := _getAllFromStore Expenses in
  let uid := num_of_Z userId in
  let list_ := filter (fun e => num_eqb (user_id e) uid = true) all in
  let list_ := filter (fun e => in_period now period_ (date e) = true) list_ in
  let list_ :=
    if str_truthy cat && bool_decide (cat ≠ "Toutes"%string)
    then filter (fun e => category e = cat) list_
    else list_ in
  resolve (sort by_recency list_).

Definition deleteExpense (userId id : Z) : async bool :=
  let! e := _get Expenses id in
  match e with
  | Some e =>
      if negb (num_eqb (user_id e) (num_of_Z userId)) then throw DepenseIntrouvable
      else _delete Expenses id
  | None => throw DepenseIntrouvable
  end.

(** [statsByCategory(userId, period)]; [period] is handed on as it is. *)
Definition statsByCategory (now : Z) (userId : Z) (period : option string)
  : async (gmap string propval) :=
  let! list_ := getExpenses now userId period (Some "Toutes"%string) in
  resolve
    (fold_left
       (fun acc e =>
          obj_set acc (category e) (or0_plus (obj_get acc (category e)) (amount e)))
       list_ ∅).

(** The keys 'YYYY-MM' of the twelve months that end with the current one *)
Definition month_keys (now : Z) : list string :=
  map (fun i =>
         let d := Date_ym1 (getFullYear now) (getMonth now - 11 + Z.of_nat i) in
         string_of_Z (getFullYear d) +:+ "-" +:+ padStart2 (string_of_Z (getMonth d + 1)))
      (seq 0 12).

Definition MN : list string :=
  ["Jan"; "Fév"; "Mar"; "Avr"; "Mai"; "Jun"; "Jul"; "Aoû"; "Sep"; "Oct"; "Nov"; "Déc"]%string.

(** [{ labels, data }] *)
Record series : Type := mkSeries {
  labels : list string;
  data : list lookup_result
}.

(** [s.split('-')] *)
Fixpoint split_chars (sep : ascii) (l cur : list ascii) : list (list ascii) :=
  match l with
  | [] => [rev cur]
  | c :: r =>
      if decide (c = sep) then rev cur :: split_chars sep r []
      else split_chars sep r (c :: cur)
  end.

Definition split (sep : ascii) (s : string) : list string :=
  map str (split_chars sep (chars s) []).

(** [MN[i]] for a number [i]: an element for an integer from 0 to 11 *)
Definition MN_at (i : num) : option string :=
  match i with
  | Fin q =>
      if bool_decide (Qden q = 1%positive ∧ 0 <= Qnum q) then MN !! Z.to_nat (Qnum q)
      else None
  | _ => None
  end.

(** A value in a template literal: [undefined] is written out. *)
Definition templ (x : option string) : string := default "undefined"%string x.

(** The label of a key: [`${MN[+m - 1]} ${y}`] for [[y, m] = k.split('-')] *)
Definition month_label (k : string) : string :=
  let parts := split "-" k in
  let y := parts !! 0%nat in
  let m := parts !! 1%nat in
  templ (MN_at (num_sub (match m with Some m => StringToNumber m | None => NaN end)
                        (num_of_Z 1)))
  +:+ " " +:+ templ y.

(** [statsByMonth(userId)] *)
Definition statsByMonth (now : Z) (userId : Z) : async series :=
  let! all := _getAllFromStore Expenses in
  let uid := num_of_Z userId in
  let mine := filter (fun e => num_eqb (user_id e) uid = true) all in
  let keys := month_keys now in
  let map0 : gmap string propval :=
    fold_left (fun m k => <[k := PNum zero]> m) keys ∅ in
  let map_ :=
    fold_left
      (fun m e =>
         let k := slice0 7 (date e) in
         if obj_has m k then obj_set m k (plus (obj_get m k) (amount e)) else m)
      mine map0 in
  resolve {| labels := map month_label keys; data := map (obj_get map_) keys |}.

(** ** The states that the operations reach, and what holds of them *)

(** One call of an operation that writes. *)
Inductive step : database -> database -> Prop :=
  | step_createUser now username_ pin db :
      step db (createUser now username_ pin db).2
  | step_addExpense now userId f db :
      step db (addExpense now userId f db).2
  | step_deleteExpense userId id db :
      step db (deleteExpense userId id db).2.

(** The databases that the application can be in. *)
Definition reachable (db : database) : Prop := rtc step empty_db db.

(** The keys of a store grow along its records and stay below the
    generator, which starts at 1. *)
Definition keys_ok {A} `{Stored A} (s : objectStore A) : Prop :=
  StronglySorted Z.lt (map key_of (records s)) /\
  Forall (fun r => 1 <= key_of r < keygen s) (records s) /\
  1 <= keygen s.

(** What [addExpense] stores: the owner and the time stamp are integers,
    the hour and the minute are numbers, the amount is a number that is
    not negative. *)
Definition is_number (n : num) : Prop := n <> NaN.

(** The finite doubles are multiples of [2 ^ -1074]. *)
Definition on_grid (q : Q) : Prop := exists k : Z, (q == inject_Z k * 2 ^ (-1074))%Q.

Definition gridded (n : num) : Prop :=
  match n with Fin q => on_grid q | _ => True end.

Record expense_ok (e : expense) : Prop := {
  ok_user_id : exists z, user_id e = num_of_Z z;
  ok_hour : is_number (hour e);
  ok_minute : is_number (minute e);
  ok_ts : exists z, ts e = num_of_Z z;
  ok_amount : is_number (amount e) /\ num_ltb (amount e) zero = false;
  ok_grid : gridded (hour e) /\ gridded (minute e)
}.

Definition db_ok (db : database) : Prop :=
  keys_ok (users db) /\ keys_ok (expenses db) /\
  Forall expense_ok (records (expenses db)).

(** ** The order of a listing *)

(** The order of two numbers, [NaN] below all. *)
Definition num_compare (a b : num) : comparison :=
  match a, b with
  | NaN, NaN => Eq
  | NaN, _ => Lt
  | _, NaN => Gt
  | NegInf, NegInf => Eq
  | NegInf, _ => Lt
  | _, NegInf => Gt
  | Fin x, Fin y => (x ?= y)%Q
  | Fin _, PosInf => Lt
  | PosInf, Fin _ => Gt
  | PosInf, PosInf => Eq
  end.

(** One comparison, then another where the first does not tell. *)
Definition lex {A} (c1 c2 : A -> A -> comparison) (a b : A) : comparison :=
  match c1 a b with Eq => c2 a b | c => c end.

(** The date, then the hour, then the minute, then the time stamp. *)
Definition compare_recency : expense -> expense -> comparison :=
  lex (fun a b => str_compare (date a) (date b))
   (lex (fun a b => num_compare (hour a) (hour b))
    (lex (fun a b => num_compare (minute a) (minute b))
         (fun a b => num_compare (ts a) (ts b)))).

(** [a] may stand before [b] in a listing that descends by date, then by
    hour, then by minute, then by time stamp. *)
Definition not_older (a b : expense) : Prop := compare_recency a b <> Lt.

(** The sum of a list of amounts, as a loop adds them up from 0. *)
Definition total (l : list num) : num := fold_left num_add l zero.

(** The periods that [getExpenses] knows a date test for. *)
Definition dated_periods : list string :=
  ["today"; "3days"; "week"; "month"; "year"]%string.

(** The month that lies [k] months before that of [now], counted from 0,
    with its year. *)
Definition month_before (now : Z) (k : Z) : Z * Z :=
  let idx := 12 * getFullYear now + getMonth now - k in
  (idx / 12, idx mod 12).

(** The key 'YYYY-MM' of a month counted from 0. *)
Definition month_key (ym : Z * Z) : string :=
  string_of_Z ym.1 +:+ "-" +:+ padStart2 (string_of_Z (ym.2 + 1)).

(** ** The vocabulary of the properties *)

(** The sign of a number: [Gt] above zero, [Lt] for the other truthy
    numbers, [Eq] for zero and [NaN]. *)
Definition sgn (n : num) : comparison :=
  if num_gtb n zero then Gt else if num_truthy n then Lt else Eq.

(** A three-way comparison of a total preorder. *)
Record order_compare {A} (c : A -> A -> comparison) : Prop := {
  oc_antisym : forall a b, c b a = CompOpp (c a b);
  oc_eq : forall a b d, c a b = Eq -> c a d = c b d;
  oc_lt : forall a b d, c a b = Lt -> c b d = Lt -> c a d = Lt
}.

(** The fields that [addExpense] accepts. *)
Definition valid_fields (f : expenseFields) : Prop :=
  name_missing (in_name f) = false /\
  num_gtb (ToNumber (in_amount f)) zero = true /\
  str_truthy (default EmptyString (in_date f)) = true.

(** The database with one more expense, under the next key. *)
Definition with_expense (db : database) (e : expense) : database :=
  mkDB (users db)
       (mkStore (records (expenses db) ++ [with_key (keygen (expenses db)) e])
                (keygen (expenses db) + 1)).

#[export] Instance Q_eq_dec : EqDecision Q.
Proof. solve_decision. Defined.

#[export] Instance num_eq_dec : EqDecision num.
Proof. solve_decision. Defined.

(** The record is of that user: [Number(e.user_id) === uid]. *)
Definition owned_by (userId : Z) (e : expense) : Prop :=
  num_eqb (user_id e) (num_of_Z userId) = true.

(** The test of step 4 of [getExpenses] on a record. *)
Definition category_matches (category_ : option string) (e : expense) : Prop :=
  let cat := default "Toutes"%string category_ in
  cat = EmptyString \/ cat = "Toutes"%string \/ category e = cat.

#[export] Instance owned_by_dec userId e : Decision (owned_by userId e).
Proof. unfold owned_by. apply _. Defined.

#[export] Instance category_matches_dec category_ e :
  Decision (category_matches category_ e).
Proof. unfold category_matches. apply _. Defined.

(** The amount is zero, negative, or not a number. *)
Definition not_positive (x : num) : Prop :=
  x = NaN \/ num_ltb x zero = true \/ num_eqb x zero = true.

(** The number is an integer from [lo] to [hi]. *)
Definition in_range (lo hi : Z) (n : num) : Prop :=
  exists z, n = num_of_Z z /\ lo <= z <= hi.

(** The fields of a record are those that were handed in, the numbers
    compared as numbers. *)
Definition same_fields (f : expenseFields) (e : expense) : Prop :=
  in_name f = Some (name e) /\
  num_eqb (ToNumber (in_amount f)) (amount e) = true /\
  in_category f = Some (category e) /\
  in_date f = Some (date e) /\
  num_eqb (ToNumber (in_hour f)) (hour e) = true /\
  num_eqb (ToNumber (in_minute f)) (minute e) = true.

(** The civil date within an era, from the day of the era. *)
Definition civil_of_doe (era doe : Z) : Z * Z * Z :=
  let yoe := (doe - doe / 1460 + doe / 36524 - doe / 146096) / 365 in
  let doy := doe - (365 * yoe + yoe / 4 - yoe / 100) in
  let mp := (5 * doy + 2) / 153 in
  let d := doy - (153 * mp + 2) / 5 + 1 in
  let m := if mp <? 10 then mp + 3 else mp - 9 in
  let y := yoe + era * 400 in
  (if m <=? 2 then y + 1 else y, m, d).

(** The day of the era of the first of a month of a year of the era. *)
Definition doe_of_month (yoe m : Z) : Z :=
  yoe * 365 + yoe / 4 - yoe / 100 + ((153 * (if 2 <? m then m - 3 else m + 9) + 2) / 5 + 1 - 1).

Definition check_day (doe : Z) : bool :=
  let '(y, m, d) := civil_of_doe 0 doe in
  (0 <=? y) && (y <=? 400) && (1 <=? m) && (m <=? 12) && (1 <=? d) && (d <=? 31).

Definition check_month (yoe m : Z) : bool :=
  let doe := doe_of_month yoe m in
  (0 <=? doe) && (doe <? 146097) &&
  bool_decide (civil_of_doe 0 doe = (if m <=? 2 then yoe + 1 else yoe, m, 1)).

(** A test on every integer from [lo], [n] of them. *)
Definition all_from (P : Z -> bool) (lo : Z) (n : positive) : bool * Z :=
  Pos.iter (fun '(ok, i) => (ok && P i, i + 1)) (true, lo) n.

(** The two-digit month of a month counted from 0. *)
Definition month_digits (m : Z) : string := padStart2 (string_of_Z (m + 1)).

(** The last two characters of a string. *)
Definition last2 (s : string) : list ascii :=
  drop (length (chars s) - 2) (chars s).

(** The months of [statsByMonth]: the current one and the eleven before. *)
Definition months_of (now : Z) : list (Z * Z) :=
  map (fun i => month_before now (11 - Z.of_nat i)) (seq 0 12).

(** The number is written in lowest terms. *)
Definition canonical (n : num) : Prop := norm n = n.

(** The amounts of the expenses of a list that pass a test. *)
Definition amounts (P : expense -> Prop) `{!forall e, Decision (P e)}
    (l : list expense) : list num :=
  map amount (filter P l).

(** The whole number that a number is, when it is one. *)
Definition whole_of (n : num) : Z :=
  match n with Fin q => Qfloor q | _ => 0 end.

Definition sumZ (l : list num) : Z := foldr (fun n s => whole_of n + s) 0 l.

(** The amounts are whole numbers, not negative, that add up to less than
    [2 ^ 53]: no sum of them is rounded. *)
Definition whole_amounts (l : list num) : Prop :=
  Forall (fun n => exists z, 0 <= z /\ n = num_of_Z z) l /\ sumZ l < 2 ^ 53.

(** The step of the loop of [statsByMonth] over the expenses. *)
Definition month_step (m : gmap string propval) (e : expense) : gmap string propval :=
  let k := slice0 7 (date e) in
  if obj_has m k then obj_set m k (plus (obj_get m k) (amount e)) else m.

(** The step of the [reduce] of [statsByCategory]. *)
Definition category_step (acc : gmap string propval) (e : expense) : gmap string propval :=
  obj_set acc (category e) (or0_plus (obj_get acc (category e)) (amount e)).

(** An amount that [addExpense] stores: a number that is not negative. *)
Definition stored_amount (n : num) : Prop :=
  is_number n /\ num_ltb n zero = false.

(** ** Sample calls *)

(** Noon of the 10th of March 2024, a Sunday. *)
Definition noon : Z := 1710072000000.

(** The expense of the scenario of the specification. *)
Definition taxi : expenseFields := {|
  in_name := Some "Taxi"%string;
  in_amount := JNum (Fin 1500);
  in_category := Some "Transport"%string;
  in_date := Some "2024-03-10"%string;
  in_hour := JNum (Fin 8);
  in_minute := JNum (Fin 30)
|}.

Definition db_taxi : database := (addExpense noon 1 taxi empty_db).2.

(** An amount with three decimals: 1.234. *)
Definition coffee : expenseFields := {|
  in_name := Some "Cafe"%string;
  in_amount := JNum (Fin (617 # 500));
  in_category := Some "Alimentation"%string;
  in_date := Some "2024-03-10"%string;
  in_hour := JNum (Fin 8);
  in_minute := JNum (Fin 30)
|}.

(** The fields of the form, with an hour and a minute out of range. *)
Definition late : expenseFields := {|
  in_name := Some "Taxi"%string;
  in_amount := JStr "1500";
  in_category := Some "Transport"%string;
  in_date := Some "2024-03-10"%string;
  in_hour := JStr "99";
  in_minute := JStr "75"
|}.

(** Two categories that are names of members of [Object.prototype]. *)
Definition odd (category_ : string) : expenseFields := {|
  in_name := Some "x"%string;
  in_amount := JStr "5";
  in_category := Some category_;
  in_date := Some "2024-03-10"%string;
  in_hour := JUndefined;
  in_minute := JUndefined
|}.

Definition db_odd : database :=
  (addExpense noon 1 (odd "__proto__") (addExpense noon 1 (odd "constructor") empty_db).2).2.

Definition db_alice : database := (createUser noon "  Alice " "1234" empty_db).2.

(** An amount that is not a number. *)
Definition unpriced : expenseFields := {|
  in_name := Some "Taxi"%string;
  in_amount := JStr "abc";
  in_category := Some "Transport"%string;
  in_date := Some "2024-03-10"%string;
  in_hour := JStr "8";
  in_minute := JStr "30"
|}.

(** The fields as the form hands them over: six texts. *)
Definition entry (name_ amount_ category_ date_ hour_ minute_ : string) : expenseFields := {|
  in_name := Some name_;
  in_amount := JStr amount_;
  in_category := Some category_;
  in_date := Some date_;
  in_hour := JStr hour_;
  in_minute := JStr minute_
|}.

(** The database after a list of calls of [addExpense], each with its
    time and its user. *)
Definition add_all (calls : list (Z * Z * expenseFields)) (db : database) : database :=
  fold_left (fun db '(now, userId, f) => (addExpense now userId f db).2) calls db.

(** A store of two users: for user 1 three expenses of the tenth of March
    2024, two of them of the same minute, one of the day before, one of
    February, one of each of the first of April and the last of March of
    the year before, and one of user 2. *)
Definition db_many : database :=
  add_all
    [(noon, 1, taxi);
     (noon + 1, 2, entry "Pain" "300" "Alimentation" "2024-03-10" "9" "0");
     (noon + 2, 1, entry "Cafe" "0.1" "Alimentation" "2024-03-10" "8" "30");
     (noon + 3, 1, entry "The" "0.2" "Alimentation" "2024-03-09" "23" "59");
     (noon + 4, 1, entry "Riz" "0.3" "Alimentation" "2024-02-29" "12" "0");
     (noon + 5, 1, entry "Lait" "7" "Alimentation" "2023-04-01" "7" "5");
     (noon + 6, 1, entry "Vieux" "9" "Loisirs" "2023-03-31" "10" "0");
     (noon + 7, 1, entry "Diner" "2500" "Alimentation" "2024-03-10" "20" "15")]
    empty_db.

(** Three amounts that are not whole: 0.3 in February, then 0.2 and 0.1 in
    March. *)
Definition db_cents : database :=
  add_all
    [(noon, 1, entry "Riz" "0.3" "Alimentation" "2024-02-29" "12" "0");
     (noon + 1, 1, entry "The" "0.2" "Alimentation" "2024-03-09" "23" "59");
     (noon + 2, 1, entry "Cafe" "0.1" "Alimentation" "2024-03-10" "8" "30")]
    empty_db.

(** Whole amounts. *)
Definition db_whole : database :=
  add_all
    [(noon, 1, taxi);
     (noon + 1, 1, entry "Riz" "300" "Alimentation" "2024-02-29" "12" "0");
     (noon + 2, 2, entry "Pain" "300" "Alimentation" "2024-03-10" "9" "0");
     (noon + 3, 1, entry "Diner" "2500" "Alimentation" "2024-03-10" "20" "15");
     (noon + 4, 1, entry "Cine" "4000" "Loisirs" "2024-03-09" "21" "0")]
    empty_db.

(** ** What the stores keep *)

(** What [createUser] stores: the name in lower case without outer white
    space, of two characters at least; the digest of a PIN; the time of
    the creation. *)
Record user_ok (u : user) : Prop := {
  ok_username : toLowerCase (trim (username u)) = username u;
  ok_username_length : 2 <= slength (username u);
  ok_pinHash : exists pin, pinHash u = _hash pin;
  ok_createdAt : exists z, createdAt u = num_of_Z z
}.

(** The texts of an expense that [addExpense] stores: a name that is not
    empty and has no outer white space, a category and a date that are not
    empty. *)
Record expense_filled (e : expense) : Prop := {
  ok_name : name e <> EmptyString /\ trim (name e) = name e;
  ok_category : category e <> EmptyString;
  ok_date : date e <> EmptyString
}.

Definition db_kept (db : database) : Prop :=
  Forall user_ok (records (users db)) /\
  NoDup (map username (records (users db))) /\
  Forall expense_filled (records (expenses db)).

(** ** [statsByDay], and the helpers of the pages *)

(** The comparison of [Array.prototype.sort] without a comparison
    function, on strings: by the codes of the characters. *)
Definition SortCompare (x y : string) : num :=
  match str_compare x y with
  | Lt => num_of_Z (-1)
  | Eq => zero
  | Gt => num_of_Z 1
  end.

(** [Object.keys(o)]: the own keys.  The map does not keep the order in
    which they were set; [statsByDay] sorts them at once. *)
Definition Object_keys (o : gmap string propval) : list string :=
  map fst (map_to_list o).

(** The label of a date: [`${j}/${m}`] for [[, m, j] = d.split('-')] *)
Definition day_label (d : string) : string :=
  let parts := split "-" d in
  let m := parts !! 1%nat in
  let j := parts !! 2%nat in
  templ j +:+ "/" +:+ templ m.

(** [statsByDay(userId, period)]; [period] is handed on as it is. *)
Definition statsByDay (now : Z) (userId : Z) (period : option string) : async series :=
  let! list_ := getExpenses now userId period (Some "Toutes"%string) in
  let map_ :=
    fold_left
      (fun m e => obj_set m (date e) (or0_plus (obj_get m (date e)) (amount e)))
      list_ ∅ in
  let dates := sort SortCompare (Object_keys map_) in
  resolve {| labels := map day_label dates; data := map (obj_get map_) dates |}.

(** [todayStr()] of the pages, at the time [now] *)
Definition todayStr (now : Z) : string :=
  string_of_Z (getFullYear now) +:+ "-" +:+
  padStart2 (string_of_Z (getMonth now + 1)) +:+ "-" +:+
  padStart2 (string_of_Z (getDate now)).

(** [fmtDate(s)] *)
Definition fmtDate (s : string) : string :=
  if negb (str_truthy s) then EmptyString else
  let parts := split "-" s in
  let y := parts !! 0%nat in
  let m := parts !! 1%nat in
  let d := parts !! 2%nat in
  templ d +:+ "/" +:+ templ m +:+ "/" +:+ templ y.

(** The total that [renderList] shows:
    [expenses.reduce((s, e) => s + e.amount, 0)] *)
Definition renderList_total (expenses_ : list expense) : num :=
  fold_left (fun s e => num_add s (amount e)) expenses_ zero.

(** The step of the loop of [statsByDay]. *)
Definition day_step (m : gmap string propval) (e : expense) : gmap string propval :=
  obj_set m (date e) (or0_plus (obj_get m (date e)) (amount e)).

(** What a user is shown of the expenses: every listing and every
    statistic, at every time. *)
Definition same_for (userId : Z) (db db' : database) : Prop :=
  forall (now : Z) (period category_ : option string),
    (getExpenses now userId period category_ db').1 =
      (getExpenses now userId period category_ db).1 /\
    (statsByCategory now userId period db').1 = (statsByCategory now userId period db).1 /\
    (statsByDay now userId period db').1 = (statsByDay now userId period db).1 /\
    (statsByMonth now userId db').1 = (statsByMonth now userId db).1.

(** A digit of lower-case hexadecimal: 0 to 9, a to f. *)
Definition is_hex (c : ascii) : bool :=
  let n := code c in ((48 <=? n) && (n <=? 57)) || ((97 <=? n) && (n <=? 102)).

(** ** The order of the dates *)

(** A number that orders the civil dates as the calendar does: the months
    have 31 days at most, the years 12 months. *)
Definition ord_civil (c : Z * Z * Z) : Z := c.1.1 * 372 + c.1.2 * 31 + c.2.

(** The day after a day of the era is a later date. *)
Definition check_next (doe : Z) : bool :=
  ord_civil (civil_of_doe 0 doe) <? ord_civil (civil_of_doe 0 (doe + 1)).

(** The decimal digit of a number from 0 to 9. *)
Definition digit (n : Z) : ascii := ascii_of_nat (Z.to_nat (48 + n)).

(** A year of four digits is written with them. *)
Definition check_year (y : Z) : bool :=
  bool_decide (chars (string_of_Z y) =
               [digit (y / 1000); digit (y / 100 mod 10); digit (y / 10 mod 10);
                digit (y mod 10)]).

(** A month or a day is written with two digits. *)
Definition check_two (n : Z) : bool :=
  bool_decide (chars (padStart2 (string_of_Z n)) = [digit (n / 10); digit (n mod 10)]).

(** The first moment of the year 10000, from which a year has five digits. *)
Definition Y10K : Z := days_from_civil 10000 1 1 * msPerDay.

(** The Monday of the week of [now], as [getExpenses] computes it. *)
Definition monday (now : Z) : Z :=
  let dow := if getDay now =? 0 then 7 else getDay now in
  now - (dow - 1) * 86400000.

(** The text 'YYYY-MM-DD' of a civil date, digit by digit. *)
Definition iso_date (c : Z * Z * Z) : string :=
  let '(y, m, d) := c in
  str [digit (y / 1000); digit (y / 100 mod 10); digit (y / 10 mod 10); digit (y mod 10);
       "-"%char; digit (m / 10); digit (m mod 10);
       "-"%char; digit (d / 10); digit (d mod 10)].

(** A text of the shape of a date: four digits, a hyphen, two digits, a
    hyphen, two digits. *)
Definition iso_shape (s : string) : bool :=
  match chars s with
  | [a; b; c; d; h; e; f; h'; g; i] =>
      forallb is_digit [a; b; c; d; e; f; g; i] &&
      bool_decide (h = "-"%char) && bool_decide (h' = "-"%char)
  | _ => false
  end.

(** The French abbreviation of a month counted from 0. *)
Definition month_abbrev (m : Z) : string :=
  match m with
  | 0 => "Jan" | 1 => "Fév" | 2 => "Mar" | 3 => "Avr" | 4 => "Mai" | 5 => "Jun"
  | 6 => "Jul" | 7 => "Aoû" | 8 => "Sep" | 9 => "Oct" | 10 => "Nov" | 11 => "Déc"
  | _ => "undefined"
  end.


(** The text [d] begins with the text [k]. *)
Definition begins_with (k d : string) : Prop := chars k `prefix_of` chars d.

#[export] Instance begins_with_dec k d : Decision (begins_with k d).
Proof. unfold begins_with. apply _. Defined.

(** The number that the digits of a text write, the other characters left
    out: 20240310 for '2024-03-10'. *)
Definition date_number (s : string) : Z :=
  fold_left (fun n c => if is_digit c then 10 * n + (code c - 48) else n) (chars s) 0.

(** The hour, then the minute, then the time stamp. *)
Definition compare_time : expense -> expense -> comparison :=
  lex (fun a b => num_compare (hour a) (hour b))
   (lex (fun a b => num_compare (minute a) (minute b))
        (fun a b => num_compare (ts a) (ts b))).

(** [a] may stand before [b] in a listing of one day that descends by hour,
    then by minute, then by time stamp. *)
Definition not_earlier (a b : expense) : Prop := compare_time a b <> Lt.

(** The day that the date writes, then the hour, the minute and the time
    stamp. *)
Definition compare_newest : expense -> expense -> comparison :=
  lex (fun a b => date_number (date a) ?= date_number (date b)) compare_time.

(** [a] may stand before [b] in a listing that descends by day, then by
    hour, then by minute, then by time stamp. *)
Definition newest_first (a b : expense) : Prop := compare_newest a b <> Lt.

(** * Properties *)

(** ** The model at known values *)

Example ds_epoch : _ds 0 = "1970-01-01"%string.
Proof. reflexivity. Qed.

Example ds_noon : _ds noon = "2024-03-10"%string /\ getDay noon = 0.
Proof. split; reflexivity. Qed.

Example ds_months :
  _ds (Date_ym1 2024 1 + 28 * msPerDay) = "2024-02-29"%string /\
  _ds (Date_ym1 2023 14) = "2024-03-01"%string /\
  _ds (Date_ym1 2024 (-1)) = "2023-12-01"%string.
Proof. repeat split; reflexivity. Qed.

Example StringToNumber_values :
  StringToNumber " 12.50 " = Fin (25 # 2) /\ StringToNumber EmptyString = zero /\
  StringToNumber "abc" = NaN /\ StringToNumber "-3" = Fin (-3 # 1) /\
  StringToNumber "1e3" = Fin (1000 # 1) /\ StringToNumber ".5e-1" = StringToNumber "0.05" /\
  StringToNumber "0x1F" = Fin (31 # 1) /\ StringToNumber "-Infinity" = NegInf /\
  StringToNumber "1.2.3" = NaN /\ StringToNumber "5." = Fin (5 # 1) /\
  StringToNumber "." = NaN /\ StringToNumber "12px" = NaN /\ StringToNumber "-0x10" = NaN.
Proof. repeat split; reflexivity. Qed.

(** The doubles: a tenth is not a tenth, a sum is rounded, the numbers
    end at [2 ^ 1024] and begin at [2 ^ -1074], and of two doubles equally
    near the even one is taken. *)
Example doubles :
  StringToNumber "0.1" = Fin (3602879701896397 # 36028797018963968) /\
  num_add (StringToNumber "0.1") (StringToNumber "0.2") = StringToNumber "0.30000000000000004" /\
  num_eqb (num_add (StringToNumber "0.1") (StringToNumber "0.2")) (StringToNumber "0.3") = false /\
  StringToNumber "1e1000" = PosInf /\ StringToNumber "1e-400" = zero /\
  StringToNumber "1.7976931348623159e308" = PosInf /\
  StringToNumber "3e-324" = StringToNumber "5e-324" /\ StringToNumber "2e-324" = zero /\
  StringToNumber "9007199254740993" = Fin 9007199254740992 /\
  StringToNumber "9007199254740995" = Fin 9007199254740996.
Proof. repeat split; vm_compute; reflexivity. Qed.

Example parseFloat_toFixed2_values :
  parseFloat_toFixed2 (StringToNumber "1.234") = StringToNumber "1.23" /\
  parseFloat_toFixed2 (StringToNumber "1.005") = Fin 1 /\
  parseFloat_toFixed2 (StringToNumber "2.675") = StringToNumber "2.67" /\
  parseFloat_toFixed2 (StringToNumber "0.001") = Fin 0 /\
  parseFloat_toFixed2 (StringToNumber "0.005") = StringToNumber "0.01" /\
  parseFloat_toFixed2 (StringToNumber "-0.005") = StringToNumber "-0.01" /\
  parseFloat_toFixed2 (Fin 1500) = Fin 1500 /\
  parseFloat_toFixed2 PosInf = PosInf.
Proof. repeat split; vm_compute; reflexivity. Qed.

Example sha256_abc :
  str (concat (map hex_byte (Sha256.digest (encode "abc")))) =
  "ba7816bf8f01cfea414140de5dae2223b00361a396177a9cb410ff61f20015ad"%string.
Proof. vm_compute. reflexivity. Qed.

Example sha256_empty :
  str (concat (map hex_byte (Sha256.digest (encode EmptyString)))) =
  "e3b0c44298fc1c149afbf4c8996fb92427ae41e4649b934ca495991b7852b855"%string.
Proof. vm_compute. reflexivity. Qed.

Example hash_1234 :
  _hash "1234" = "f1a793d346297f146832539731abc73cf6a06c19bcb5640c127737bdbefa79e0"%string.
Proof. vm_compute. reflexivity. Qed.

Example trim_lower : toLowerCase (trim "  Alice ") = "alice"%string.
Proof. reflexivity. Qed.

(** The tenth of March 2024 is a Sunday: the week began on the fourth, the
    three days on the eighth. *)
Example in_period_values :
  in_period noon "week" "2024-03-04" = true /\ in_period noon "week" "2024-03-03" = false /\
  in_period noon "3days" "2024-03-08" = true /\ in_period noon "3days" "2024-03-07" = false /\
  in_period noon "month" "2024-03-01" = true /\ in_period noon "month" "2024-02-29" = false /\
  in_period noon "year" "2024-01-01" = true /\ in_period noon "year" "2023-12-31" = false /\
  in_period noon "today" "2024-03-10" = true /\ in_period noon "today" "2024-03-09" = false.
Proof. repeat split; reflexivity. Qed.

(** The scenario of the specification: after the taxi of 1500 for user 1,
    the statistics by category are [{Transport: 1500}]. *)
Example scenario_taxi :
  exists m,
    statsByCategory noon 1 (Some "all"%string) db_taxi = (Resolved m, db_taxi) /\
    map_to_list m = [("Transport"%string, PNum (num_of_Z 1500))].
Proof. eexists. split; [reflexivity|]. vm_compute. reflexivity. Qed.

(** ** Numbers *)

Lemma Qred_eq (x y : Q) : (x == y)%Q -> Qred x = Qred y.
Proof. apply Qred_complete. Qed.

Lemma num_eqb_of_Z (a b : Z) : num_eqb (num_of_Z a) (num_of_Z b) = true <-> a = b.
Proof.
  unfold num_of_Z; simpl. rewrite Qeq_bool_iff. unfold Qeq; simpl. lia.
Qed.

Lemma num_eqb_of_Z_neq (a b : Z) : a <> b -> num_eqb (num_of_Z a) (num_of_Z b) = false.
Proof.
  intros Hne. destruct (num_eqb _ _) eqn:E; [|done].
  apply num_eqb_of_Z in E. done.
Qed.

Lemma sgn_Fin (q : Q) : sgn (Fin q) = (q ?= 0)%Q.
Proof.
  unfold sgn, num_gtb, num_ltb, zero, num_of_Z, num_truthy.
  change (inject_Z 0) with 0%Q.
  rewrite <- (Qcompare_antisym q 0).
  destruct (q ?= 0)%Q eqn:E; simpl; try reflexivity.
  - apply Qeq_alt in E. apply Qeq_bool_iff in E. rewrite E. reflexivity.
  - destruct (Qeq_bool q 0) eqn:E2; [|reflexivity].
    apply Qeq_bool_iff, Qeq_alt in E2. congruence.
Qed.

Lemma sgn_or (a b : num) :
  sgn (num_or a b) = match sgn a with Eq => sgn b | c => c end.
Proof.
  unfold num_or. destruct (num_truthy a) eqn:T.
  - unfold sgn. rewrite T. destruct (num_gtb a zero); reflexivity.
  - destruct a as [| |q|]; try discriminate; try reflexivity.
    rewrite sgn_Fin. simpl in T. apply negb_false_iff, Qeq_bool_iff, Qeq_alt in T.
    rewrite T. reflexivity.
Qed.

(** *** Rounding to a double *)

Lemma pow2_pos (e : Z) : (0 < 2 ^ e)%Q.
Proof. by apply Qpower_0_lt. Qed.

Lemma pow2_add (a b : Z) : (2 ^ (a + b) == 2 ^ a * 2 ^ b)%Q.
Proof. by apply Qpower_plus. Qed.

Lemma pow2_le (a b : Z) : a <= b -> (2 ^ a <= 2 ^ b)%Q.
Proof. intros H. by apply Qpower_le_compat_l. Qed.

Lemma pow2_Z (n : Z) : 0 <= n -> (2 ^ n == inject_Z (2 ^ n))%Q.
Proof. intros H. symmetry. by apply (Zpower_Qpower 2). Qed.

Lemma Qred_Qred (q : Q) : Qred (Qred q) = Qred q.
Proof. apply Qred_complete, Qred_correct. Qed.

Lemma Qred_inject_Z (z : Z) : Qred (inject_Z z) = inject_Z z.
Proof.
  unfold inject_Z, Qred. cbn [Qnum Qden].
  pose proof (Z.ggcd_gcd z 1) as Hg. pose proof (Z.ggcd_correct_divisors z 1) as Hd.
  destruct (Z.ggcd z 1) as [g [n d]]. cbn [fst snd] in *. destruct Hd as [Hn Hd].
  rewrite Z.gcd_1_r in Hg. subst g. rewrite !Z.mul_1_l in *. by subst.
Qed.

Lemma ilog2_le (q : Q) : (0 < q)%Q -> (2 ^ ilog2 q <= q)%Q.
Proof.
  intros Hq. unfold ilog2. destruct (Qle_bool _ q) eqn:E; [by apply Qle_bool_iff|].
  clear E. destruct q as [n d]. 
  assert (0 < n) as Hn by (unfold Qlt in Hq; cbn in Hq; lia).
  cbn [Qnum Qden].
  pose proof (Z.log2_spec n Hn) as [Ha _].
  pose proof (Z.log2_spec (Z.pos d) eq_refl) as [_ Hb].
  pose proof (Z.log2_nonneg n) as Ha0. pose proof (Z.log2_nonneg (Z.pos d)) as Hb0.
  set (a := Z.log2 n) in *. set (b := Z.log2 (Z.pos d)) in *.
  replace (a - b - 1) with (a + - Z.succ b) by lia.
  rewrite pow2_add, Qpower_opp, !pow2_Z by lia.
  assert (0 < 2 ^ Z.succ b) as Hp by (apply Z.pow_pos_nonneg; lia).
  rewrite (Qmake_Qdiv n d). unfold Qdiv.
  apply Qle_trans with (inject_Z n * / inject_Z (2 ^ Z.succ b))%Q.
  - apply Qmult_le_compat_r; [by rewrite <- Zle_Qle|].
    apply Qinv_le_0_compat. rewrite <- (Zle_Qle 0). lia.
  - rewrite !(Qmult_comm (inject_Z n)). apply Qmult_le_compat_r; [|rewrite <- (Zle_Qle 0); lia].
    apply Qle_shift_inv_l; [by rewrite <- (Zlt_Qlt 0)|].
    rewrite Qmult_comm. apply Qle_shift_div_r; [by rewrite <- (Zlt_Qlt 0)|].
    rewrite Qmult_1_l, <- Zle_Qle. lia.
Qed.

Lemma round_even_bounds (q : Q) : Qfloor q <= round_even q <= Qfloor q + 1.
Proof.
  unfold round_even. destruct (_ ?= _)%Q; [destruct (Z.even _)| |]; lia.
Qed.

Lemma round_even_Z (z : Z) : round_even (inject_Z z) = z.
Proof.
  unfold round_even. rewrite Qfloor_Z.
  assert ((inject_Z z - inject_Z z ?= 1 # 2)%Q = Lt) as ->; [|done].
  rewrite <- Qlt_alt. lra.
Qed.

Lemma round_even_comp (q q' : Q) : (q == q')%Q -> round_even q = round_even q'.
Proof.
  intros E. unfold round_even. rewrite (Qfloor_comp _ _ E).
  assert ((q - inject_Z (Qfloor q') ?= 1 # 2)%Q = (q' - inject_Z (Qfloor q') ?= 1 # 2)%Q)
    as ->; [|done].
  apply Qcompare_comp; [by rewrite E|reflexivity].
Qed.

(** What [round64_pos] gives for a positive rational: an infinity, or a
    rational in lowest terms that is on the grid and not negative; and
    positive, when what is rounded is on the grid. *)
Lemma round64_pos_spec (q : Q) :
  (0 < q)%Q ->
  round64_pos q = PosInf \/
  exists r, round64_pos q = Fin (Qred r) /\ (0 <= r)%Q /\ on_grid r /\
            (on_grid q -> (0 < r)%Q).
Proof.
  intros Hq. unfold round64_pos.
  set (e := Z.max (ilog2 q) (-1022)).
  set (ulp := (2 ^ (e - 52))%Q).
  assert (0 < ulp)%Q as Hulp by apply pow2_pos.
  assert (0 < q / ulp)%Q as Hm by (apply Qlt_shift_div_l; [done|lra]).
  set (k := round_even (q / ulp)).
  assert (0 <= k) as Hk.
  { pose proof (round_even_bounds (q / ulp)) as [Hb _]. fold k in Hb.
    assert (Qfloor 0 <= Qfloor (q / ulp)) as Hf by (apply Qfloor_resp_le; lra).
    change (Qfloor 0) with 0 in Hf. lia. }
  destruct (Qle_bool _ _); [by left|]. right.
  exists (inject_Z k * ulp)%Q. split; [done|]. split; [|split].
  - apply Qmult_le_0_compat; [|lra]. by rewrite <- (Zle_Qle 0).
  - exists (k * 2 ^ (e + 1022)). unfold ulp.
    replace (e - 52) with ((e + 1022) + -1074) by lia.
    rewrite pow2_add, (pow2_Z (e + 1022)) by lia. rewrite inject_Z_mult. ring.
  - intros (j & Hj).
    assert (1 <= q / ulp)%Q as H1.
    { apply Qle_shift_div_l; [done|]. rewrite Qmult_1_l.
      destruct (Z.max_spec (ilog2 q) (-1022)) as [[Hlt He]|[Hle He]]; fold e in He.
      - unfold ulp. rewrite He. change (-1022 - 52) with (-1074).
        assert (0 < j) as Hj0.
        { rewrite (Zlt_Qlt 0 j). change (inject_Z 0) with 0%Q.
          pose proof (pow2_pos (-1074)) as Hp.
          destruct (Qlt_le_dec 0 (inject_Z j)) as [|Hneg]; [done|].
          rewrite Hj in Hq. exfalso.
          assert (inject_Z j * 2 ^ (-1074) <= 0 * 2 ^ (-1074))%Q
            by (apply Qmult_le_compat_r; lra). lra. }
        rewrite Hj. rewrite <- (Qmult_1_l (2 ^ (-1074))) at 1.
        apply Qmult_le_compat_r; [|pose proof (pow2_pos (-1074)); lra].
        rewrite <- (Zle_Qle 1). lia.
      - unfold ulp. rewrite He.
        apply Qle_trans with (2 ^ ilog2 q)%Q; [apply pow2_le; lia|by apply ilog2_le]. }
    assert (1 <= k) as Hk1.
    { pose proof (round_even_bounds (q / ulp)) as [Hb _]. fold k in Hb.
      assert (Qfloor 1 <= Qfloor (q / ulp)) as Hf by (by apply Qfloor_resp_le).
      change (Qfloor 1) with 1 in Hf. lia. }
    apply Qmult_lt_0_compat; [|done]. rewrite <- (Zlt_Qlt 0). lia.
Qed.

Lemma on_grid_comp (q q' : Q) : (q == q')%Q -> on_grid q -> on_grid q'.
Proof. intros E (k & Hk). exists k. by rewrite <- E. Qed.

Lemma on_grid_opp (q : Q) : on_grid q -> on_grid (- q).
Proof. intros (k & Hk). exists (- k). rewrite Hk, inject_Z_opp. ring. Qed.

Lemma on_grid_plus (x y : Q) : on_grid x -> on_grid y -> on_grid (x + y).
Proof.
  intros (j & Hj) (k & Hk). exists (j + k). rewrite Hj, Hk, inject_Z_plus. ring.
Qed.

Lemma on_grid_Z (z : Z) : on_grid (inject_Z z).
Proof.
  exists (z * 2 ^ 1074). rewrite inject_Z_mult, <- (pow2_Z 1074) by lia.
  rewrite <- Qmult_assoc, <- pow2_add. change (1074 + -1074) with 0.
  change (2 ^ 0)%Q with 1%Q. ring.
Qed.

Lemma round64_comp (q q' : Q) : (q == q')%Q -> round64 q = round64 q'.
Proof. intros E. unfold round64. by rewrite (Qred_complete _ _ E). Qed.

(** What [round64] gives: never [NaN]; a rational in lowest terms on the
    grid; of the sign of what is rounded, if that is not negative, and
    always when it is on the grid. *)
Lemma round64_spec (q : Q) :
  is_number (round64 q) /\ canonical (round64 q) /\ gridded (round64 q) /\
  ((0 <= q)%Q -> num_ltb (round64 q) zero = false) /\
  (on_grid q -> sgn (round64 q) = (q ?= 0)%Q).
Proof.
  assert (forall p,
            let r := match (p ?= 0)%Q with
                     | Eq => zero
                     | Gt => round64_pos p
                     | Lt => num_neg (round64_pos (- p))
                     end in
            is_number r /\ canonical r /\ gridded r /\
            ((0 <= p)%Q -> num_ltb r zero = false) /\
            (on_grid p -> sgn r = (p ?= 0)%Q)) as Haux.
  { clear q. intros q r. unfold r. clear r. destruct (q ?= 0)%Q eqn:E.
    - split_and!; try done. exists 0. change (inject_Z 0) with 0%Q. ring.
    - rewrite <- Qlt_alt in E.
      assert (0 < - q)%Q as Hq by lra.
      destruct (round64_pos_spec (- q) Hq) as [-> | (r & -> & Hr0 & Hrg & Hrp)].
      + split_and!; try done. intros; lra.
      + cbn [num_neg]. split_and!.
        * done.
        * unfold canonical, norm. by rewrite Qred_Qred.
        * cbn. apply (on_grid_comp (- r)); [|by apply on_grid_opp].
          by rewrite !Qred_correct.
        * intros; lra.
        * intros Hq'. rewrite sgn_Fin. rewrite <- Qlt_alt, !Qred_correct.
          specialize (Hrp (on_grid_opp _ Hq')). lra.
    - rewrite <- Qgt_alt in E.
      destruct (round64_pos_spec q E) as [-> | (r & -> & Hr0 & Hrg & Hrp)].
      + split_and!; done.
      + split_and!.
        * done.
        * unfold canonical, norm. by rewrite Qred_Qred.
        * cbn. apply (on_grid_comp r); [|done]. by rewrite Qred_correct.
        * intros _. unfold num_ltb, zero, num_of_Z. change (inject_Z 0) with 0%Q.
          destruct (Qred r ?= 0)%Q eqn:E2; try done.
          rewrite <- Qlt_alt, Qred_correct in E2. lra.
        * intros Hq'. rewrite sgn_Fin. rewrite <- Qgt_alt, Qred_correct. by apply Hrp. }
  assert (Qred q == q)%Q as Eq by apply Qred_correct.
  destruct (Haux (Qred q)) as (H1 & H2 & H3 & H4 & H5).
  unfold round64. cbv zeta. split_and!; try done.
  - intros Hq. apply H4. by rewrite Eq.
  - intros Hq. rewrite H5; [by apply Qcompare_comp|].
    apply (on_grid_comp q); [by symmetry|done].
Qed.

Lemma gridded_neg (n : num) : gridded n -> gridded (num_neg n).
Proof.
  destruct n as [| |q|]; try done. cbn. intros H.
  apply (on_grid_comp (- q)); [by rewrite Qred_correct|by apply on_grid_opp].
Qed.

Lemma gridded_of_Z (z : Z) : gridded (num_of_Z z).
Proof. apply on_grid_Z. Qed.

Lemma gridded_add (a b : num) : gridded (num_add a b).
Proof.
  destruct a as [| |x|], b as [| |y|]; try done. apply round64_spec.
Qed.

Lemma sgn_sub (y x : num) :
  is_number x -> is_number y -> gridded x -> gridded y ->
  sgn (num_sub y x) = num_compare y x.
Proof.
  unfold is_number. intros Hx Hy Gx Gy.
  destruct x as [| |x|], y as [| |y|]; try done.
  unfold num_sub, num_neg, num_add. cbn [num_compare].
  destruct (round64_spec (y + Qred (- x))) as (_ & _ & _ & _ & Hs).
  rewrite Hs.
  - rewrite Qred_correct. destruct (y ?= x)%Q eqn:E.
    + rewrite <- Qeq_alt in *. lra.
    + rewrite <- Qlt_alt in *. lra.
    + rewrite <- Qgt_alt in *. lra.
  - apply on_grid_plus; [done|].
    apply (on_grid_comp (- x)); [by rewrite Qred_correct|by apply on_grid_opp].
Qed.

Lemma sgn_localeCompare (a b : string) : sgn (localeCompare a b) = str_compare a b.
Proof. unfold localeCompare. destruct (str_compare a b); reflexivity. Qed.

Lemma num_gtb_sgn (n : num) : num_gtb n zero = true <-> sgn n = Gt.
Proof.
  unfold sgn. destruct (num_gtb n zero); [done|].
  destruct (num_truthy n); split; discriminate.
Qed.

(** ** Comparisons that order *)

Section OrderCompare.
Context {A : Type} (c : A -> A -> comparison) (Hc : order_compare c).

Lemma oc_eq_r a b d : c b d = Eq -> c a b = c a d.
Proof.
  intros E. pose proof (oc_antisym c Hc b d) as H1. rewrite E in H1. simpl in H1.
  pose proof (oc_eq c Hc d b a H1) as H2.
  rewrite (oc_antisym c Hc a b), (oc_antisym c Hc a d) in H2.
  destruct (c a b), (c a d); simpl in H2; congruence.
Qed.

Lemma oc_not_lt_trans a b d : c a b <> Lt -> c b d <> Lt -> c a d <> Lt.
Proof.
  intros Hab Hbd Had.
  destruct (c a b) eqn:E; [| done |].
  - rewrite (oc_eq c Hc a b d E) in Had. done.
  - pose proof (oc_antisym c Hc a b) as H1. rewrite E in H1. simpl in H1.
    apply Hbd. eapply (oc_lt c Hc); eauto.
Qed.

Lemma order_compare_on {B} (f : B -> A) : order_compare (fun x y => c (f x) (f y)).
Proof.
  split; intros.
  - apply (oc_antisym c Hc).
  - by apply (oc_eq c Hc).
  - by eapply (oc_lt c Hc).
Qed.

Lemma order_compare_lex (c2 : A -> A -> comparison) :
  order_compare c2 -> order_compare (lex c c2).
Proof.
  intros H2. unfold lex. split.
  - intros a b. rewrite (oc_antisym c Hc a b).
    destruct (c a b); simpl; [apply (oc_antisym c2 H2) | done | done].
  - intros a b d E. destruct (c a b) eqn:E1; try done.
    rewrite (oc_eq c Hc a b d E1). destruct (c b d); [|done..].
    by apply (oc_eq c2 H2).
  - intros a b d E1 E2.
    destruct (c a b) eqn:Eab; try done.
    + rewrite (oc_eq c Hc a b d Eab).
      destruct (c b d); [|done..]. by eapply (oc_lt c2 H2).
    + destruct (c b d) eqn:Ebd; try done.
      * by rewrite <- (oc_eq_r a b d Ebd), Eab.
      * by rewrite (oc_lt c Hc a b d Eab Ebd).
Qed.
End OrderCompare.

Lemma order_compare_Z : order_compare Z.compare.
Proof.
  split.
  - intros a b. apply Z.compare_antisym.
  - intros a b d E. apply Z.compare_eq in E. by subst.
  - intros a b d. rewrite !Z.compare_lt_iff. lia.
Qed.

Lemma order_compare_chars : order_compare compare_chars.
Proof.
  pose proof order_compare_Z as HZ. split.
  - induction a as [|x a IH]; intros [|y b]; simpl; try done.
    rewrite (oc_antisym _ HZ (code x) (code y)).
    destruct (code x ?= code y); simpl; auto.
  - induction a as [|x a IH]; intros [|y b] [|z d]; simpl; try done.
    intros E. destruct (code x ?= code y) eqn:E1; try done.
    rewrite (oc_eq _ HZ _ _ (code z) E1).
    destruct (code y ?= code z); auto.
  - induction a as [|x a IH]; intros [|y b] [|z d]; simpl; try done.
    intros E1 E2.
    destruct (code x ?= code y) eqn:Exy; try done.
    + rewrite (oc_eq _ HZ _ _ (code z) Exy).
      destruct (code y ?= code z); try done. by eapply IH.
    + destruct (code y ?= code z) eqn:Eyz; try done.
      * by rewrite <- (oc_eq_r _ HZ (code x) (code y) (code z) Eyz), Exy.
      * by rewrite (oc_lt _ HZ _ _ _ Exy Eyz).
Qed.

Lemma order_compare_str : order_compare str_compare.
Proof. apply (order_compare_on _ order_compare_chars chars). Qed.

Lemma order_compare_Q : order_compare Qcompare.
Proof.
  split.
  - intros a b. symmetry. apply Qcompare_antisym.
  - intros a b d E. rewrite <- Qeq_alt in E. by rewrite E.
  - intros a b d. rewrite <- !Qlt_alt. apply Qlt_trans.
Qed.

Lemma order_compare_num : order_compare num_compare.
Proof.
  pose proof order_compare_Q as HQ. split.
  - intros [| |x|] [| |y|]; simpl; try done. apply (oc_antisym _ HQ).
  - intros [| |x|] [| |y|] [| |z|]; simpl; try done. apply (oc_eq _ HQ).
  - intros [| |x|] [| |y|] [| |z|]; simpl; try done. apply (oc_lt _ HQ).
Qed.

Lemma order_compare_recency : order_compare compare_recency.
Proof.
  unfold compare_recency.
  apply order_compare_lex; [apply (order_compare_on _ order_compare_str date)|].
  apply order_compare_lex; [apply (order_compare_on _ order_compare_num hour)|].
  apply order_compare_lex; [apply (order_compare_on _ order_compare_num minute)|].
  apply (order_compare_on _ order_compare_num ts).
Qed.

Lemma not_older_trans (a b d : expense) :
  not_older a b -> not_older b d -> not_older a d.
Proof. apply (oc_not_lt_trans _ order_compare_recency). Qed.

(** On the records that [addExpense] stores, the comparison function of
    the listing has the sign of the order, taken the other way round. *)
Lemma by_recency_sgn (a b : expense) :
  expense_ok a -> expense_ok b -> sgn (by_recency a b) = compare_recency b a.
Proof.
  intros [_ Hha Hma [za Hta] _ [Gha Gma]] [_ Hhb Hmb [zb Htb] _ [Ghb Gmb]].
  unfold by_recency, compare_recency, lex.
  rewrite !sgn_or, sgn_localeCompare, !sgn_sub;
    try done; try (rewrite ?Hta, ?Htb; done || apply gridded_of_Z).
  destruct (str_compare (date b) (date a)); try done.
  by destruct (num_compare (hour b) (hour a)).
Qed.

(** ** Sorting *)

Section SortFacts.
Context {A : Type} (cmp : A -> A -> num).

Lemma sort_insert_perm (x : A) (l : list A) : sort_insert cmp x l ≡ₚ x :: l.
Proof.
  induction l as [|y r IH]; cbn [sort_insert]; [reflexivity|].
  destruct (num_gtb (cmp x y) zero); [|reflexivity].
  rewrite IH. apply Permutation_swap.
Qed.

Lemma sort_perm (l : list A) : sort cmp l ≡ₚ l.
Proof.
  induction l as [|x l IH]; cbn [sort foldr]; [reflexivity|].
  unfold sort in IH. by rewrite sort_insert_perm, IH.
Qed.

Context (R : relation A) (P : A -> Prop).
Hypothesis R_trans : forall x y z, R x y -> R y z -> R x z.
Hypothesis cmp_pos :
  forall x y, P x -> P y -> num_gtb (cmp x y) zero = true -> R y x.
Hypothesis cmp_not_pos :
  forall x y, P x -> P y -> num_gtb (cmp x y) zero = false -> R x y.

Lemma sort_insert_sorted (x : A) (l : list A) :
  P x -> Forall P l -> StronglySorted R l -> StronglySorted R (sort_insert cmp x l).
Proof.
  intros Px. induction l as [|y r IH]; intros HP Hs; cbn [sort_insert].
  - repeat constructor.
  - apply Forall_cons in HP as [Py HP].
    apply StronglySorted_inv in Hs as [Hs Hy].
    destruct (num_gtb (cmp x y) zero) eqn:E.
    + constructor; [by apply IH|].
      rewrite sort_insert_perm. constructor; [by apply cmp_pos | done].
    + pose proof (cmp_not_pos x y Px Py E) as Hxy.
      constructor; [by constructor|].
      constructor; [done|].
      eapply Forall_impl; [exact Hy|]. intros z Hz. by eapply R_trans.
Qed.

Lemma sort_sorted (l : list A) : Forall P l -> StronglySorted R (sort cmp l).
Proof.
  induction l as [|x l IH]; intros HP; cbn [sort foldr]; [constructor|].
  apply Forall_cons in HP as [Px HP].
  apply sort_insert_sorted; [done| |by apply IH].
  fold (sort cmp l). by rewrite sort_perm.
Qed.
End SortFacts.

(** A listing of stored records descends by date, hour, minute and time
    stamp. *)
Lemma sort_by_recency_sorted (l : list expense) :
  Forall expense_ok l -> StronglySorted not_older (sort by_recency l).
Proof.
  apply sort_sorted.
  - apply not_older_trans.
  - intros x y Hx Hy E. apply num_gtb_sgn in E.
    rewrite by_recency_sgn in E by done. unfold not_older. by rewrite E.
  - intros x y Hx Hy E. unfold not_older.
    rewrite (oc_antisym _ order_compare_recency y x).
    rewrite <- by_recency_sgn by done.
    destruct (sgn (by_recency x y)) eqn:E2; try done.
    apply num_gtb_sgn in E2. congruence.
Qed.

(** ** The object stores *)

Lemma existsb_false {A} (l : list A) : existsb (fun _ => false) l = false.
Proof. by induction l. Qed.

Lemma sorted_keys_filter {A} (key : A -> Z) (P : A -> Prop) `{!forall x, Decision (P x)}
    (l : list A) :
  StronglySorted Z.lt (map key l) -> StronglySorted Z.lt (map key (filter P l)).
Proof.
  induction l as [|x l IH]; [done|]. cbn [map]. rewrite StronglySorted_cons.
  intros [Hx Hl]. rewrite filter_cons. destruct (decide (P x)); [|by apply IH].
  cbn [map]. apply StronglySorted_cons. split; [|by apply IH].
  rewrite Forall_forall in Hx. apply Forall_forall. intros k Hk.
  apply Hx. apply list_elem_of_fmap in Hk as (y & -> & Hy).
  apply list_elem_of_fmap. exists y. split; [done|].
  by apply list_elem_of_filter in Hy as [_ Hy].
Qed.

Lemma find_by_key {A} (key : A -> Z) (l : list A) (e : A) :
  StronglySorted Z.lt (map key l) -> e ∈ l ->
  find (fun r => key r =? key e) l = Some e.
Proof.
  induction l as [|x l IH]; intros Hs He; [by apply elem_of_nil in He|].
  cbn [map] in Hs. apply StronglySorted_cons in Hs as [Hx Hl]. cbn [find].
  apply elem_of_cons in He as [->|He]; [by rewrite Z.eqb_refl|].
  destruct (key x =? key e) eqn:E; [|by apply IH].
  apply Z.eqb_eq in E. rewrite Forall_forall in Hx.
  assert (key x < key e); [|lia].
  apply Hx. apply list_elem_of_fmap. by exists e.
Qed.

Lemma find_no_key {A} (key : A -> Z) (l : list A) (k : Z) :
  (forall e, e ∈ l -> key e <> k) -> find (fun r => key r =? k) l = None.
Proof.
  induction l as [|x l IH]; intros H; [done|]. cbn [find].
  destruct (key x =? k) eqn:E.
  - apply Z.eqb_eq in E. exfalso. apply (H x); [left|done].
  - apply IH. intros e He. apply H. by right.
Qed.

Section KeysOk.
Context {A : Type} `{Stored A}.
Hypothesis key_of_with_key : forall k r, key_of (with_key k r) = k.

Lemma keys_ok_empty : keys_ok (@empty_store A).
Proof. repeat split; simpl; try constructor; lia. Qed.

Lemma keys_ok_add (s : objectStore A) (r : A) :
  keys_ok s ->
  keys_ok (mkStore (records s ++ [with_key (keygen s) r]) (keygen s + 1)).
Proof.
  intros (Hs & Hb & Hg). repeat split; cbn [records keygen]; [| |lia].
  - rewrite map_app. apply StronglySorted_app_2; [|done|repeat constructor].
    intros k1 k2 Hk1 Hk2. apply list_elem_of_fmap in Hk1 as (y & -> & Hy).
    cbn [map] in Hk2. apply list_elem_of_singleton in Hk2 as ->.
    rewrite key_of_with_key. rewrite Forall_forall in Hb. specialize (Hb y Hy). lia.
  - apply Forall_app. split.
    + eapply Forall_impl; [exact Hb|]. intros x ?; simpl in *. lia.
    + constructor; [|constructor]. rewrite key_of_with_key. lia.
Qed.

Lemma keys_ok_filter (P : A -> Prop) `{!forall x, Decision (P x)} (s : objectStore A) :
  keys_ok s -> keys_ok (mkStore (filter P (records s)) (keygen s)).
Proof.
  intros (Hs & Hb & Hg). repeat split; cbn [records keygen]; [| |lia].
  - by apply sorted_keys_filter.
  - apply Forall_forall. intros x Hx. apply list_elem_of_filter in Hx as [_ Hx].
    rewrite Forall_forall in Hb. by apply Hb.
Qed.
End KeysOk.

(** ** The operations that write *)

Lemma _add_Expenses (record : expense) (db : database) :
  _add Expenses record db = (Resolved (keygen (expenses db)), with_expense db record).
Proof.
  unfold _add. cbn [objectStore_of stored_of clash expense_stored].
  by rewrite existsb_false.
Qed.

Lemma addExpense_valid now userId f db :
  valid_fields f -> keygen (expenses db) <> 0 ->
  addExpense now userId f db =
    (Resolved (keygen (expenses db)), with_expense db (expense_record now userId f)).
Proof.
  intros (Hn & Ha & Hd) Hk. unfold addExpense. rewrite Hn, Ha, Hd. cbn [negb].
  unfold await. rewrite _add_Expenses.
  destruct (keygen (expenses db) =? 0) eqn:E; [|done].
  apply Z.eqb_eq in E. done.
Qed.

Lemma addExpense_invalid now userId f db :
  ~ valid_fields f ->
  exists e, addExpense now userId f db = (Rejected e, db) /\ is_validation_error e = true.
Proof.
  intros Hv. unfold addExpense.
  destruct (name_missing (in_name f)) eqn:Hn; [by exists NomRequis|].
  destruct (num_gtb (ToNumber (in_amount f)) zero) eqn:Ha; [|by exists MontantInvalide].
  destruct (str_truthy (default EmptyString (in_date f))) eqn:Hd; [|by exists DateRequise].
  exfalso. by apply Hv.
Qed.

Lemma addExpense_state now userId f db :
  (addExpense now userId f db).2 = db \/
  valid_fields f /\
  (addExpense now userId f db).2 = with_expense db (expense_record now userId f).
Proof.
  unfold addExpense.
  destruct (name_missing (in_name f)) eqn:Hn; [by left|].
  destruct (num_gtb (ToNumber (in_amount f)) zero) eqn:Ha; [|by left].
  destruct (str_truthy (default EmptyString (in_date f))) eqn:Hd; [|by left].
  right. split; [done|]. cbn [negb]. unfold await. rewrite _add_Expenses.
  by destruct (keygen (expenses db) =? 0).
Qed.

Lemma num_or_is_number (a : num) : is_number (num_or a zero).
Proof. unfold num_or. destruct (num_truthy a) eqn:E; [by destruct a | done]. Qed.

Lemma round_half_up_nonneg (q : Q) : (0 <= q)%Q -> 0 <= round_half_up q.
Proof.
  intros Hq. unfold round_half_up.
  change 0 with (Qfloor 0). apply Qfloor_resp_le. lra.
Qed.

Lemma amount_not_negative (x : num) :
  num_gtb x zero = true ->
  is_number (parseFloat_toFixed2 x) /\ num_ltb (parseFloat_toFixed2 x) zero = false.
Proof.
  destruct x as [| |q|]; try done. intros Hq.
  unfold num_gtb, num_ltb, zero, num_of_Z in Hq. change (inject_Z 0) with 0%Q in Hq.
  destruct (0 ?= q)%Q eqn:E; try done. rewrite <- Qlt_alt in E.
  unfold parseFloat_toFixed2.
  destruct (Qle_bool _ _).
  { split; [done|]. unfold num_ltb, zero, num_of_Z. change (inject_Z 0) with 0%Q.
    destruct (Qred q ?= 0)%Q eqn:E2; try done.
    rewrite <- Qlt_alt, Qred_correct in E2. lra. }
  assert (0 <= round_half_up q # 100)%Q as Hn.
  { assert (0 <= round_half_up q) by (apply round_half_up_nonneg; lra).
    unfold Qle. cbn [Qnum Qden]. lia. }
  destruct (round64_spec (round_half_up q # 100)) as (H1 & _ & _ & H2 & _).
  destruct (q ?= 0)%Q eqn:E3; [by split; [|apply H2]| |by split; [|apply H2]].
  rewrite <- Qlt_alt in E3. lra.
Qed.

Lemma parse_unsigned_decimal_gridded (l : list ascii) (n : num) :
  parse_unsigned_decimal l = Some n -> gridded n.
Proof.
  unfold parse_unsigned_decimal. destruct (decide _); [by intros [= <-]|].
  destruct (span_digits l) as [ip r1].
  destruct (match r1 with "."%char :: r => span_digits r | _ => ([], r1) end) as [fp r2].
  destruct (_ && _); [done|]. destruct r2 as [|e r3].
  - intros [= <-]. apply round64_spec.
  - destruct (decide _); [|done]. destruct (split_sign r3) as [neg r4].
    destruct (span_digits r4) as [ed r5]. destruct (_ || _); [done|].
    intros [= <-]. apply round64_spec.
Qed.

Lemma parse_radix_literal_gridded (l : list ascii) (n : num) :
  parse_radix_literal l = Some n -> gridded n.
Proof.
  unfold parse_radix_literal.
  destruct l as [|c l]; [done|]. destruct c as [[] [] [] [] [] [] [] []]; try done.
  destruct l as [|p [|d ds]]; try done. intros H.
  repeat (destruct (decide _) in H); cbn in H; try done;
    apply bind_Some in H as (v & _ & H); injection H as <-; apply round64_spec.
Qed.

Lemma StringToNumber_gridded (s : string) : gridded (StringToNumber s).
Proof.
  unfold StringToNumber. cbv zeta. destruct (is_nil _); [apply gridded_of_Z|].
  destruct (parse_radix_literal _) as [n|] eqn:E;
    [by apply parse_radix_literal_gridded in E|].
  destruct (split_sign _) as [neg r].
  destruct (parse_unsigned_decimal r) as [n|] eqn:E2; [|done].
  apply parse_unsigned_decimal_gridded in E2. destruct neg; [by apply gridded_neg|done].
Qed.

Lemma ToNumber_gridded (v : jsval) : gridded (ToNumber v).
Proof.
  destruct v as [| |[]|n|s]; try done; try apply gridded_of_Z.
  - destruct n; try done. apply round64_spec.
  - apply StringToNumber_gridded.
Qed.

Lemma num_or_gridded (a : num) : gridded a -> gridded (num_or a zero).
Proof. intros H. unfold num_or. destruct (num_truthy a); [done|apply gridded_of_Z]. Qed.

Lemma expense_record_ok now userId f k :
  valid_fields f -> expense_ok (with_key k (expense_record now userId f)).
Proof.
  intros (_ & Ha & _). split; cbn.
  - by exists userId.
  - apply num_or_is_number.
  - apply num_or_is_number.
  - by exists now.
  - by apply amount_not_negative.
  - split; apply num_or_gridded, ToNumber_gridded.
Qed.

Lemma createUser_state now username_ pin db :
  (createUser now username_ pin db).2 = db \/
  exists u, (createUser now username_ pin db).2 =
    mkDB (mkStore (records (users db) ++ [with_key (keygen (users db)) u])
                  (keygen (users db) + 1))
         (expenses db).
Proof.
  unfold createUser.
  destruct (slength _ <? 2); [by left|].
  unfold await, _findOne.
  destruct (bool_decide _); [by left|].
  unfold _add. destruct (existsb _ _); [by left|].
  right. eexists. reflexivity.
Qed.

Lemma deleteExpense_state userId id db :
  (deleteExpense userId id db).2 = db \/
  (deleteExpense userId id db).2 =
    mkDB (users db)
         (mkStore (filter (fun r => expense_key r <> id) (records (expenses db)))
                  (keygen (expenses db))).
Proof.
  unfold deleteExpense, await, _get.
  destruct (find _ _) as [e|]; [|by left].
  destruct (negb _); [by left|]. by right.
Qed.

Lemma db_ok_empty : db_ok empty_db.
Proof.
  repeat split; simpl; try constructor; lia.
Qed.

Lemma step_ok (db db' : database) : db_ok db -> step db db' -> db_ok db'.
Proof.
  intros (Hu & He & Hok) Hstep. destruct Hstep as [t un pin db | t uid f db | uid k db].
  - destruct (createUser_state t un pin db) as [-> | [u ->]]; [done|].
    split; [|done]. by apply (keys_ok_add (A := user)).
  - destruct (addExpense_state t uid f db) as [-> | [Hv ->]]; [done|].
    split; [done|]. split; [by apply (keys_ok_add (A := expense))|].
    cbn [expenses with_expense records]. apply Forall_app. split; [done|].
    constructor; [|constructor]. by apply expense_record_ok.
  - destruct (deleteExpense_state uid k db) as [-> | ->]; [done|].
    split; [done|]. split; [by apply (keys_ok_filter (A := expense))|].
    cbn [expenses records]. apply Forall_forall. intros x Hx.
    apply list_elem_of_filter in Hx as [_ Hx]. rewrite Forall_forall in Hok. by apply Hok.
Qed.

Lemma reachable_ok (db : database) : reachable db -> db_ok db.
Proof.
  unfold reachable. revert db. apply rtc_ind_r; [apply db_ok_empty|].
  intros db db' _ Hs IH. by eapply step_ok.
Qed.

(** ** Listings *)

Lemma filter_ext_in {A} (P Q : A -> Prop)
    `{!forall x, Decision (P x)} `{!forall x, Decision (Q x)} (l : list A) :
  (forall x, x ∈ l -> P x <-> Q x) -> filter P l = filter Q l.
Proof.
  induction l as [|x l IH]; intros Hext; [done|].
  rewrite !filter_cons.
  assert (P x <-> Q x) as Hx by (apply Hext; left).
  rewrite IH by (intros y Hy; apply Hext; by right).
  destruct (decide (P x)), (decide (Q x)); tauto.
Qed.

Lemma filter_all {A} (P : A -> Prop) `{!forall x, Decision (P x)} (l : list A) :
  (forall x, P x) -> filter P l = l.
Proof.
  intros Hall. induction l as [|x l IH]; [done|].
  rewrite filter_cons, IH. destruct (decide (P x)) as [|n]; [done|]. destruct n. apply Hall.
Qed.

Lemma filter_none {A} (P : A -> Prop) `{!forall x, Decision (P x)} (l : list A) :
  (forall x, x ∈ l -> ~ P x) -> filter P l = [].
Proof.
  induction l as [|x l IH]; intros Hno; [done|].
  rewrite filter_cons, decide_False by (apply Hno; left).
  apply IH. intros y Hy. apply Hno. by right.
Qed.

Lemma category_filter (cat : string) (l : list expense) :
  (if str_truthy cat && bool_decide (cat <> "Toutes"%string)
   then filter (fun e => category e = cat) l else l) =
  filter (fun e => cat = EmptyString \/ cat = "Toutes"%string \/ category e = cat) l.
Proof.
  destruct cat as [|c s]; cbn [str_truthy andb].
  - symmetry. apply filter_all. by left.
  - case_bool_decide as Hc.
    + apply filter_ext_in. intros x _.
      split; [auto | by intros [?|[?|?]]].
    + symmetry. apply filter_all. intros x. right. left.
      destruct (decide (String c s = "Toutes"%string)); [done|]. by destruct Hc.
Qed.

Lemma getExpenses_eval now userId period category_ db :
  getExpenses now userId period category_ db =
    (Resolved
       (sort by_recency
          (filter (category_matches category_)
             (filter (fun e => in_period now (default "all"%string period) (date e) = true)
                (filter (owned_by userId) (records (expenses db)))))),
     db).
Proof.
  unfold getExpenses, await, _getAllFromStore, resolve. cbn [objectStore_of].
  do 3 f_equal. apply category_filter.
Qed.

Lemma in_period_today now d : in_period now "today" d = true <-> d = _ds now.
Proof.
  unfold in_period. rewrite bool_decide_eq_true_2 by done. apply bool_decide_eq_true.
Qed.

Lemma in_period_other now period d :
  period ∉ dated_periods -> in_period now period d = true.
Proof.
  intros H. unfold in_period.
  assert (forall p, p ∈ dated_periods -> bool_decide (period = p) = false) as Hp.
  { intros p Hin. apply bool_decide_eq_false_2. by intros ->. }
  rewrite !Hp by (apply (bool_decide_unpack _); by vm_compute). done.
Qed.

Lemma owned_by_ok userId e :
  expense_ok e -> owned_by userId e <-> user_id e = num_of_Z userId.
Proof.
  intros [[z Hz] _ _ _ _]. unfold owned_by. rewrite Hz, num_eqb_of_Z.
  split; [by intros -> |]. unfold num_of_Z. intros [= Hq]. done.
Qed.


(** ** Adding and deleting expenses *)

Lemma key_unique {A} (key : A -> Z) (l : list A) (x y : A) :
  StronglySorted Z.lt (map key l) -> x ∈ l -> y ∈ l -> key x = key y -> x = y.
Proof.
  intros Hs Hx Hy E.
  pose proof (find_by_key key l x Hs Hx) as Fx.
  pose proof (find_by_key key l y Hs Hy) as Fy.
  rewrite E, Fy in Fx. congruence.
Qed.

Lemma addExpense_Resolved now userId f db k db' :
  addExpense now userId f db = (Resolved k, db') ->
  valid_fields f /\ k = keygen (expenses db) /\
  db' = with_expense db (expense_record now userId f).
Proof.
  intros H. destruct (addExpense_state now userId f db) as [E|[Hv E]].
  - exfalso. rewrite H in E. cbn in E. subst db'. revert H. unfold addExpense.
    destruct (name_missing _); [done|]. destruct (negb (num_gtb _ _)); [done|].
    destruct (negb (str_truthy _)); [done|].
    unfold await. rewrite _add_Expenses.
    destruct (_ =? 0); [done|]. unfold resolve. intros [= _ Hdb].
    apply (f_equal (fun d => length (records (expenses d)))) in Hdb.
    cbn in Hdb. rewrite length_app in Hdb. cbn in Hdb. lia.
  - split; [done|]. rewrite H in E. cbn in E. split; [|done].
    revert H. unfold addExpense. destruct Hv as (-> & -> & ->). cbn [negb].
    unfold await. rewrite _add_Expenses.
    destruct (_ =? 0); [done|]. unfold resolve. by intros [= <- _].
Qed.

Lemma Qeq_bool_compare (x y : Q) :
  Qeq_bool x y = match (x ?= y)%Q with Eq => true | _ => false end.
Proof.
  destruct (x ?= y)%Q eqn:E.
  - apply Qeq_bool_iff. by apply Qeq_alt.
  - destruct (Qeq_bool x y) eqn:E2; [|done].
    apply Qeq_bool_iff, Qeq_alt in E2. congruence.
  - destruct (Qeq_bool x y) eqn:E2; [|done].
    apply Qeq_bool_iff, Qeq_alt in E2. congruence.
Qed.

Lemma not_positive_gtb (x : num) : not_positive x <-> num_gtb x zero = false.
Proof.
  unfold not_positive, num_gtb, num_ltb, num_eqb, zero, num_of_Z.
  change (inject_Z 0) with 0%Q.
  destruct x as [| |q|].
  - split; [done | intros _; by left].
  - split; [done | intros _; right; by left].
  - rewrite Qeq_bool_compare, <- (Qcompare_antisym q 0).
    destruct (q ?= 0)%Q; cbn; split; try done; intros Hx; auto.
    by destruct Hx as [?|[?|?]].
  - split; [|done]. by intros [?|[?|?]].
Qed.

Lemma num_or_of_Z (z : Z) : num_or (num_of_Z z) zero = num_of_Z z.
Proof.
  unfold num_or, num_truthy, num_of_Z, zero.
  destruct (Qeq_bool (inject_Z z) 0) eqn:E; [|done].
  apply Qeq_bool_iff in E. unfold Qeq in E. cbn in E.
  assert (z = 0) as -> by lia. done.
Qed.

(** C2, as the code has it.  For every valid input (a name that is not
    blank, a positive amount, a date), [addExpense] on a database that the
    application reaches resolves to a new key, and [getExpenses] of the
    same user for the period ['all'] then lists one record of that key:
    its [name] is the name of the input without its outer white space, its
    [date] is that of the input, its [user_id] is [userId], its [amount] is
    the double that is read back from the amount of the input written with
    two decimals, its [category] is that of the input, or ['Alimentation']
    when the input has none, its [hour] and [minute] are those of the input
    as numbers, or 0 when they are absent, zero or not numbers, and its
    [ts] is the time of the call. *)
Theorem addExpense_then_getExpenses (now now' userId : Z) (f : expenseFields)
    (db : database) (n d : string) :
  reachable db ->
  in_name f = Some n -> trim n <> EmptyString ->
  num_gtb (ToNumber (in_amount f)) zero = true ->
  in_date f = Some d -> d <> EmptyString ->
  exists k db' l e,
    addExpense now userId f db = (Resolved k, db') /\
    getExpenses now' userId (Some "all"%string) None db' = (Resolved l, db') /\
    e ∈ l /\
    (forall e', e' ∈ l -> expense_key e' = k -> e' = e) /\
    e = {| expense_key := k;
           user_id := num_of_Z userId;
           name := trim n;
           amount := parseFloat_toFixed2 (ToNumber (in_amount f));
           category := str_or (in_category f) "Alimentation";
           date := d;
           hour := num_or (ToNumber (in_hour f)) zero;
           minute := num_or (ToNumber (in_minute f)) zero;
           ts := num_of_Z now |}.
Proof.
  intros Hr Hn Hne Ha Hd Hde.
  assert (valid_fields f) as Hv.
  { unfold valid_fields. rewrite Hn, Hd. cbn.
    split; [by destruct (trim n)|]. split; [done|]. by destruct d. }
  pose proof (reachable_ok db Hr) as (_ & (_ & _ & Hg) & _).
  assert (reachable (with_expense db (expense_record now userId f))) as Hr'.
  { eapply rtc_r; [exact Hr|].
    pose proof (step_addExpense now userId f db) as Hs.
    rewrite addExpense_valid in Hs by (done || lia). exact Hs. }
  pose proof (reachable_ok _ Hr') as (_ & (Hs' & _ & _) & _).
  eexists _, _, _, _. split; [apply addExpense_valid; [done|lia]|].
  split; [apply getExpenses_eval|].
  set (e := mkExpense _ _ _ _ _ _ _ _ _).
  assert (with_key (keygen (expenses db)) (expense_record now userId f) = e) as He.
  { unfold e, expense_record. rewrite Hn, Hd.
    by cbn [from_option id with_key expense_stored expense_key user_id name amount
            category date hour minute ts]. }
  split; [|split; [|done]].
  - rewrite sort_perm. apply list_elem_of_filter. split; [right; by left|].
    apply list_elem_of_filter. split; [apply in_period_other; apply (bool_decide_unpack _); by vm_compute|].
    apply list_elem_of_filter. split; [apply num_eqb_of_Z; done|].
    cbn [with_expense expenses records]. rewrite He. apply elem_of_app. right. by left.
  - intros e' He' Hk. rewrite sort_perm in He'.
    apply list_elem_of_filter in He' as [_ He'].
    apply list_elem_of_filter in He' as [_ He'].
    apply list_elem_of_filter in He' as [_ He'].
    eapply (key_unique expense_key); [exact Hs'|exact He'| |exact Hk].
    cbn [with_expense expenses records]. rewrite He. apply elem_of_app. right. by left.
Qed.

(** C3.  In a database that the application reaches, [deleteExpense] with
    the id of a user who does not own the expense is rejected with
    'Dépense introuvable.' and leaves the database as it was, the expense
    in it; so is [deleteExpense] with an id that no expense has. *)
Theorem deleteExpense_not_found (db : database) :
  reachable db ->
  (forall (e : expense) (A B : Z),
     e ∈ records (expenses db) -> user_id e = num_of_Z A -> B <> A ->
     deleteExpense B (expense_key e) db = (Rejected DepenseIntrouvable, db)) /\
  (forall (B id : Z),
     (forall e, e ∈ records (expenses db) -> expense_key e <> id) ->
     deleteExpense B id db = (Rejected DepenseIntrouvable, db)) /\
  is_not_found_error DepenseIntrouvable = true.
Proof.
  intros Hr. pose proof (reachable_ok db Hr) as (_ & (Hs & _ & _) & _).
  split; [|split; [|done]].
  - intros e A B He Hu Hne. unfold deleteExpense, await, _get.
    cbn [objectStore_of stored_of key_of expense_stored].
    rewrite (find_by_key expense_key _ e Hs He), Hu.
    by rewrite num_eqb_of_Z_neq.
  - intros B id Hno. unfold deleteExpense, await, _get.
    cbn [objectStore_of stored_of key_of expense_stored].
    by rewrite (find_no_key expense_key _ id Hno).
Qed.

(** C4.  For every input whose amount is zero, negative or not a number,
    [addExpense] is rejected with a validation error ('Montant invalide'
    when the name is there) and the database is as before: no record is
    written, and the count of the expenses is the same. *)
Theorem addExpense_amount_rejected (now userId : Z) (f : expenseFields) (db : database) :
  not_positive (ToNumber (in_amount f)) ->
  exists e,
    addExpense now userId f db = (Rejected e, db) /\
    is_validation_error e = true /\
    (name_missing (in_name f) = false -> e = MontantInvalide) /\
    _count Expenses (addExpense now userId f db).2 = _count Expenses db.
Proof.
  intros Ha. apply not_positive_gtb in Ha. unfold addExpense. rewrite Ha. cbn [negb].
  destruct (name_missing (in_name f)); [by exists NomRequis | by exists MontantInvalide].
Qed.

(** C9, as the code has it.  The record that [addExpense] writes has for
    [hour] and [minute] the numbers that the values of the input convert
    to, and 0 where they are absent or convert to no number: they are
    never [NaN], and they are integers from 0 to 23 and from 0 to 59
    whenever the values of the input are. *)
Theorem addExpense_hour_minute (now userId : Z) (f : expenseFields)
    (db db' : database) (k : Z) :
  addExpense now userId f db = (Resolved k, db') ->
  exists e,
    records (expenses db') = records (expenses db) ++ [e] /\
    expense_key e = k /\
    hour e = num_or (ToNumber (in_hour f)) zero /\
    minute e = num_or (ToNumber (in_minute f)) zero /\
    is_number (hour e) /\ is_number (minute e) /\
    (ToNumber (in_hour f) = NaN -> hour e = zero) /\
    (ToNumber (in_minute f) = NaN -> minute e = zero) /\
    (in_range 0 23 (ToNumber (in_hour f)) -> in_range 0 23 (hour e)) /\
    (in_range 0 59 (ToNumber (in_minute f)) -> in_range 0 59 (minute e)).
Proof.
  intros H. apply addExpense_Resolved in H as (_ & -> & ->).
  eexists. split; [reflexivity|]. cbn.
  repeat split; try apply num_or_is_number.
  - by intros ->.
  - by intros ->.
  - intros (z & -> & Hz). exists z. by rewrite num_or_of_Z.
  - intros (z & -> & Hz). exists z. by rewrite num_or_of_Z.
Qed.

(** ** Users *)

Lemma find_snoc {A} (P : A -> bool) (l : list A) (x : A) :
  find P (l ++ [x]) =
    match find P l with
    | Some y => Some y
    | None => if P x then Some x else None
    end.
Proof.
  induction l as [|y l IH]; [done|]. cbn [app find].
  by destruct (P y).
Qed.

Lemma createUser_Resolved now username_ pin db s db' :
  createUser now username_ pin db = (Resolved s, db') ->
  let u := toLowerCase (trim username_) in
  s = mkSession (keygen (users db)) u /\
  find (fun r => bool_decide (username r = u)) (records (users db')) =
    Some (mkUser (keygen (users db)) u (_hash pin) (num_of_Z now)).
Proof.
  unfold createUser. cbv zeta.
  destruct (slength _ <? 2); [done|].
  unfold await, _findOne.
  destruct (find _ (records (users db))) as [x|] eqn:F; [done|].
  cbn [bool_decide]. rewrite bool_decide_eq_false_2 by (by intros [? ?]).
  unfold _add. cbn [objectStore_of stored_of clash user_stored username].
  destruct (existsb _ _); [done|].
  unfold resolve. intros [= <- <-]. split; [done|].
  cbn [set_objectStore users records with_key stored_of user_stored username pinHash createdAt].
  rewrite find_snoc, F. cbn [username]. by rewrite bool_decide_eq_true_2.
Qed.

Lemma step_users_find (P : user -> bool) (x : user) (db db' : database) :
  step db db' ->
  find P (records (users db)) = Some x -> find P (records (users db')) = Some x.
Proof.
  intros Hs F. destruct Hs as [t un pin db | t uid f db | uid k db].
  - destruct (createUser_state t un pin db) as [-> | [u ->]]; [done|].
    cbn [users records]. by rewrite find_snoc, F.
  - destruct (addExpense_state t uid f db) as [-> | [_ ->]]; done.
  - destruct (deleteExpense_state uid k db) as [-> | ->]; done.
Qed.

Lemma steps_users_find (P : user -> bool) (x : user) (db db' : database) :
  rtc step db db' ->
  find P (records (users db)) = Some x -> find P (records (users db')) = Some x.
Proof.
  induction 1 as [|db1 db2 db3 Hs _ IH]; [done|].
  intros F. apply IH. by eapply step_users_find.
Qed.

(** C5.  When [createUser(username, pin)] resolves to an id and a name,
    [verifyUser(username, pin)] resolves to the same id and the same name,
    right away and after any further operations: the hash of a PIN is a
    function of the PIN. *)
Theorem createUser_then_verifyUser (now : Z) (username_ pin : string)
    (db db' db'' : database) (s : session) :
  createUser now username_ pin db = (Resolved s, db') ->
  rtc step db' db'' ->
  verifyUser username_ pin db'' = (Resolved s, db'').
Proof.
  intros Hc Hs. apply createUser_Resolved in Hc as [-> F]. cbv zeta in F.
  apply (steps_users_find _ _ _ _ Hs) in F.
  unfold verifyUser, await, _findOne. rewrite F. cbn [pinHash user_key username].
  rewrite bool_decide_eq_false_2 by (by intros ?). done.
Qed.

(** C6.  When [createUser] has resolved for a name, [createUser] with any
    input of the same trimmed, lower-case name is rejected with 'Ce nom est
    déjà utilisé.', right away and after any further operations, and the
    database is as before: no second user is written. *)
Theorem createUser_again_rejected (now now' : Z) (username_ pin username' pin' : string)
    (db db' db'' : database) (s : session) :
  createUser now username_ pin db = (Resolved s, db') ->
  rtc step db' db'' ->
  toLowerCase (trim username') = toLowerCase (trim username_) ->
  createUser now' username' pin' db'' = (Rejected NomDejaUtilise, db'') /\
  is_duplicate_user_error NomDejaUtilise = true.
Proof.
  intros Hc Hs Hu. split; [|done].
  assert ((slength (toLowerCase (trim username_)) <? 2) = false) as Hlen.
  { revert Hc. unfold createUser. by destruct (slength _ <? 2). }
  apply createUser_Resolved in Hc as [-> F]. cbv zeta in F.
  apply (steps_users_find _ _ _ _ Hs) in F.
  unfold createUser. rewrite Hu, Hlen.
  unfold await, _findOne. rewrite F.
  rewrite bool_decide_eq_true_2 by (by eexists). done.
Qed.

(** ** Dates *)

Lemma all_from_spec (P : Z -> bool) (lo : Z) (n : positive) :
  (all_from P lo n).2 = lo + Z.pos n /\
  ((all_from P lo n).1 = true -> forall z, lo <= z < lo + Z.pos n -> P z = true).
Proof.
  unfold all_from. induction n as [|n IH] using Pos.peano_ind.
  - cbn. split; [done|]. intros Hp z Hz. assert (z = lo) as -> by lia. done.
  - rewrite Pos.iter_succ. destruct (Pos.iter _ _ n) as [ok i]. cbn in *.
    destruct IH as [-> IH]. split; [lia|].
    intros Hp z Hz. apply andb_true_iff in Hp as [Hok Hi].
    destruct (decide (z = lo + Z.pos n)) as [->|]; [done|]. apply IH; [done|lia].
Qed.

Lemma check_day_all (doe : Z) : 0 <= doe < 146097 -> check_day doe = true.
Proof.
  apply (all_from_spec check_day 0 146097). vm_compute. reflexivity.
Qed.

Lemma check_month_all (yoe m : Z) :
  0 <= yoe < 400 -> 1 <= m <= 12 -> check_month yoe m = true.
Proof.
  intros Hy Hm.
  assert ((all_from (check_month yoe) 1 12).1 = true) as H.
  { revert yoe Hy.
    apply (all_from_spec (fun y => (all_from (check_month y) 1 12).1) 0 400).
    vm_compute. reflexivity. }
  apply (all_from_spec (check_month yoe) 1 12); [done|lia].
Qed.

Lemma civil_from_days_era (days : Z) :
  civil_from_days days =
    civil_of_doe ((days + 719468) / 146097) ((days + 719468) mod 146097).
Proof. reflexivity. Qed.

Lemma civil_of_doe_era (era doe : Z) :
  civil_of_doe era doe =
    let '(y, m, d) := civil_of_doe 0 doe in (y + era * 400, m, d).
Proof.
  unfold civil_of_doe. cbv zeta.
  destruct (_ <=? 2); f_equal; f_equal; lia.
Qed.

Lemma civil_range (days : Z) :
  let '(y, m, d) := civil_from_days days in 1 <= m <= 12 /\ 1 <= d <= 31.
Proof.
  rewrite civil_from_days_era, civil_of_doe_era.
  pose proof (Z.mod_pos_bound (days + 719468) 146097 ltac:(lia)) as Hb.
  pose proof (check_day_all _ Hb) as Hall.
  unfold check_day in Hall.
  destruct (civil_of_doe 0 _) as [[y m] d].
  rewrite !andb_true_iff, !Z.leb_le in Hall. lia.
Qed.

Lemma civil_days_first (y m : Z) :
  1 <= m <= 12 -> civil_from_days (days_from_civil y m 1) = (y, m, 1).
Proof.
  intros Hm. rewrite civil_from_days_era. unfold days_from_civil. cbv zeta.
  set (y' := if m <=? 2 then y - 1 else y).
  fold (doe_of_month (y' mod 400) m).
  pose proof (Z.mod_pos_bound y' 400 ltac:(lia)) as Hb.
  pose proof (check_month_all _ m Hb Hm) as Hall. unfold check_month in Hall.
  rewrite !andb_true_iff, Z.leb_le, Z.ltb_lt, bool_decide_eq_true in Hall.
  destruct Hall as [[H0 H1] Hc].
  replace (y' / 400 * 146097 + doe_of_month (y' mod 400) m - 719468 + 719468)
    with (doe_of_month (y' mod 400) m + y' / 400 * 146097) by lia.
  rewrite Z.div_add, Z.mod_add by lia.
  rewrite Z.div_small, Z.mod_small by lia.
  rewrite civil_of_doe_era, Hc. cbn [Z.add].
  pose proof (Z.div_mod y' 400 ltac:(lia)) as Hdm.
  unfold y' in *. destruct (m <=? 2); f_equal; f_equal; lia.
Qed.

Lemma Day_days (x : Z) : Day (x * msPerDay) = x.
Proof. unfold Day, msPerDay. apply Z.div_mul. lia. Qed.

Lemma Date_ym1_fields (year month : Z) :
  ~ (0 <= year <= 99) ->
  getFullYear (Date_ym1 year month) = year + month / 12 /\
  getMonth (Date_ym1 year month) = month mod 12.
Proof.
  intros Hy. unfold getFullYear, getMonth, Date_ym1.
  assert ((0 <=? year) && (year <=? 99) = false) as ->.
  { apply andb_false_iff. rewrite Z.leb_gt, Z.leb_gt. lia. }
  rewrite Day_days, civil_days_first; cbn [fst snd].
  - split; lia.
  - pose proof (Z.mod_pos_bound month 12 ltac:(lia)). lia.
Qed.

Lemma getMonth_range (t : Z) : 0 <= getMonth t < 12.
Proof.
  unfold getMonth. pose proof (civil_range (Day t)) as H.
  destruct (civil_from_days (Day t)) as [[y m] d]. cbn. lia.
Qed.

Lemma getFullYear_epoch (t : Z) : 0 <= t -> 1600 <= getFullYear t.
Proof.
  intros Ht. unfold getFullYear. rewrite civil_from_days_era, civil_of_doe_era.
  assert (0 <= Day t) as Hd by (unfold Day, msPerDay; apply Z.div_pos; lia).
  pose proof (Z.mod_pos_bound (Day t + 719468) 146097 ltac:(lia)) as Hb.
  pose proof (check_day_all _ Hb) as Hall.
  unfold check_day in Hall.
  destruct (civil_of_doe 0 _) as [[y m] d].
  rewrite !andb_true_iff, !Z.leb_le in Hall. cbn [fst].
  assert (4 <= (Day t + 719468) / 146097); [|lia].
  apply Z.div_le_lower_bound; lia.
Qed.

(** ** The keys and the labels of the months *)

Lemma chars_app (a b : string) : chars (a +:+ b) = chars a ++ chars b.
Proof. unfold chars. induction a as [|c a IH]; [done|]. simpl. f_equal. exact IH. Qed.

Lemma str_chars (l : list ascii) : chars (str l) = l.
Proof. apply list_ascii_of_string_of_list_ascii. Qed.

Lemma chars_str (s : string) : str (chars s) = s.
Proof. apply string_of_list_ascii_of_string. Qed.

Lemma chars_inj (a b : string) : chars a = chars b -> a = b.
Proof. intros H. by rewrite <- (chars_str a), <- (chars_str b), H. Qed.

Lemma month_cases (m : Z) (P : Z -> Prop) :
  0 <= m < 12 ->
  P 0 -> P 1 -> P 2 -> P 3 -> P 4 -> P 5 -> P 6 -> P 7 -> P 8 -> P 9 -> P 10 -> P 11 ->
  P m.
Proof.
  intros Hm. intros.
  assert (m = 0 \/ m = 1 \/ m = 2 \/ m = 3 \/ m = 4 \/ m = 5 \/ m = 6 \/ m = 7 \/
          m = 8 \/ m = 9 \/ m = 10 \/ m = 11) as Hc by lia.
  repeat (destruct Hc as [->|Hc]; [assumption|]). by subst.
Qed.

Lemma last2_month_key (y m : Z) :
  0 <= m < 12 -> last2 (month_key (y, m)) = chars (month_digits m).
Proof.
  intros Hm. unfold last2, month_key. cbn [fst snd]. fold (month_digits m).
  rewrite !chars_app.
  assert (length (chars (month_digits m)) = 2%nat) as Hl.
  { by apply (month_cases m (fun m => length (chars (month_digits m)) = 2%nat) Hm). }
  rewrite app_assoc, length_app, Hl.
  replace (_ + 2 - 2)%nat with (length (chars (string_of_Z y) ++ chars "-") + 0)%nat by lia.
  by rewrite drop_app_add.
Qed.

Lemma month_digits_inj (m m' : Z) :
  0 <= m < 12 -> 0 <= m' < 12 -> month_digits m = month_digits m' -> m = m'.
Proof.
  intros Hm Hm'.
  apply (month_cases m (fun m => month_digits m = month_digits m' -> m = m') Hm);
    by apply (month_cases m' (fun m' => month_digits _ = month_digits m' -> _ = m') Hm').
Qed.

(** The index of a month: twelve times the year, plus the month. *)
Lemma month_before_spec (now k : Z) :
  let '(y, m) := month_before now k in
  12 * y + m = 12 * getFullYear now + getMonth now - k /\ 0 <= m < 12.
Proof.
  unfold month_before. cbv zeta.
  set (idx := 12 * getFullYear now + getMonth now - k).
  pose proof (Z.div_mod idx 12 ltac:(lia)).
  pose proof (Z.mod_pos_bound idx 12 ltac:(lia)). lia.
Qed.

Lemma month_before_0 (now : Z) : month_before now 0 = (getFullYear now, getMonth now).
Proof.
  pose proof (month_before_spec now 0) as H. pose proof (getMonth_range now).
  destruct (month_before now 0) as [y m]. f_equal; lia.
Qed.

Lemma month_key_inj (ym ym' : Z * Z) :
  0 <= ym.2 < 12 -> 0 <= ym'.2 < 12 -> month_key ym = month_key ym' -> ym.2 = ym'.2.
Proof.
  destruct ym as [y m], ym' as [y' m']. cbn [snd]. intros Hm Hm' E.
  apply (f_equal last2) in E. rewrite !last2_month_key in E by done.
  apply chars_inj in E. by apply month_digits_inj.
Qed.

Lemma month_keys_spec (now : Z) :
  0 <= now -> month_keys now = map month_key (months_of now).
Proof.
  intros Hn. pose proof (getFullYear_epoch now Hn) as Hy.
  unfold month_keys, months_of. rewrite map_map. apply map_ext. intros i.
  destruct (Date_ym1_fields (getFullYear now) (getMonth now - 11 + Z.of_nat i)
              ltac:(lia)) as [-> ->].
  unfold month_key, month_before. cbn [fst snd].
  replace (12 * getFullYear now + getMonth now - (11 - Z.of_nat i))
    with (getFullYear now * 12 + (getMonth now - 11 + Z.of_nat i)) by lia.
  set (x := getMonth now - 11 + Z.of_nat i).
  assert ((getFullYear now * 12 + x) / 12 = getFullYear now + x / 12) as ->
    by (rewrite Z.div_add_l; lia).
  assert ((getFullYear now * 12 + x) mod 12 = x mod 12) as ->
    by (rewrite Z.add_comm, Z.mod_add; lia).
  done.
Qed.

Lemma months_of_range (now : Z) (ym : Z * Z) : ym ∈ months_of now -> 0 <= ym.2 < 12.
Proof.
  unfold months_of. intros H. apply list_elem_of_fmap in H as (i & -> & _).
  pose proof (month_before_spec now (11 - Z.of_nat i)) as Hs.
  destruct (month_before _ _) as [y m]. cbn. lia.
Qed.

Lemma months_of_NoDup (now : Z) : NoDup (map month_key (months_of now)).
Proof.
  apply (NoDup_fmap_2_strong month_key).
  - intros ym ym' H H' E.
    pose proof (months_of_range _ _ H) as Hr. pose proof (months_of_range _ _ H') as Hr'.
    pose proof (month_key_inj _ _ Hr Hr' E) as Em.
    unfold months_of in H, H'.
    apply list_elem_of_fmap in H as (i & -> & Hi).
    apply list_elem_of_fmap in H' as (j & -> & Hj).
    apply elem_of_seq in Hi, Hj.
    pose proof (month_before_spec now (11 - Z.of_nat i)) as Hs.
    pose proof (month_before_spec now (11 - Z.of_nat j)) as Hs'.
    destruct (month_before now (11 - Z.of_nat i)) as [y m].
    destruct (month_before now (11 - Z.of_nat j)) as [y' m'].
    cbn [snd] in Em. subst m'. f_equal. lia.
  - unfold months_of. apply (NoDup_fmap_2_strong _); [|apply NoDup_seq].
    intros i j Hi Hj E. apply elem_of_seq in Hi, Hj.
    pose proof (month_before_spec now (11 - Z.of_nat i)) as Hs.
    pose proof (month_before_spec now (11 - Z.of_nat j)) as Hs'.
    rewrite E in Hs. destruct (month_before now (11 - Z.of_nat j)) as [y' m']. lia.
Qed.

Lemma months_of_not_proto (now : Z) : "__proto__"%string ∉ map month_key (months_of now).
Proof.
  intros H. apply list_elem_of_fmap in H as (ym & E & Hin).
  pose proof (months_of_range _ _ Hin) as Hr. destruct ym as [y m]. cbn [snd] in Hr.
  apply (f_equal last2) in E. rewrite last2_month_key in E by done.
  revert E. by apply (month_cases m (fun m => _ = chars (month_digits m) -> False) Hr).
Qed.

Lemma split_chars_plain (sep : ascii) (r cur : list ascii) :
  sep ∉ r -> split_chars sep r cur = [rev cur ++ r].
Proof.
  revert cur. induction r as [|c r IH]; intros cur Hn; cbn [split_chars].
  - by rewrite app_nil_r.
  - apply not_elem_of_cons in Hn as [Hc Hr].
    destruct (decide (c = sep)); [done|].
    rewrite IH by done. cbn [rev]. by rewrite <- app_assoc.
Qed.

Lemma split_chars_first (sep : ascii) (l r cur : list ascii) :
  sep ∉ l ->
  split_chars sep (l ++ sep :: r) cur = (rev cur ++ l) :: split_chars sep r [].
Proof.
  revert cur. induction l as [|c l IH]; intros cur Hn; cbn [split_chars app].
  - rewrite decide_True by done. by rewrite app_nil_r.
  - apply not_elem_of_cons in Hn as [Hc Hl].
    destruct (decide (c = sep)); [done|].
    rewrite IH by done. cbn [rev]. by rewrite <- app_assoc.
Qed.

Lemma string_of_uint_digits (d : Decimal.uint) :
  "-"%char ∉ chars (NilEmpty.string_of_uint d).
Proof.
  unfold chars.
  induction d; cbn; [apply not_elem_of_nil|..];
    (apply not_elem_of_cons; split; [done|assumption]).
Qed.

Lemma string_of_Z_no_hyphen (y : Z) : 0 <= y -> "-"%char ∉ chars (string_of_Z y).
Proof.
  intros Hy. unfold string_of_Z, NilZero.string_of_int, NilZero.string_of_uint.
  destruct y as [|p|p]; [apply (bool_decide_unpack _); by vm_compute | | lia].
  cbn [Z.to_int].
  pose proof (string_of_uint_digits (Pos.to_uint p)) as H.
  destruct (Pos.to_uint p); [|done..].
  intros Hin. cbn in Hin. apply elem_of_cons in Hin as [Hin|Hin]; [done|].
  by apply elem_of_nil in Hin.
Qed.

Lemma month_label_spec (y m : Z) :
  0 <= y -> 0 <= m < 12 ->
  month_label (month_key (y, m)) =
    (templ (MN !! Z.to_nat m) +:+ " " +:+ string_of_Z y)%string.
Proof.
  intros Hy Hm. unfold month_label, split, month_key. cbn [fst snd]. fold (month_digits m).
  rewrite !chars_app. change (chars "-") with ["-"%char]. cbn [app].
  rewrite split_chars_first by (by apply string_of_Z_no_hyphen).
  rewrite split_chars_plain
    by (by apply (month_cases m (fun m => "-"%char ∉ chars (month_digits m)) Hm);
        apply (bool_decide_unpack _)).
  cbn [map rev app lookup list_lookup]. rewrite !chars_str.
  f_equal.
  by apply (month_cases m (fun m =>
    templ (MN_at (num_sub (StringToNumber (month_digits m)) (num_of_Z 1))) =
    templ (MN !! Z.to_nat m)) Hm).
Qed.

(** ** Sums

    The sum of two doubles is rounded, so a sum of several depends on the
    order in which they are added.  Whole numbers below [2 ^ 53] add up
    without rounding. *)

Lemma num_add_comm (a b : num) : num_add a b = num_add b a.
Proof.
  destruct a as [| |x|], b as [| |y|]; try done.
  cbn. apply round64_comp. ring.
Qed.

Lemma num_add_canonical (a b : num) : canonical (num_add a b).
Proof.
  destruct a as [| |x|], b as [| |y|]; try done. apply round64_spec.
Qed.

Lemma canonical_zero : canonical zero.
Proof. done. Qed.

Lemma ilog2_small (q : Q) : (0 < q)%Q -> (q < 2 ^ 53)%Q -> ilog2 q <= 52.
Proof.
  intros Hq Hlt. destruct (Z_le_gt_dec (ilog2 q) 52) as [|Hgt]; [done|].
  pose proof (ilog2_le q Hq) as Hle.
  assert (2 ^ 53 <= 2 ^ ilog2 q)%Q by (apply pow2_le; lia). lra.
Qed.

(** A whole number below [2 ^ 53] is a double. *)
Lemma round64_Z (z : Z) : 0 <= z < 2 ^ 53 -> round64 (inject_Z z) = num_of_Z z.
Proof.
  intros [Hz0 Hz]. unfold round64. cbv zeta. rewrite Qred_inject_Z.
  destruct (Z.eq_dec z 0) as [->|Hne]; [done|].
  assert (0 < inject_Z z)%Q as Hq by (rewrite <- (Zlt_Qlt 0); lia).
  assert ((inject_Z z ?= 0)%Q = Gt) as -> by (by rewrite <- Qgt_alt).
  assert (inject_Z z < 2 ^ 53)%Q as Hq53 by (rewrite (pow2_Z 53), <- Zlt_Qlt; lia).
  unfold round64_pos, num_of_Z.
  pose proof (ilog2_small _ Hq Hq53) as He.
  set (e := Z.max (ilog2 (inject_Z z)) (-1022)).
  assert (-1022 <= e <= 52) as Hr by lia.
  assert (inject_Z z / 2 ^ (e - 52) == inject_Z (z * 2 ^ (52 - e)))%Q as Em.
  { rewrite inject_Z_mult, <- (pow2_Z (52 - e)) by lia.
    replace (e - 52) with (- (52 - e)) by lia. rewrite Qpower_opp.
    unfold Qdiv. by rewrite Qinv_involutive. }
  rewrite (round_even_comp _ _ Em), round_even_Z.
  assert (inject_Z (z * 2 ^ (52 - e)) * 2 ^ (e - 52) == inject_Z z)%Q as Er.
  { rewrite inject_Z_mult, <- (pow2_Z (52 - e)) by lia.
    rewrite <- Qmult_assoc, <- pow2_add. replace (52 - e + (e - 52)) with 0 by lia.
    change (2 ^ 0)%Q with 1%Q. ring. }
  destruct (Qle_bool _ _) eqn:Eo.
  - apply Qle_bool_iff in Eo. rewrite Er in Eo.
    assert (2 ^ 53 <= 2 ^ 1024)%Q by (by apply pow2_le). lra.
  - f_equal. rewrite (Qred_complete _ _ Er). apply Qred_inject_Z.
Qed.

Lemma num_add_Z (a b : Z) :
  0 <= a -> 0 <= b -> a + b < 2 ^ 53 ->
  num_add (num_of_Z a) (num_of_Z b) = num_of_Z (a + b).
Proof.
  intros Ha Hb Hs. unfold num_add, num_of_Z.
  rewrite (round64_comp _ (inject_Z (a + b))) by (by rewrite inject_Z_plus).
  apply round64_Z. lia.
Qed.

Lemma whole_of_Z (z : Z) : whole_of (num_of_Z z) = z.
Proof. apply Qfloor_Z. Qed.

Lemma sumZ_nonneg (l : list num) :
  Forall (fun n => exists z, 0 <= z /\ n = num_of_Z z) l -> 0 <= sumZ l.
Proof.
  induction 1 as [|n l (z & Hz & ->) _ IH]; [done|].
  cbn [sumZ foldr]. rewrite whole_of_Z. fold (sumZ l). lia.
Qed.

Lemma fold_whole (l : list num) (acc : Z) :
  Forall (fun n => exists z, 0 <= z /\ n = num_of_Z z) l ->
  0 <= acc -> acc + sumZ l < 2 ^ 53 ->
  fold_left num_add l (num_of_Z acc) = num_of_Z (acc + sumZ l).
Proof.
  intros Hl. revert acc. induction Hl as [|n l (z & Hz & ->) Hl IH]; intros acc Ha Hs.
  - cbn. by rewrite Z.add_0_r.
  - cbn [fold_left sumZ foldr] in *. fold (sumZ l) in *. rewrite whole_of_Z in *.
    pose proof (sumZ_nonneg l Hl).
    rewrite num_add_Z by lia. rewrite IH by lia. f_equal. lia.
Qed.

(** The sum of whole amounts is their sum. *)
Lemma total_whole (l : list num) : whole_amounts l -> total l = num_of_Z (sumZ l).
Proof. intros [Hl Hs]. unfold total, zero. by rewrite fold_whole. Qed.

Lemma sumZ_perm (l l' : list num) : l ≡ₚ l' -> sumZ l = sumZ l'.
Proof.
  induction 1 as [|a l1 l2 _ IH|a b l|l1 l2 l3 _ IH1 _ IH2]; cbn [sumZ foldr] in *;
    try done; try lia. fold (sumZ l1) (sumZ l2) in *. lia.
Qed.

Lemma whole_amounts_perm (l l' : list num) :
  l ≡ₚ l' -> whole_amounts l -> whole_amounts l'.
Proof. intros Hp [Hl Hs]. split; [by rewrite <- Hp|by rewrite <- (sumZ_perm _ _ Hp)]. Qed.

(** Whole amounts add up to the same in every order. *)
Lemma total_perm (l l' : list num) : whole_amounts l -> l ≡ₚ l' -> total l = total l'.
Proof.
  intros Hw Hp. rewrite (total_whole l Hw).
  rewrite (total_whole l' (whole_amounts_perm _ _ Hp Hw)). by rewrite (sumZ_perm _ _ Hp).
Qed.

Lemma sumZ_filter (P : expense -> Prop) `{!forall e, Decision (P e)} (l : list expense) :
  Forall (fun n => exists z, 0 <= z /\ n = num_of_Z z) (map amount l) ->
  0 <= sumZ (amounts P l) <= sumZ (map amount l).
Proof.
  unfold amounts. induction l as [|e l IH]; [done|]. cbn [map]. intros Hl.
  apply Forall_cons in Hl as [(z & Hz & Ez) Hl]. specialize (IH Hl).
  rewrite filter_cons. cbn [sumZ foldr]. fold (sumZ (map amount l)).
  rewrite Ez, whole_of_Z.
  destruct (decide (P e)); [|lia].
  cbn [map sumZ foldr]. fold (sumZ (map amount (filter P l))). rewrite Ez, whole_of_Z. lia.
Qed.

Lemma whole_amounts_filter (P : expense -> Prop) `{!forall e, Decision (P e)}
    (l : list expense) :
  whole_amounts (map amount l) -> whole_amounts (amounts P l).
Proof.
  intros [Hl Hs]. split; [|pose proof (sumZ_filter P l Hl); lia].
  unfold amounts. rewrite Forall_forall in Hl |- *. intros n Hn. apply Hl.
  apply list_elem_of_fmap in Hn as (e & -> & He).
  apply list_elem_of_filter in He as [_ He]. by apply list_elem_of_fmap_2.
Qed.

Lemma sumZ_amounts_split (P Q : expense -> Prop)
    `{!forall e, Decision (P e)} `{!forall e, Decision (Q e)} (l : list expense) :
  (forall e, P e -> Q e -> False) ->
  sumZ (amounts (fun e => P e \/ Q e) l) = sumZ (amounts P l) + sumZ (amounts Q l).
Proof.
  intros Hd. unfold amounts. induction l as [|e l IH]; [done|].
  rewrite !filter_cons.
  destruct (decide (P e)) as [Hp|Hp], (decide (Q e)) as [Hq|Hq].
  - by destruct (Hd e).
  - rewrite decide_True by (by left). unfold sumZ in *. cbn [map foldr]. lia.
  - rewrite decide_True by (by right). unfold sumZ in *. cbn [map foldr]. lia.
  - rewrite decide_False by tauto. done.
Qed.

Lemma sumZ_by_key (key : expense -> string) (keys : list string) (l : list expense) :
  NoDup keys ->
  sumZ (map (fun k => num_of_Z (sumZ (amounts (fun e => key e = k) l))) keys) =
    sumZ (amounts (fun e => key e ∈ keys) l).
Proof.
  induction 1 as [|k keys Hk Hnd IH]; cbn [map sumZ foldr].
  - unfold amounts. replace (filter (fun e => key e ∈ []) l) with (@nil expense); [done|].
    symmetry. induction l as [|e l IHl]; [done|].
    rewrite filter_cons, decide_False by apply not_elem_of_nil. exact IHl.
  - fold (sumZ (map (fun k => num_of_Z (sumZ (amounts (fun e => key e = k) l))) keys)).
    rewrite whole_of_Z, IH, <- sumZ_amounts_split.
    + unfold amounts. do 2 f_equal. apply filter_ext_in.
      intros e _. rewrite elem_of_cons. done.
    + intros e <-. done.
Qed.

(** With whole amounts, the sums by key add up to the sum of the amounts
    that have one of the keys. *)
Lemma total_by_key (key : expense -> string) (keys : list string) (l : list expense) :
  NoDup keys -> whole_amounts (map amount l) ->
  total (map (fun k => total (amounts (fun e => key e = k) l)) keys) =
    total (amounts (fun e => key e ∈ keys) l).
Proof.
  intros Hnd Hw. pose proof Hw as [Hl Hs].
  rewrite (total_whole (amounts _ l)) by (by apply whole_amounts_filter).
  assert (map (fun k => total (amounts (fun e => key e = k) l)) keys =
          map (fun k => num_of_Z (sumZ (amounts (fun e => key e = k) l))) keys) as ->.
  { apply map_ext. intros k. apply total_whole. by apply whole_amounts_filter. }
  pose proof (sumZ_by_key key keys l Hnd) as Hk.
  rewrite total_whole; [by rewrite Hk|]. split.
  - apply Forall_forall. intros n Hn. apply list_elem_of_fmap in Hn as (k & -> & _).
    eexists. split; [|done]. apply (sumZ_filter (fun e => key e = k) l Hl).
  - rewrite Hk. pose proof (sumZ_filter (fun e => key e ∈ keys) l Hl). lia.
Qed.

(** ** The statistics by category *)

Lemma stored_amount_add (a b : num) :
  stored_amount a -> stored_amount b -> stored_amount (num_add a b).
Proof.
  unfold stored_amount, is_number.
  destruct a as [| |x|], b as [| |y|]; try (intros [? ?] [? ?]; done).
  intros [_ Hx] [_ Hy]. cbn [num_add].
  assert (forall q, num_ltb (Fin q) zero = false -> (0 <= q)%Q) as Hnn.
  { intros q. unfold num_ltb, zero, num_of_Z. change (inject_Z 0) with 0%Q.
    destruct (q ?= 0)%Q eqn:E; try done; intros _.
    - rewrite <- Qeq_alt in E. lra.
    - rewrite <- Qgt_alt in E. lra. }
  apply Hnn in Hx, Hy.
  destruct (round64_spec (x + y)) as (H1 & _ & _ & H2 & _).
  split; [done|]. apply H2. lra.
Qed.

Lemma stored_amount_zero : stored_amount zero.
Proof. done. Qed.

Lemma num_or_zero (m : num) : canonical m -> is_number m -> num_or m zero = m.
Proof.
  unfold canonical, is_number, num_or, num_truthy.
  destruct m as [| |q|]; try done. cbn. intros [= Hq] _.
  destruct (Qeq_bool q 0) eqn:E; [|done]. cbn.
  apply Qeq_bool_iff in E. unfold zero, num_of_Z. f_equal.
  rewrite <- Hq. change (inject_Z 0) with (Qred 0). by apply Qred_complete.
Qed.

Lemma category_fold (l : list expense) :
  Forall (fun e => category e ∉ Object_prototype) l ->
  Forall (fun e => stored_amount (amount e)) l ->
  forall (acc : gmap string propval) (v : string -> option num),
  (forall c, acc !! c = PNum <$> v c) ->
  (forall c x, v c = Some x -> canonical x /\ stored_amount x) ->
  forall c,
    fold_left category_step l acc !! c =
      match amounts (fun e => category e = c) l with
      | [] => PNum <$> v c
      | a => Some (PNum (fold_left num_add a (default zero (v c))))
      end.
Proof.
  induction l as [|e l IH]; intros Hc Ha acc v Hacc Hv c; [by apply Hacc|].
  apply Forall_cons in Hc as [Hce Hc]. apply Forall_cons in Ha as [Hae Ha].
  cbn [fold_left]. unfold amounts. rewrite filter_cons.
  set (x0 := default zero (v (category e))).
  assert (canonical x0 /\ stored_amount x0) as [Hx0c Hx0s].
  { unfold x0. destruct (v (category e)) as [x|] eqn:E; [by apply (Hv _ _ E)|done]. }
  assert (category_step acc e = <[category e := PNum (num_add x0 (amount e))]> acc) as ->.
  { unfold category_step, obj_set, obj_get.
    rewrite bool_decide_eq_false_2
      by (intros E; apply Hce; rewrite E; apply (bool_decide_unpack _); by vm_compute).
    rewrite Hacc. unfold x0. destruct (v (category e)) as [x|] eqn:E;
      cbn [fmap option_fmap option_map or0_plus default from_option id].
    - destruct (Hv _ _ E) as [Hxc [Hxn _]]. by rewrite (num_or_zero x Hxc Hxn).
    - by rewrite (bool_decide_eq_false_2 _ Hce). }
  rewrite (IH Hc Ha _
    (fun c => if decide (category e = c) then Some (num_add x0 (amount e)) else v c)).
  - destruct (decide (category e = c)) as [<-|Hne]; [|done]. cbn [map default from_option id].
    fold x0. unfold amounts. by destruct (map amount _).
  - intros c0. destruct (decide (category e = c0)) as [<-|Hne].
    + apply lookup_insert_eq.
    + rewrite lookup_insert_ne by done. apply Hacc.
  - intros c0 x. destruct (decide (category e = c0)) as [<-|Hne]; [|apply Hv].
    intros [= <-]. split; [apply num_add_canonical|by apply stored_amount_add].
Qed.

(** X1.  What [statsByCategory] resolves to when no category of the store is
    the name of a member of [Object.prototype]: under each category of a
    listed expense the sum of the amounts of the listed expenses of that
    category, and no other key. *)
Lemma statsByCategory_sums (now userId : Z) (period : option string) (db : database) :
  reachable db ->
  (forall e, e ∈ records (expenses db) -> category e ∉ Object_prototype) ->
  exists l m,
    getExpenses now userId period (Some "Toutes"%string) db = (Resolved l, db) /\
    statsByCategory now userId period db = (Resolved m, db) /\
    forall c,
      m !! c =
        match amounts (fun e => category e = c) l with
        | [] => None
        | a => Some (PNum (total a))
        end.
Proof.
  intros Hr Hcat. apply reachable_ok in Hr as (_ & _ & Hok).
  unfold statsByCategory, await. rewrite getExpenses_eval.
  set (L := sort by_recency _).
  assert (forall e, e ∈ L -> e ∈ records (expenses db)) as Hsub.
  { intros e He. unfold L in He. rewrite sort_perm in He.
    do 3 apply list_elem_of_filter in He as [_ He]. done. }
  assert (Forall (fun e => category e ∉ Object_prototype) L) as HC.
  { apply Forall_forall. intros e He. by apply Hcat, Hsub. }
  assert (Forall (fun e => stored_amount (amount e)) L) as HA.
  { apply Forall_forall. intros e He. rewrite Forall_forall in Hok.
    by destruct (Hok e (Hsub e He)). }
  exists L. eexists. split; [reflexivity|]. split; [reflexivity|].
  intros c. fold category_step.
  by rewrite (category_fold L HC HA ∅ (fun _ => None)).
Qed.

(** ** The properties at sample calls *)

Lemma db_taxi_reachable : reachable db_taxi.
Proof. apply rtc_once, (step_addExpense noon 1 taxi empty_db). Defined.


Lemma deleteExpense_not_found_witness :
  (forall (e : expense) (A B : Z),
     e ∈ records (expenses db_taxi) -> user_id e = num_of_Z A -> B <> A ->
     deleteExpense B (expense_key e) db_taxi = (Rejected DepenseIntrouvable, db_taxi)) /\
  (forall (B id : Z),
     (forall e, e ∈ records (expenses db_taxi) -> expense_key e <> id) ->
     deleteExpense B id db_taxi = (Rejected DepenseIntrouvable, db_taxi)) /\
  is_not_found_error DepenseIntrouvable = true.
Proof. apply (deleteExpense_not_found db_taxi), db_taxi_reachable. Defined.

Lemma addExpense_amount_rejected_witness :
  not_positive (ToNumber (in_amount unpriced)) /\
  exists e,
    addExpense noon 1 unpriced db_taxi = (Rejected e, db_taxi) /\
    is_validation_error e = true /\
    (name_missing (in_name unpriced) = false -> e = MontantInvalide) /\
    _count Expenses (addExpense noon 1 unpriced db_taxi).2 = _count Expenses db_taxi.
Proof.
  assert (not_positive (ToNumber (in_amount unpriced))) as H by (left; reflexivity).
  split; [exact H|]. apply (addExpense_amount_rejected noon 1 unpriced db_taxi H).
Defined.

Lemma createUser_then_verifyUser_witness :
  verifyUser "  Alice " "1234" db_alice = (Resolved (mkSession 1 "alice"), db_alice).
Proof.
  apply (createUser_then_verifyUser noon "  Alice " "1234" empty_db db_alice db_alice).
  - vm_compute. reflexivity.
  - apply rtc_refl.
Defined.

Lemma createUser_again_rejected_witness :
  createUser (noon + 1) "ALICE" "0000" db_alice = (Rejected NomDejaUtilise, db_alice) /\
  is_duplicate_user_error NomDejaUtilise = true.
Proof.
  apply (createUser_again_rejected noon (noon + 1) "  Alice " "1234" "ALICE" "0000"
           empty_db db_alice db_alice (mkSession 1 "alice")).
  - vm_compute. reflexivity.
  - apply rtc_refl.
  - reflexivity.
Defined.

(** C8 fails on a category that is the name of a member that every object
    inherits: the expenses of the categories 'constructor' and '__proto__',
    of amount 5 each, are listed, but under 'constructor' the statistics
    have a text, not the sum 5, and they have no key '__proto__'. *)
Theorem statsByCategory_inherited_member :
  (exists e1 e2,
     getExpenses noon 1 (Some "all"%string) (Some "Toutes"%string) db_odd
       = (Resolved [e1; e2], db_odd) /\
     category e1 = "constructor"%string /\ amount e1 = num_of_Z 5 /\
     category e2 = "__proto__"%string /\ amount e2 = num_of_Z 5) /\
  exists m,
    statsByCategory noon 1 (Some "all"%string) db_odd = (Resolved m, db_odd) /\
    m !! "constructor"%string = Some PText /\
    m !! "__proto__"%string = None.
Proof.
  split.
  - eexists _, _. split; [vm_compute; reflexivity|]. repeat split.
  - eexists. split; [reflexivity|]. split; vm_compute; reflexivity.
Qed.

(** C9 as it is stated fails: the hour 99 and the minute 75 of the form
    are stored as they are. *)
Lemma addExpense_hour_out_of_range :
  let db' := (addExpense noon 1 late empty_db).2 in
  let e := mkExpense 1 (num_of_Z 1) "Taxi" (Fin 1500) "Transport" "2024-03-10"
                     (Fin 99) (Fin 75) (num_of_Z noon) in
  addExpense noon 1 late empty_db = (Resolved 1, db') /\
  records (expenses db') = [e] /\
  ~ in_range 0 23 (hour e) /\ ~ in_range 0 59 (minute e).
Proof.
  repeat split; try (vm_compute; reflexivity).
  - intros (z & H & Hz). injection H as H. lia.
  - intros (z & H & Hz). injection H as H. lia.
Qed.

Lemma addExpense_hour_minute_witness :
  exists e,
    records (expenses (addExpense noon 1 taxi empty_db).2) = records (expenses empty_db) ++ [e] /\
    expense_key e = 1 /\ hour e = Fin 8 /\ minute e = Fin 30.
Proof.
  destruct (addExpense_hour_minute noon 1 taxi empty_db (addExpense noon 1 taxi empty_db).2 1)
    as (e & H1 & H2 & H3 & H4 & _).
  - vm_compute. reflexivity.
  - exists e. split; [exact H1|]. split; [exact H2|]. split; [exact H3 | exact H4].
Defined.

(** ** The engine: writing, reading back, deleting *)

Lemma key_of_with_key {A} (n : storeName A) (k : Z) (r : A) :
  key_of (Stored := stored_of n) (with_key (Stored := stored_of n) k r) = k.
Proof. by destruct n. Qed.

Lemma store_keys_ok {A} (n : storeName A) (db : database) :
  db_ok db -> keys_ok (H := stored_of n) (objectStore_of n db).
Proof. intros (Hu & He & _). by destruct n. Qed.

Lemma objectStore_of_set {A} (n : storeName A) (s : objectStore A) (db : database) :
  objectStore_of n (set_objectStore n s db) = s.
Proof. by destruct n. Qed.

Lemma find_none_keys {A} (key : A -> Z) (l : list A) (k : Z) :
  find (fun r => key r =? k) l = None -> forall e, e ∈ l -> key e <> k.
Proof.
  induction l as [|x l IH]; intros F e He; [by apply elem_of_nil in He|].
  cbn [find] in F. destruct (key x =? k) eqn:E; [done|].
  apply Z.eqb_neq in E. apply elem_of_cons in He as [-> | He]; [done|by apply IH].
Qed.

Lemma filter_all_in {A} (P : A -> Prop) `{!forall x, Decision (P x)} (l : list A) :
  (forall x, x ∈ l -> P x) -> filter P l = l.
Proof.
  induction l as [|x l IH]; intros Hall; [done|].
  rewrite filter_cons, decide_True by (apply Hall; left).
  f_equal. apply IH. intros y Hy. apply Hall. by right.
Qed.

(** X3.  In a database that the application reaches, a record that [_add]
    has written under a key is what [_get] reads under that key; the key is
    the one the generator held, every other key reads as before, and the
    count has grown by one. *)
Theorem add_then_get {A} (n : storeName A) (r : A) (db db' : database) (k : Z) :
  reachable db ->
  _add n r db = (Resolved k, db') ->
  k = keygen (objectStore_of n db) /\
  _get n k db' = (Resolved (Some (with_key (Stored := stored_of n) k r)), db') /\
  (forall k', k' <> k -> (_get n k' db').1 = (_get n k' db).1) /\
  (_count n db').1 = Resolved (Z.of_nat (length (records (objectStore_of n db))) + 1).
Proof.
  intros Hr Hadd. apply reachable_ok in Hr.
  pose proof (store_keys_ok n db Hr) as (Hs & Hb & Hg).
  unfold _add in Hadd. destruct (existsb _ _); [done|].
  injection Hadd as <- <-. split; [done|].
  unfold _get, _count. rewrite !objectStore_of_set. cbn [records fst].
  set (s := objectStore_of n db) in *.
  split; [|split].
  - rewrite find_snoc, find_no_key.
    + by rewrite key_of_with_key, Z.eqb_refl.
    + intros e He. rewrite Forall_forall in Hb. specialize (Hb e He). lia.
  - intros k' Hk'. rewrite find_snoc. destruct (find _ (records s)); [done|].
    rewrite key_of_with_key. by rewrite (proj2 (Z.eqb_neq _ _)).
  - rewrite length_app. cbn [length]. f_equal. lia.
Qed.

(** ** Trimming and lower case *)

Lemma trimStart_app_last (l : list ascii) (c : ascii) :
  is_ws c = false -> trimStart_chars (l ++ [c]) = trimStart_chars l ++ [c].
Proof.
  intros Hc. induction l as [|x l IH]; cbn [app trimStart_chars].
  - by rewrite Hc.
  - by destruct (is_ws x).
Qed.

Lemma trimStart_head (l : list ascii) :
  match trimStart_chars l with c :: _ => is_ws c = false | [] => True end.
Proof.
  induction l as [|x l IH]; [done|]. cbn [trimStart_chars].
  destruct (is_ws x) eqn:E; [exact IH | exact E].
Qed.

Lemma trimStart_fixed (l : list ascii) :
  match l with c :: _ => is_ws c = false | [] => True end -> trimStart_chars l = l.
Proof. destruct l as [|c l]; [done|]. cbn [trimStart_chars]. by intros ->. Qed.

Lemma trim_chars_ends (l : list ascii) :
  match trim_chars l with c :: _ => is_ws c = false | [] => True end /\
  match rev (trim_chars l) with c :: _ => is_ws c = false | [] => True end.
Proof.
  unfold trim_chars. rewrite rev_involutive.
  pose proof (trimStart_head l) as Ha.
  destruct (trimStart_chars l) as [|c a] eqn:E; [done|].
  cbn [rev]. rewrite trimStart_app_last by done.
  split.
  - rewrite rev_app_distr. exact Ha.
  - pose proof (trimStart_head (rev a)) as Hb.
    destruct (trimStart_chars (rev a)); [exact Ha | exact Hb].
Qed.

Lemma trim_chars_idem (l : list ascii) : trim_chars (trim_chars l) = trim_chars l.
Proof.
  destruct (trim_chars_ends l) as [Hh Hl].
  unfold trim_chars at 1. rewrite (trimStart_fixed _ Hh), (trimStart_fixed _ Hl).
  apply rev_involutive.
Qed.

Lemma trim_idem (s : string) : trim (trim s) = trim s.
Proof. unfold trim. by rewrite str_chars, trim_chars_idem. Qed.

Lemma lower_char_idem (c : ascii) : lower_char (lower_char c) = lower_char c.
Proof. destruct c as [[] [] [] [] [] [] [] []]; reflexivity. Qed.

Lemma lower_char_ws (c : ascii) : is_ws (lower_char c) = is_ws c.
Proof. destruct c as [[] [] [] [] [] [] [] []]; reflexivity. Qed.

Lemma trimStart_lower (l : list ascii) :
  trimStart_chars (map lower_char l) = map lower_char (trimStart_chars l).
Proof.
  induction l as [|x l IH]; [done|]. cbn [map trimStart_chars].
  rewrite lower_char_ws. by destruct (is_ws x).
Qed.

Lemma trim_chars_lower (l : list ascii) :
  trim_chars (map lower_char l) = map lower_char (trim_chars l).
Proof.
  unfold trim_chars. by rewrite trimStart_lower, <- map_rev, trimStart_lower, <- map_rev.
Qed.

(** The name under which a user is stored is its own trimmed lower case. *)
Lemma normalize_idem (s : string) :
  toLowerCase (trim (toLowerCase (trim s))) = toLowerCase (trim s).
Proof.
  unfold toLowerCase, trim. rewrite !str_chars, trim_chars_lower, trim_chars_idem.
  rewrite map_map. f_equal. apply map_ext. intros c. apply lower_char_idem.
Qed.

(** ** What the stores keep *)

Lemma find_username (u : string) (l : list user) :
  find (fun r => bool_decide (username r = u)) l = None <-> u ∉ map username l.
Proof.
  induction l as [|x l IH]; cbn [find map].
  - split; [intros _; apply not_elem_of_nil|done].
  - rewrite not_elem_of_cons. case_bool_decide as E.
    + split; [done|]. intros [Hne _]. by destruct Hne.
    + rewrite IH. split; [by intros ?; split|by intros [_ ?]].
Qed.

Lemma find_username_Some (u : string) (l : list user) (x : user) :
  find (fun r => bool_decide (username r = u)) l = Some x -> x ∈ l /\ username x = u.
Proof.
  induction l as [|y l IH]; cbn [find]; [done|].
  case_bool_decide as E.
  - intros [= <-]. split; [left|done].
  - intros F. destruct (IH F) as [? ?]. split; [by right|done].
Qed.

Lemma clash_username (r : user) (l : list user) :
  existsb (clash r) l = bool_decide (username r ∈ map username l).
Proof.
  induction l as [|x l IH]; cbn [existsb map]; [done|].
  rewrite IH. cbn [clash user_stored].
  do 3 case_bool_decide; rewrite ?elem_of_cons in *; try done; tauto.
Qed.

(** The three outcomes of [createUser]. *)
Lemma createUser_eval (now : Z) (username_ pin : string) (db : database) :
  let u := toLowerCase (trim username_) in
  createUser now username_ pin db =
    if slength u <? 2 then (Rejected NomTropCourt, db)
    else if bool_decide (u ∈ map username (records (users db)))
    then (Rejected NomDejaUtilise, db)
    else (Resolved (mkSession (keygen (users db)) u),
          mkDB (mkStore (records (users db) ++
                           [mkUser (keygen (users db)) u (_hash pin) (num_of_Z now)])
                        (keygen (users db) + 1))
               (expenses db)).
Proof.
  intros u. unfold createUser. fold u. destruct (slength u <? 2); [done|].
  unfold await, _findOne.
  destruct (find _ _) as [x|] eqn:F.
  - apply find_username_Some in F as [Hx Hu].
    rewrite bool_decide_eq_true_2 by done.
    rewrite bool_decide_eq_true_2; [done|]. rewrite <- Hu. by apply list_elem_of_fmap_2.
  - apply find_username in F.
    rewrite bool_decide_eq_false_2 by (by intros [? ?]).
    rewrite (bool_decide_eq_false_2 _ F).
    unfold _add. cbn [objectStore_of stored_of].
    rewrite clash_username. cbn [username]. by rewrite (bool_decide_eq_false_2 _ F).
Qed.

Lemma str_truthy_ne (s : string) : str_truthy s = true <-> s <> EmptyString.
Proof. by destruct s. Qed.

Lemma str_or_filled (x : option string) (d : string) :
  d <> EmptyString -> str_or x d <> EmptyString.
Proof.
  intros Hd. unfold str_or. destruct x as [s|]; [|done].
  destruct (str_truthy s) eqn:E; [by apply str_truthy_ne|done].
Qed.

Lemma expense_record_filled now userId f k :
  valid_fields f -> expense_filled (with_key k (expense_record now userId f)).
Proof.
  intros (Hn & _ & Hd). split; cbn.
  - unfold name_missing in Hn. destruct (in_name f) as [s|]; [|done]. cbn.
    apply negb_false_iff, str_truthy_ne in Hn. split; [done|apply trim_idem].
  - by apply str_or_filled.
  - by apply str_truthy_ne.
Qed.

Lemma db_kept_empty : db_kept empty_db.
Proof. repeat split; cbn; constructor. Qed.

Lemma step_kept (db db' : database) : db_kept db -> step db db' -> db_kept db'.
Proof.
  intros (Hu & Hn & He) Hstep. destruct Hstep as [t un pin db | t uid f db | uid k db].
  - rewrite createUser_eval. destruct (_ <? 2) eqn:El; [done|].
    case_bool_decide as Ein; [done|]. cbn [snd].
    split; [|split]; cbn [users expenses records]; [| |done].
    + apply Forall_app. split; [done|]. constructor; [|constructor].
      split; cbn [username pinHash createdAt].
      * apply normalize_idem.
      * apply Z.ltb_ge in El. exact El.
      * by exists pin.
      * by exists t.
    + rewrite map_app. cbn [map username]. apply NoDup_app. split; [done|].
      split; [|apply NoDup_singleton].
      intros x Hx Hx'. apply list_elem_of_singleton in Hx' as ->. done.
  - destruct (addExpense_state t uid f db) as [-> | [Hv ->]]; [done|].
    split; [done|]. split; [done|].
    cbn [expenses with_expense records]. apply Forall_app. split; [done|].
    constructor; [|constructor]. by apply expense_record_filled.
  - destruct (deleteExpense_state uid k db) as [-> | ->]; [done|].
    split; [done|]. split; [done|].
    cbn [expenses records]. apply Forall_forall. intros x Hx.
    apply list_elem_of_filter in Hx as [_ Hx]. rewrite Forall_forall in He. by apply He.
Qed.

Lemma reachable_kept (db : database) : reachable db -> db_kept db.
Proof.
  unfold reachable. revert db. apply rtc_ind_r; [apply db_kept_empty|].
  intros db db' _ Hs IH. by eapply step_kept.
Qed.

(** X5.  Every expense that a reachable database holds: its name is not
    empty and has no outer white space, its category and its date are not
    empty, its amount is a number that is not negative, its hour and its
    minute are numbers, its owner and its time stamp are integers, its key
    lies from 1 to below the generator, and no other record has that key. *)
Theorem stored_expense_shape (db : database) (e : expense) :
  reachable db -> e ∈ records (expenses db) ->
  name e <> EmptyString /\ trim (name e) = name e /\
  category e <> EmptyString /\ date e <> EmptyString /\
  stored_amount (amount e) /\
  is_number (hour e) /\ is_number (minute e) /\
  (exists z, user_id e = num_of_Z z) /\ (exists z, ts e = num_of_Z z) /\
  1 <= expense_key e < keygen (expenses db) /\
  (forall e', e' ∈ records (expenses db) -> expense_key e' = expense_key e -> e' = e).
Proof.
  intros Hr He.
  pose proof (reachable_ok db Hr) as (_ & (Hs & Hb & _) & Hok).
  pose proof (reachable_kept db Hr) as (_ & _ & Hf).
  rewrite Forall_forall in Hok, Hf, Hb.
  destruct (Hok e He) as [Hu Hh Hm Ht Ha]. destruct (Hf e He) as [[Hn Htr] Hc Hd].
  split_and!; try done; try apply (Hb e He).
  intros e' He' Hk. by apply (key_unique expense_key (records (expenses db))).
Qed.

Lemma find_username_unique (l : list user) (x : user) :
  NoDup (map username l) -> x ∈ l ->
  find (fun r => bool_decide (username r = username x)) l = Some x.
Proof.
  induction l as [|y l IH]; intros Hnd Hx; [by apply elem_of_nil in Hx|].
  cbn [map] in Hnd. apply NoDup_cons in Hnd as [Hy Hnd]. cbn [find].
  apply elem_of_cons in Hx as [-> | Hx].
  - by rewrite bool_decide_eq_true_2.
  - rewrite bool_decide_eq_false_2; [by apply IH|].
    intros E. apply Hy. rewrite E. by apply list_elem_of_fmap_2.
Qed.

(** X6.  Every user that a reachable database holds: the name is its own
    trimmed lower case, of two characters at least; the stored hash is the
    digest of a PIN; the key lies from 1 to below the generator; and no
    other user has that name or that key. *)
Theorem stored_user_shape (db : database) (u : user) :
  reachable db -> u ∈ records (users db) ->
  toLowerCase (trim (username u)) = username u /\
  2 <= slength (username u) /\
  (exists pin, pinHash u = _hash pin) /\
  (exists z, createdAt u = num_of_Z z) /\
  1 <= user_key u < keygen (users db) /\
  (forall u', u' ∈ records (users db) -> username u' = username u -> u' = u) /\
  (forall u', u' ∈ records (users db) -> user_key u' = user_key u -> u' = u).
Proof.
  intros Hr Hu.
  pose proof (reachable_ok db Hr) as ((Hs & Hb & _) & _ & _).
  pose proof (reachable_kept db Hr) as (Hok & Hnd & _).
  rewrite Forall_forall in Hok, Hb.
  destruct (Hok u Hu) as [H1 H2 H3 H4].
  split_and!; try done; try apply (Hb u Hu).
  - intros u' Hu' E. pose proof (find_username_unique _ _ Hnd Hu) as F.
    pose proof (find_username_unique _ _ Hnd Hu') as F'. rewrite E in F'. congruence.
  - intros u' Hu' Hk. by apply (key_unique user_key (records (users db))).
Qed.

(** X7.  What [verifyUser] settles to in a reachable database, which it
    leaves as it is: a session, exactly when a stored user has the trimmed
    lower case of the name and the digest of the PIN, and then the session
    of that user; the rejection of an unknown user exactly when no stored
    user has that name; the rejection of the PIN exactly when the user of
    that name has another digest; and no other rejection. *)
Theorem verifyUser_outcome (username_ pin : string) (db : database) :
  reachable db ->
  let u := toLowerCase (trim username_) in
  let r := (verifyUser username_ pin db).1 in
  (verifyUser username_ pin db).2 = db /\
  (forall s, r = Resolved s <->
     exists x, x ∈ records (users db) /\ username x = u /\ pinHash x = _hash pin /\
               s = mkSession (user_key x) u) /\
  (r = Rejected UtilisateurIntrouvable <-> u ∉ map username (records (users db))) /\
  (r = Rejected CodePinIncorrect <->
     exists x, x ∈ records (users db) /\ username x = u /\ pinHash x <> _hash pin) /\
  (forall e, r = Rejected e -> e = UtilisateurIntrouvable \/ e = CodePinIncorrect).
Proof.
  intros Hr u r. pose proof (reachable_kept db Hr) as (_ & Hnd & _).
  assert (forall x, x ∈ records (users db) -> username x = u ->
            find (fun r => bool_decide (username r = u)) (records (users db)) = Some x)
    as Huniq.
  { intros x Hx <-. by apply find_username_unique. }
  unfold r, verifyUser, await, _findOne. fold u.
  destruct (find _ _) as [x|] eqn:F.
  - destruct (find_username_Some _ _ _ F) as [Hx Hu].
    case_bool_decide as Eh; cbn [fst snd throw resolve].
    + split; [done|]. split; [|split; [|split]].
      * intros s. split; [done|]. intros (y & Hy & Hyu & Hyh & _).
        assert (y = x) as -> by (pose proof (Huniq y Hy Hyu); congruence). congruence.
      * split; [done|]. intros Hno. destruct Hno. rewrite <- Hu.
        by apply list_elem_of_fmap_2.
      * split; [|done]. intros _. exists x. by repeat split.
      * intros e [= <-]. by right.
    + split; [done|]. split; [|split; [|split]].
      * intros s. split.
        -- intros [= <-]. exists x. rewrite Hu. by repeat split.
        -- intros (y & Hy & Hyu & Hyh & ->).
           assert (y = x) as -> by (pose proof (Huniq y Hy Hyu); congruence). by rewrite Hu.
      * split; [done|]. intros Hno. destruct Hno. rewrite <- Hu.
        by apply list_elem_of_fmap_2.
      * split; [done|]. intros (y & Hy & Hyu & Hyh).
        assert (y = x) as -> by (pose proof (Huniq y Hy Hyu); congruence). congruence.
      * done.
  - apply find_username in F. cbn [fst snd throw].
    split; [done|]. split; [|split; [|split]].
    + intros s. split; [done|]. intros (y & Hy & Hyu & _). destruct F.
      rewrite <- Hyu. by apply list_elem_of_fmap_2.
    + done.
    + split; [done|]. intros (y & Hy & Hyu & _). destruct F.
      rewrite <- Hyu. by apply list_elem_of_fmap_2.
    + intros e [= <-]. by left.
Qed.

(** ** Deleting, and what the other records keep *)

Lemma filter_key_perm {A} (key : A -> Z) (l : list A) (e : A) :
  StronglySorted Z.lt (map key l) -> e ∈ l ->
  l ≡ₚ e :: filter (fun r => key r <> key e) l.
Proof.
  induction l as [|x l IH]; intros Hs He; [by apply elem_of_nil in He|].
  cbn [map] in Hs. apply StronglySorted_inv in Hs as [Hs Hx].
  rewrite filter_cons. apply elem_of_cons in He as [-> | He].
  - rewrite decide_False by (intros F; by apply F).
    rewrite filter_all_in; [done|].
    intros y Hy. rewrite Forall_forall in Hx.
    assert (key x < key y) by (apply Hx; by apply list_elem_of_fmap_2). lia.
  - rewrite Forall_forall in Hx.
    assert (key x < key e) by (apply Hx; by apply list_elem_of_fmap_2).
    rewrite decide_True by lia.
    rewrite (IH Hs He) at 1. apply Permutation_swap.
Qed.

Lemma deleteExpense_eval (userId id : Z) (db : database) :
  deleteExpense userId id db =
    match find (fun r => expense_key r =? id) (records (expenses db)) with
    | Some e =>
        if num_eqb (user_id e) (num_of_Z userId)
        then (Resolved true,
              mkDB (users db)
                   (mkStore (filter (fun r => expense_key r <> id) (records (expenses db)))
                            (keygen (expenses db))))
        else (Rejected DepenseIntrouvable, db)
    | None => (Rejected DepenseIntrouvable, db)
    end.
Proof.
  unfold deleteExpense, await, _get. cbn [objectStore_of stored_of key_of expense_stored].
  destruct (find _ _) as [e|]; [|done]. by destruct (num_eqb _ _).
Qed.

(** X8.  The owner deletes an expense: the call resolves; that record, and
    no other, is gone, the others in the order they had; the users and the
    key generator are as before; and a second call for the same key is
    rejected as not found. *)
Theorem deleteExpense_by_owner (db : database) (e : expense) (owner : Z) :
  reachable db -> e ∈ records (expenses db) -> user_id e = num_of_Z owner ->
  exists db',
    deleteExpense owner (expense_key e) db = (Resolved true, db') /\
    users db' = users db /\
    keygen (expenses db') = keygen (expenses db) /\
    (records (expenses db) ≡ₚ e :: records (expenses db')) /\
    (records (expenses db') `sublist_of` records (expenses db)) /\
    (e ∉ records (expenses db')) /\
    deleteExpense owner (expense_key e) db' = (Rejected DepenseIntrouvable, db').
Proof.
  intros Hr He Ho. pose proof (reachable_ok db Hr) as (_ & (Hs & _ & _) & _).
  rewrite deleteExpense_eval, (find_by_key expense_key _ e Hs He).
  rewrite Ho, (proj2 (num_eqb_of_Z owner owner) eq_refl).
  eexists. split; [reflexivity|]. cbn [users expenses records keygen].
  split_and!; try done.
  - by apply filter_key_perm.
  - apply sublist_filter.
  - intros Hin. by apply list_elem_of_filter in Hin as [Hin _].
  - rewrite deleteExpense_eval. cbn [users expenses records keygen].
    rewrite find_no_key; [done|].
    intros x Hx. by apply list_elem_of_filter in Hx as [Hx _].
Qed.

Lemma step_keeps (db db' : database) :
  db_ok db -> step db db' ->
  (records (users db) `prefix_of` records (users db')) /\
  keygen (users db) <= keygen (users db') /\
  keygen (expenses db) <= keygen (expenses db') /\
  (forall e, e ∈ records (expenses db') -> expense_key e < keygen (expenses db) ->
             e ∈ records (expenses db)).
Proof.
  intros Hok Hstep. destruct Hstep as [t un pin db | t uid f db | uid k db].
  - destruct (createUser_state t un pin db) as [-> | [u ->]]; [done|].
    cbn [users expenses records keygen]. split_and!; try done; try lia.
    by apply prefix_app_r.
  - destruct (addExpense_state t uid f db) as [-> | [Hv ->]]; [done|].
    cbn [users expenses with_expense records keygen]. split_and!; try done; try lia.
    intros e He Hk. apply elem_of_app in He as [He | He]; [done|].
    apply list_elem_of_singleton in He as ->. cbn in Hk. lia.
  - destruct (deleteExpense_state uid k db) as [-> | ->]; [done|].
    cbn [users expenses records keygen]. split_and!; try done.
    intros e He _. by apply list_elem_of_filter in He as [_ He].
Qed.

(** X9.  Along the calls that follow a reachable state, no user is removed
    or changed and no key is given twice: the users of before are the first
    users of after; an expense of after whose key is below the generator of
    before is an expense of before, as it was; and the key that a later
    [addExpense] returns is above the key of every expense of before.  So
    [hasUsers], once true, stays true. *)
Theorem records_never_rewritten (db db' : database) :
  reachable db -> rtc step db db' ->
  (records (users db) `prefix_of` records (users db')) /\
  keygen (users db) <= keygen (users db') /\
  keygen (expenses db) <= keygen (expenses db') /\
  (forall e, e ∈ records (expenses db') -> expense_key e < keygen (expenses db) ->
             e ∈ records (expenses db)) /\
  (forall now userId f k db'',
     addExpense now userId f db' = (Resolved k, db'') ->
     forall e, e ∈ records (expenses db) -> expense_key e < k) /\
  ((hasUsers db).1 = Resolved true -> (hasUsers db').1 = Resolved true).
Proof.
  intros Hr Hsteps.
  assert ((records (users db) `prefix_of` records (users db')) /\
          keygen (users db) <= keygen (users db') /\
          keygen (expenses db) <= keygen (expenses db') /\
          (forall e, e ∈ records (expenses db') -> expense_key e < keygen (expenses db) ->
                     e ∈ records (expenses db))) as (Hp & Hu & He & Hold).
  { induction Hsteps as [db | db db1 db' Hs Hsteps IH]; [done|].
    destruct (step_keeps db db1 (reachable_ok db Hr) Hs) as (H1 & H2 & H3 & H4).
    destruct IH as (I1 & I2 & I3 & I4); [by eapply rtc_r|].
    split_and!; try lia.
    - by etrans.
    - intros e Hin Hk. apply H4; [|done]. apply I4; [done|lia]. }
  split_and!; try done.
  - intros now userId f k db'' Hadd e Hin.
    apply addExpense_Resolved in Hadd as (_ & -> & _).
    pose proof (reachable_ok db Hr) as (_ & (_ & Hb & _) & _).
    rewrite Forall_forall in Hb. specialize (Hb e Hin). cbn in Hb. lia.
  - unfold hasUsers, await, _count, resolve. cbn [objectStore_of fst].
    intros [= H0]. do 2 f_equal. apply Z.ltb_lt in H0. apply Z.ltb_lt.
    apply prefix_length in Hp. lia.
Qed.

(** ** One user's calls and the other users *)

Lemma same_for_filter (userId : Z) (db db' : database) :
  filter (owned_by userId) (records (expenses db')) =
    filter (owned_by userId) (records (expenses db)) ->
  same_for userId db db'.
Proof.
  intros Hf now period category_.
  assert (forall p c, (getExpenses now userId p c db').1 = (getExpenses now userId p c db).1)
    as Hget.
  { intros p c. rewrite !getExpenses_eval. cbn [fst]. by rewrite Hf. }
  split; [apply Hget|]. split; [|split].
  - unfold statsByCategory, await.
    specialize (Hget period (Some "Toutes"%string)).
    rewrite !getExpenses_eval in *. cbn [fst] in Hget. injection Hget as Hget.
    cbn [resolve fst]. by rewrite Hget.
  - unfold statsByDay, await.
    specialize (Hget period (Some "Toutes"%string)).
    rewrite !getExpenses_eval in *. cbn [fst] in Hget. injection Hget as Hget.
    cbn [resolve fst]. by rewrite Hget.
  - unfold statsByMonth, await, _getAllFromStore. cbn [objectStore_of resolve fst].
    erewrite (filter_ext_in _ (owned_by userId) (records (expenses db'))) by done.
    erewrite (filter_ext_in _ (owned_by userId) (records (expenses db))) by done.
    by rewrite Hf.
Qed.

Lemma num_of_Z_inj (a b : Z) : num_of_Z a = num_of_Z b -> a = b.
Proof. intros H. apply num_eqb_of_Z. rewrite H. by apply num_eqb_of_Z. Qed.

(** X10.  What a user is shown does not depend on what another user does:
    after [addExpense] or [deleteExpense] by another user, and after any
    [createUser], every listing and every statistic of the user is what it
    was. *)
Theorem other_user_unaffected (A B : Z) (db : database) :
  reachable db -> A <> B ->
  (forall now f, same_for A db (addExpense now B f db).2) /\
  (forall id, same_for A db (deleteExpense B id db).2) /\
  (forall now username_ pin, same_for A db (createUser now username_ pin db).2).
Proof.
  intros Hr Hne. pose proof (reachable_ok db Hr) as (_ & (Hs & _ & _) & Hok).
  split; [|split].
  - intros now f. apply same_for_filter.
    destruct (addExpense_state now B f db) as [-> | [Hv ->]]; [done|].
    cbn [expenses with_expense records]. rewrite filter_app, filter_cons, filter_nil.
    rewrite decide_False; [by rewrite app_nil_r|].
    unfold owned_by. cbn [user_id with_key expense_stored expense_record].
    by rewrite num_eqb_of_Z_neq by congruence.
  - intros id. apply same_for_filter. rewrite deleteExpense_eval.
    destruct (find _ _) as [e|] eqn:F; [|done].
    destruct (num_eqb _ _) eqn:E; [|done]. cbn [snd expenses records].
    pose proof (find_some _ _ F) as [He Hk]. apply Z.eqb_eq in Hk.
    rewrite list_filter_filter. apply filter_ext_in. intros x Hx.
    split; [by intros [? _]|]. intros Hx'. split; [done|]. intros Hkx.
    assert (x = e) as -> by (apply (key_unique expense_key _ x e Hs); [done| |lia];
                             by apply list_elem_of_In).
    rewrite Forall_forall in Hok.
    apply (owned_by_ok A e (Hok e Hx)) in Hx'.
    apply (owned_by_ok B e (Hok e Hx)) in E. rewrite Hx' in E.
    by apply num_of_Z_inj in E.
  - intros now username_ pin. apply same_for_filter.
    by destruct (createUser_state now username_ pin db) as [-> | [u ->]].
Qed.

(** ** The outcomes of the operations that write *)

(** X11.  The three outcomes of [createUser], in every database: a name
    whose trimmed lower case has fewer than two characters is rejected as
    too short; a name that a stored user has is rejected as taken; every
    other call resolves to the session of a new user, stored last under
    the next key with the digest of the PIN, after which [hasUsers] is
    true.  A rejected call leaves the database as it is, the write itself
    never fails, and no call touches the expenses. *)
Theorem createUser_outcome (now : Z) (username_ pin : string) (db : database) :
  let u := toLowerCase (trim username_) in
  let r := createUser now username_ pin db in
  (slength u < 2 -> r = (Rejected NomTropCourt, db)) /\
  (2 <= slength u -> u ∈ map username (records (users db)) ->
   r = (Rejected NomDejaUtilise, db)) /\
  (2 <= slength u -> u ∉ map username (records (users db)) ->
   r = (Resolved (mkSession (keygen (users db)) u),
        mkDB (mkStore (records (users db) ++
                         [mkUser (keygen (users db)) u (_hash pin) (num_of_Z now)])
                      (keygen (users db) + 1))
             (expenses db))) /\
  (forall e, r.1 = Rejected e -> r.2 = db /\ (e = NomTropCourt \/ e = NomDejaUtilise)) /\
  (forall s, r.1 = Resolved s -> (hasUsers r.2).1 = Resolved true) /\
  expenses r.2 = expenses db.
Proof.
  intros u r. unfold r. rewrite createUser_eval. fold u.
  destruct (slength u <? 2) eqn:El.
  - apply Z.ltb_lt in El. split_and!; try done; try lia.
    intros e [= <-]. split; [done|by left].
  - apply Z.ltb_ge in El. case_bool_decide as Ein.
    + split_and!; try done; try lia. intros e [= <-]. split; [done|by right].
    + split_and!; try done; try lia.
      intros s _. unfold hasUsers, await, _count, resolve.
      cbn [snd fst objectStore_of users records]. do 2 f_equal.
      apply Z.ltb_lt. rewrite length_app. cbn [length]. lia.
Qed.

(** X12.  The outcomes of [addExpense] in a reachable database: with a
    name that is not blank, an amount above zero and a date, the call
    resolves to the key that the generator held, and the record is stored
    last under that key; every other call is rejected for the first of the
    name, the amount and the date that fails, and leaves the database as
    it is.  The check of the returned key and the write never fail. *)
Theorem addExpense_outcome (now userId : Z) (f : expenseFields) (db : database) :
  reachable db ->
  let r := addExpense now userId f db in
  (valid_fields f ->
   r = (Resolved (keygen (expenses db)), with_expense db (expense_record now userId f))) /\
  (name_missing (in_name f) = true -> r = (Rejected NomRequis, db)) /\
  (name_missing (in_name f) = false -> num_gtb (ToNumber (in_amount f)) zero = false ->
   r = (Rejected MontantInvalide, db)) /\
  (name_missing (in_name f) = false -> num_gtb (ToNumber (in_amount f)) zero = true ->
   str_truthy (default EmptyString (in_date f)) = false ->
   r = (Rejected DateRequise, db)) /\
  (forall e, r.1 = Rejected e -> r.2 = db /\ is_validation_error e = true) /\
  users r.2 = users db.
Proof.
  intros Hr r. pose proof (reachable_ok db Hr) as (_ & (_ & _ & Hg) & _).
  assert (keygen (expenses db) <> 0) as Hk by lia.
  unfold r. split_and!.
  - intros Hv. by apply addExpense_valid.
  - intros Hn. unfold addExpense. by rewrite Hn.
  - intros Hn Ha. unfold addExpense. by rewrite Hn, Ha.
  - intros Hn Ha Hd. unfold addExpense. by rewrite Hn, Ha, Hd.
  - intros e He. destruct (decide (valid_fields f)) as [Hv|Hv].
    + rewrite (addExpense_valid now userId f db Hv Hk) in He. done.
    + destruct (addExpense_invalid now userId f db Hv) as (e' & Heq & Hval).
      rewrite Heq in *. cbn in He. injection He as <-. done.
  - by destruct (addExpense_state now userId f db) as [-> | [Hv ->]].
Qed.

(** ** The digest of a PIN *)

Lemma hex_digit_hex (n : Z) : 0 <= n < 16 -> is_hex (hex_digit n) = true.
Proof.
  intros Hn. rewrite <- (Z2Nat.id n) by lia.
  assert (Z.to_nat n < 16)%nat as Hk by lia.
  revert Hk. generalize (Z.to_nat n). clear Hn. intros k Hk.
  do 16 (destruct k as [|k]; [reflexivity|]). lia.
Qed.

Lemma be_bytes_bytes (n : nat) (x : Z) :
  length (Sha256.be_bytes n x) = n /\ Forall (fun b => 0 <= b < 256) (Sha256.be_bytes n x).
Proof.
  unfold Sha256.be_bytes. split.
  - by rewrite length_map, length_rev, length_seq.
  - apply Forall_forall. intros b Hb. apply list_elem_of_fmap in Hb as (i & -> & _).
    apply Z.mod_pos_bound. lia.
Qed.

Lemma digest_bytes (msg : list Z) :
  length (Sha256.digest msg) = 32%nat /\
  Forall (fun b => 0 <= b < 256) (Sha256.digest msg).
Proof.
  unfold Sha256.digest.
  destruct (fold_left _ _ _) as [[[[[[[a b] c] d] e] f] g] h].
  cbn [map concat]. rewrite !length_app, app_nil_r.
  rewrite !(proj1 (be_bytes_bytes 4 _)). split; [done|].
  rewrite !Forall_app. split_and!; apply be_bytes_bytes.
Qed.

Lemma hex_bytes_hex (l : list Z) :
  Forall (fun b => 0 <= b < 256) l ->
  length (concat (map hex_byte l)) = (2 * length l)%nat /\
  Forall (fun c => is_hex c = true) (concat (map hex_byte l)).
Proof.
  induction 1 as [|b l Hb _ [IH1 IH2]]; [by split|].
  cbn [map concat hex_byte app length]. split; [lia|].
  constructor; [|constructor; [|done]]; apply hex_digit_hex.
  - split; [apply Z.div_pos; lia|apply Z.div_lt_upper_bound; lia].
  - apply Z.mod_pos_bound. lia.
Qed.

Lemma length_str (l : list ascii) : String.length (str l) = length l.
Proof. induction l as [|c l IH]; [done|]. cbn. by rewrite <- IH. Qed.

(** X13.  The digest that [_hash] gives for a PIN, whatever the PIN: 64
    characters, each a digit of lower-case hexadecimal. *)
Theorem hash_shape (pin : string) :
  slength (_hash pin) = 64 /\ Forall (fun c => is_hex c = true) (chars (_hash pin)).
Proof.
  unfold _hash. destruct (digest_bytes (encode ("bp_v5_salt_" +:+ pin))) as [Hl Hb].
  destruct (hex_bytes_hex _ Hb) as [H1 H2]. rewrite Hl in H1.
  unfold slength. rewrite str_chars, length_str, H1. by split.
Qed.

(** ** The statistics by day *)

Lemma code_inj (x y : ascii) : code x = code y -> x = y.
Proof.
  unfold code. intros H. apply Nat2Z.inj in H.
  by rewrite <- (ascii_nat_embedding x), <- (ascii_nat_embedding y), H.
Qed.

Lemma compare_chars_eq (a b : list ascii) : compare_chars a b = Eq -> a = b.
Proof.
  revert b. induction a as [|x a IH]; intros [|y b]; cbn [compare_chars]; try done.
  destruct (code x ?= code y) eqn:E; try done.
  apply Z.compare_eq in E. apply code_inj in E as ->. intros H. f_equal. by apply IH.
Qed.

Lemma str_compare_eq (a b : string) : str_compare a b = Eq -> a = b.
Proof. intros H. by apply chars_inj, compare_chars_eq. Qed.

Lemma SortCompare_gtb (x y : string) :
  num_gtb (SortCompare x y) zero = true <-> str_compare x y = Gt.
Proof. unfold SortCompare. by destruct (str_compare x y). Qed.

(** The strings that the default sort has put in order ascend. *)
Lemma sort_default_sorted (l : list string) :
  StronglySorted (fun a b => str_compare a b <> Gt) (sort SortCompare l).
Proof.
  apply (sort_sorted SortCompare (fun a b => str_compare a b <> Gt) (fun _ => True)).
  - intros x y z Hxy Hyz.
    rewrite (oc_antisym _ order_compare_str) in Hxy, Hyz |- *.
    assert (str_compare z x <> Lt) as H.
    { apply (oc_not_lt_trans _ order_compare_str z y x).
      - by destruct (str_compare z y).
      - by destruct (str_compare y x). }
    by destruct (str_compare z x).
  - intros x y _ _ E. apply SortCompare_gtb in E.
    rewrite (oc_antisym _ order_compare_str), E. done.
  - intros x y _ _ E Hgt. apply SortCompare_gtb in Hgt. congruence.
  - by apply Forall_forall.
Qed.

Lemma sorted_strict (l : list string) :
  NoDup l -> StronglySorted (fun a b => str_compare a b <> Gt) l ->
  StronglySorted (fun a b => str_compare a b = Lt) l.
Proof.
  induction l as [|x l IH]; intros Hnd Hs; [constructor|].
  apply NoDup_cons in Hnd as [Hx Hnd]. apply StronglySorted_inv in Hs as [Hs Hall].
  constructor; [by apply IH|].
  rewrite Forall_forall in Hall |- *. intros y Hy. specialize (Hall y Hy).
  destruct (str_compare x y) eqn:E; try done.
  apply str_compare_eq in E as ->. done.
Qed.

(** The loop of an accumulator with [(acc[k] || 0) + amount], over
    expenses none of whose keys is the name of an inherited member. *)
Lemma keyed_fold (key : expense -> string) (l : list expense) :
  Forall (fun e => key e ∉ Object_prototype) l ->
  Forall (fun e => stored_amount (amount e)) l ->
  forall (acc : gmap string propval) (v : string -> option num),
  (forall c, acc !! c = PNum <$> v c) ->
  (forall c x, v c = Some x -> canonical x /\ stored_amount x) ->
  forall c,
    fold_left (fun m e => obj_set m (key e) (or0_plus (obj_get m (key e)) (amount e)))
              l acc !! c =
      match amounts (fun e => key e = c) l with
      | [] => PNum <$> v c
      | a => Some (PNum (fold_left num_add a (default zero (v c))))
      end.
Proof.
  induction l as [|e l IH]; intros Hc Ha acc v Hacc Hv c; [by apply Hacc|].
  apply Forall_cons in Hc as [Hce Hc]. apply Forall_cons in Ha as [Hae Ha].
  cbn [fold_left]. unfold amounts. rewrite filter_cons.
  set (x0 := default zero (v (key e))).
  assert (canonical x0 /\ stored_amount x0) as [Hx0c Hx0s].
  { unfold x0. destruct (v (key e)) as [x|] eqn:E; [by apply (Hv _ _ E)|done]. }
  assert (obj_set acc (key e) (or0_plus (obj_get acc (key e)) (amount e)) =
          <[key e := PNum (num_add x0 (amount e))]> acc) as ->.
  { unfold obj_set, obj_get.
    rewrite bool_decide_eq_false_2
      by (intros E; apply Hce; rewrite E; apply (bool_decide_unpack _); by vm_compute).
    rewrite Hacc. unfold x0. destruct (v (key e)) as [x|] eqn:E;
      cbn [fmap option_fmap option_map or0_plus default from_option id].
    - destruct (Hv _ _ E) as [Hxc [Hxn _]]. by rewrite (num_or_zero x Hxc Hxn).
    - by rewrite (bool_decide_eq_false_2 _ Hce). }
  rewrite (IH Hc Ha _
    (fun c => if decide (key e = c) then Some (num_add x0 (amount e)) else v c)).
  - destruct (decide (key e = c)) as [<-|Hne]; [|done]. cbn [map default from_option id].
    fold x0. unfold amounts. by destruct (map amount _).
  - intros c0. destruct (decide (key e = c0)) as [<-|Hne].
    + apply lookup_insert_eq.
    + rewrite lookup_insert_ne by done. apply Hacc.
  - intros c0 x. destruct (decide (key e = c0)) as [<-|Hne]; [|apply Hv].
    intros [= <-]. split; [apply num_add_canonical|by apply stored_amount_add].
Qed.

Lemma amounts_nil (P : expense -> Prop) `{!forall e, Decision (P e)} (l : list expense) :
  amounts P l = [] <-> forall e, e ∈ l -> ~ P e.
Proof.
  unfold amounts. split.
  - intros Hnil e He HP.
    assert (amount e ∈ map amount (filter P l)) as Hin
      by (by apply list_elem_of_fmap_2, list_elem_of_filter).
    rewrite Hnil in Hin. by apply elem_of_nil in Hin.
  - intros Hno. by rewrite (filter_none P l).
Qed.

Lemma amounts_cons (P : expense -> Prop) `{!forall e, Decision (P e)} (l : list expense)
    (a : num) (r : list num) :
  amounts P l = a :: r -> exists e, e ∈ l /\ P e.
Proof.
  unfold amounts. destruct (filter P l) as [|e l'] eqn:F; [done|]. intros _.
  assert (e ∈ filter P l) as Hin by (rewrite F; left).
  apply list_elem_of_filter in Hin as [HP Hin]. by exists e.
Qed.

Lemma renderList_total_amounts (l : list expense) :
  renderList_total l = total (map amount l).
Proof.
  unfold renderList_total, total. generalize zero.
  induction l as [|e l IH]; intros z; [done|]. apply IH.
Qed.

(** X14.  What [statsByDay] resolves to when no date of the store is the
    name of a member of [Object.prototype]: one point for each date of a
    listed expense, the dates ascending and each once; the value of a point
    is the sum of the amounts of the listed expenses of that date, added
    in the order of the listing; and when the listed amounts are whole
    numbers that add up to less than [2 ^ 53], the values add up to the
    total that the list of the same expenses shows. *)
Theorem statsByDay_series (now userId : Z) (period : option string) (db : database) :
  reachable db ->
  (forall e, e ∈ records (expenses db) -> date e ∉ Object_prototype) ->
  exists l dates,
    getExpenses now userId period (Some "Toutes"%string) db = (Resolved l, db) /\
    statsByDay now userId period db =
      (Resolved
         {| labels := map day_label dates;
            data := map (fun d => Own (PNum (total (amounts (fun e => date e = d) l))))
                        dates |},
       db) /\
    StronglySorted (fun a b => str_compare a b = Lt) dates /\
    (forall d, d ∈ dates <-> exists e, e ∈ l /\ date e = d) /\
    (whole_amounts (map amount l) ->
     total (map (fun d => total (amounts (fun e => date e = d) l)) dates) =
       renderList_total l).
Proof.
  intros Hr Hdate. apply reachable_ok in Hr as (_ & _ & Hok).
  unfold statsByDay, await. rewrite getExpenses_eval.
  set (L := sort by_recency _).
  assert (forall e, e ∈ L -> e ∈ records (expenses db)) as Hsub.
  { intros e He. unfold L in He. rewrite sort_perm in He.
    do 3 apply list_elem_of_filter in He as [_ He]. done. }
  assert (Forall (fun e => date e ∉ Object_prototype) L) as HD.
  { apply Forall_forall. intros e He. by apply Hdate, Hsub. }
  assert (Forall (fun e => stored_amount (amount e)) L) as HA.
  { apply Forall_forall. intros e He. rewrite Forall_forall in Hok.
    by destruct (Hok e (Hsub e He)). }
  set (m := fold_left _ L ∅).
  assert (forall d, m !! d =
            match amounts (fun e => date e = d) L with
            | [] => None
            | a => Some (PNum (total a))
            end) as Hm.
  { intros d. unfold m. by rewrite (keyed_fold date L HD HA ∅ (fun _ => None)). }
  assert (forall d, d ∈ Object_keys m <-> exists e, e ∈ L /\ date e = d) as Hkeys.
  { intros d. unfold Object_keys. split.
    - intros Hd. apply list_elem_of_fmap in Hd as ([d' v] & -> & Hin).
      apply elem_of_map_to_list in Hin. cbn [fst]. rewrite Hm in Hin.
      destruct (amounts (fun e => date e = d') L) as [|a r] eqn:Ea; [done|].
      by apply amounts_cons in Ea.
    - intros (e & He & Hd).
      destruct (m !! d) as [v|] eqn:E.
      + apply elem_of_map_to_list in E. by apply (list_elem_of_fmap_2 fst) in E.
      + rewrite Hm in E.
        destruct (amounts (fun e => date e = d) L) eqn:Ea; [|done].
        by destruct (proj1 (amounts_nil (fun e => date e = d) L) Ea e He). }
  set (dates := sort SortCompare (Object_keys m)).
  assert (forall d, d ∈ dates <-> exists e, e ∈ L /\ date e = d) as Hdates.
  { intros d. unfold dates. rewrite sort_perm. apply Hkeys. }
  assert (NoDup dates) as Hnd.
  { unfold dates. rewrite sort_perm. apply NoDup_fst_map_to_list. }
  exists L, dates. split; [done|]. split; [|split; [|split]].
  - unfold resolve. do 3 f_equal. apply map_ext_in. intros d Hd.
    apply list_elem_of_In, Hdates in Hd as (e & He & Hd).
    unfold obj_get. rewrite Hm.
    destruct (amounts (fun e => date e = d) L) eqn:Ea; [|done].
    by destruct (proj1 (amounts_nil (fun e => date e = d) L) Ea e He).
  - apply sorted_strict; [done|apply sort_default_sorted].
  - done.
  - intros Hw. rewrite (total_by_key date dates L Hnd Hw), renderList_total_amounts.
    unfold amounts. rewrite filter_all_in; [done|].
    intros e He. apply Hdates. by exists e.
Qed.

(** ** The dates that the pages write and show *)

Lemma split3 (y m d : string) :
  "-"%char ∉ chars y -> "-"%char ∉ chars m -> "-"%char ∉ chars d ->
  split "-" (y +:+ "-" +:+ m +:+ "-" +:+ d) = [y; m; d].
Proof.
  intros Hy Hm Hd. unfold split. rewrite !chars_app.
  change (chars "-") with ["-"%char]. cbn [app].
  rewrite split_chars_first by done. rewrite split_chars_first by done.
  rewrite split_chars_plain by done. cbn [rev app map]. by rewrite !chars_str.
Qed.

Lemma padStart2_no_hyphen (s : string) :
  "-"%char ∉ chars s -> "-"%char ∉ chars (padStart2 s).
Proof.
  destruct s as [|c [|c' s]]; cbn [padStart2]; try done.
  - intros _. apply (bool_decide_unpack _). by vm_compute.
  - intros H. cbn in *. apply not_elem_of_cons. split; [done|exact H].
Qed.

Lemma getDate_range (t : Z) : 1 <= getDate t <= 31.
Proof.
  unfold getDate. pose proof (civil_range (Day t)) as H.
  destruct (civil_from_days (Day t)) as [[y m] d]. cbn. lia.
Qed.

(** ** The order of the dates *)

Lemma check_next_all (doe : Z) : 0 <= doe < 146096 -> check_next doe = true.
Proof.
  intros H. apply (proj2 (all_from_spec check_next 0 146096)); [|lia].
  by vm_compute.
Qed.

Lemma ord_civil_era (era doe : Z) :
  ord_civil (civil_of_doe era doe) = ord_civil (civil_of_doe 0 doe) + era * 148800.
Proof.
  rewrite civil_of_doe_era. destruct (civil_of_doe 0 doe) as [[y m] d].
  unfold ord_civil. cbn. lia.
Qed.

Lemma ord_civil_next (d : Z) :
  ord_civil (civil_from_days d) < ord_civil (civil_from_days (d + 1)).
Proof.
  rewrite (civil_from_days_era d), (civil_from_days_era (d + 1)).
  set (z := d + 719468). replace (d + 1 + 719468) with (z + 1) by lia.
  rewrite (ord_civil_era (z / 146097)), (ord_civil_era ((z + 1) / 146097)).
  destruct (decide (z mod 146097 = 146096)) as [E|E].
  - assert ((z + 1) / 146097 = z / 146097 + 1 /\ (z + 1) mod 146097 = 0) as [-> ->]
      by (Z.div_mod_to_equations; lia).
    rewrite E. vm_compute (ord_civil (civil_of_doe 0 146096)).
    vm_compute (ord_civil (civil_of_doe 0 0)). lia.
  - assert ((z + 1) / 146097 = z / 146097 /\ (z + 1) mod 146097 = z mod 146097 + 1)
      as [-> ->] by (Z.div_mod_to_equations; lia).
    assert (0 <= z mod 146097 < 146096) as Hr by (Z.div_mod_to_equations; lia).
    pose proof (check_next_all _ Hr) as Hc. unfold check_next in Hc.
    apply Z.ltb_lt in Hc. lia.
Qed.

Lemma ord_civil_mono (d d' : Z) :
  d < d' -> ord_civil (civil_from_days d) < ord_civil (civil_from_days d').
Proof.
  intros Hlt. replace d' with (d + 1 + Z.of_nat (Z.to_nat (d' - d - 1))) by lia.
  generalize (Z.to_nat (d' - d - 1)). intros n. induction n as [|n IH].
  - rewrite Z.add_0_r. apply ord_civil_next.
  - replace (d + 1 + Z.of_nat (S n)) with (d + 1 + Z.of_nat n + 1) by lia.
    pose proof (ord_civil_next (d + 1 + Z.of_nat n)). lia.
Qed.

Lemma ord_civil_compare (d d' : Z) :
  (ord_civil (civil_from_days d) ?= ord_civil (civil_from_days d')) = (d ?= d').
Proof.
  destruct (Z.compare_spec d d') as [-> | H | H].
  - apply Z.compare_refl.
  - apply Z.compare_lt_iff. by apply ord_civil_mono.
  - apply Z.compare_gt_iff. by apply ord_civil_mono.
Qed.

(** The years of the dates from the epoch to the end of the year 9999 *)
Lemma getFullYear_range (t : Z) : 0 <= t < Y10K -> 1970 <= getFullYear t <= 9999.
Proof.
  intros Ht. unfold getFullYear.
  assert (0 <= Day t < 2932897) as Hd.
  { unfold Day, Y10K, msPerDay in *. vm_compute (days_from_civil 10000 1 1) in Ht.
    Z.div_mod_to_equations. lia. }
  pose proof (civil_range (Day t)) as Hr.
  assert (ord_civil (civil_from_days 0) <= ord_civil (civil_from_days (Day t))) as H0.
  { destruct (decide (Day t = 0)) as [-> | Hne]; [done|].
    apply Z.lt_le_incl, ord_civil_mono. lia. }
  assert (ord_civil (civil_from_days (Day t)) < ord_civil (civil_from_days 2932897)) as H1
    by (apply ord_civil_mono; lia).
  vm_compute (ord_civil (civil_from_days 0)) in H0.
  vm_compute (ord_civil (civil_from_days 2932897)) in H1.
  destruct (civil_from_days (Day t)) as [[y m] d]. unfold ord_civil in *. cbn in *. lia.
Qed.

Lemma code_digit (n : Z) : 0 <= n <= 9 -> code (digit n) = 48 + n.
Proof.
  intros Hn. unfold code, digit. rewrite nat_ascii_embedding by lia. lia.
Qed.

Lemma compare_digit (a b : Z) :
  0 <= a <= 9 -> 0 <= b <= 9 -> (code (digit a) ?= code (digit b)) = (a ?= b).
Proof. intros Ha Hb. rewrite !code_digit by done. apply Z.add_compare_mono_l. Qed.

Lemma compare_chars_app (a a' r r' : list ascii) :
  length a = length a' ->
  compare_chars (a ++ r) (a' ++ r') =
    match compare_chars a a' with Eq => compare_chars r r' | c => c end.
Proof.
  revert a'. induction a as [|x a IH]; intros [|y a'] Hl; try done.
  cbn [app compare_chars]. destruct (code x ?= code y); try done.
  apply IH. by injection Hl.
Qed.

Lemma check_year_all (y : Z) : 1000 <= y <= 9999 -> check_year y = true.
Proof.
  intros H. apply (proj2 (all_from_spec check_year 1000 9000)); [|lia].
  by vm_compute.
Qed.

Lemma check_two_all (n : Z) : 1 <= n <= 31 -> check_two n = true.
Proof.
  intros H. apply (proj2 (all_from_spec check_two 1 31)); [|lia].
  by vm_compute.
Qed.

Lemma compare_year (y y' : Z) :
  1000 <= y <= 9999 -> 1000 <= y' <= 9999 ->
  compare_chars (chars (string_of_Z y)) (chars (string_of_Z y')) = (y ?= y').
Proof.
  intros Hy Hy'.
  pose proof (check_year_all y Hy) as E. pose proof (check_year_all y' Hy') as E'.
  apply bool_decide_eq_true in E, E'. rewrite E, E'. cbn [compare_chars].
  rewrite !compare_digit by (Z.div_mod_to_equations; lia).
  symmetry.
  destruct (Z.compare_spec (y / 1000) (y' / 1000)) as [E3|E3|E3];
    [|apply Z.compare_lt_iff; Z.div_mod_to_equations; lia
     |apply Z.compare_gt_iff; Z.div_mod_to_equations; lia].
  destruct (Z.compare_spec (y / 100 mod 10) (y' / 100 mod 10)) as [E2|E2|E2];
    [|apply Z.compare_lt_iff; Z.div_mod_to_equations; lia
     |apply Z.compare_gt_iff; Z.div_mod_to_equations; lia].
  destruct (Z.compare_spec (y / 10 mod 10) (y' / 10 mod 10)) as [E1|E1|E1];
    [|apply Z.compare_lt_iff; Z.div_mod_to_equations; lia
     |apply Z.compare_gt_iff; Z.div_mod_to_equations; lia].
  destruct (Z.compare_spec (y mod 10) (y' mod 10)) as [E0|E0|E0];
    [apply Z.compare_eq_iff|apply Z.compare_lt_iff|apply Z.compare_gt_iff];
    Z.div_mod_to_equations; lia.
Qed.

Lemma compare_two (n n' : Z) :
  1 <= n <= 31 -> 1 <= n' <= 31 ->
  compare_chars (chars (padStart2 (string_of_Z n))) (chars (padStart2 (string_of_Z n')))
    = (n ?= n').
Proof.
  intros Hn Hn'.
  pose proof (check_two_all n Hn) as E. pose proof (check_two_all n' Hn') as E'.
  apply bool_decide_eq_true in E, E'. rewrite E, E'. cbn [compare_chars].
  rewrite !compare_digit by (Z.div_mod_to_equations; lia).
  symmetry.
  destruct (Z.compare_spec (n / 10) (n' / 10)) as [E1|E1|E1];
    [|apply Z.compare_lt_iff; Z.div_mod_to_equations; lia
     |apply Z.compare_gt_iff; Z.div_mod_to_equations; lia].
  destruct (Z.compare_spec (n mod 10) (n' mod 10)) as [E0|E0|E0];
    [apply Z.compare_eq_iff|apply Z.compare_lt_iff|apply Z.compare_gt_iff];
    Z.div_mod_to_equations; lia.
Qed.

Lemma length_year (y : Z) : 1000 <= y <= 9999 -> length (chars (string_of_Z y)) = 4%nat.
Proof.
  intros Hy. pose proof (check_year_all y Hy) as E.
  apply bool_decide_eq_true in E. by rewrite E.
Qed.

Lemma length_two (n : Z) :
  1 <= n <= 31 -> length (chars (padStart2 (string_of_Z n))) = 2%nat.
Proof.
  intros Hn. pose proof (check_two_all n Hn) as E.
  apply bool_decide_eq_true in E. by rewrite E.
Qed.

Lemma _ds_chars (t : Z) :
  chars (_ds t) =
    chars (string_of_Z (getFullYear t)) ++ "-"%char ::
    chars (padStart2 (string_of_Z (getMonth t + 1))) ++ "-"%char ::
    chars (padStart2 (string_of_Z (getDate t))).
Proof. unfold _ds. by rewrite !chars_app. Qed.

(** From the epoch to the end of the year 9999, the texts of two dates
    compare as their days do. *)
Lemma _ds_compare (t t' : Z) :
  0 <= t < Y10K -> 0 <= t' < Y10K ->
  str_compare (_ds t) (_ds t') = (Day t ?= Day t').
Proof.
  intros Ht Ht'. pose proof (getFullYear_range t Ht) as Hy.
  pose proof (getFullYear_range t' Ht') as Hy'.
  pose proof (getMonth_range t) as Hm. pose proof (getMonth_range t') as Hm'.
  pose proof (getDate_range t) as Hd. pose proof (getDate_range t') as Hd'.
  unfold str_compare. rewrite !_ds_chars.
  rewrite compare_chars_app by (rewrite !length_year by lia; done).
  rewrite compare_year by lia. cbn [compare_chars].
  change (code "-" ?= code "-") with Eq. cbn match.
  rewrite compare_chars_app by (rewrite !length_two by lia; done).
  rewrite compare_two by lia. cbn [compare_chars].
  change (code "-" ?= code "-") with Eq. cbn match.
  rewrite compare_two by lia.
  rewrite <- (ord_civil_compare (Day t) (Day t')).
  unfold getFullYear, getMonth, getDate in *.
  destruct (civil_from_days (Day t)) as [[y m] d].
  destruct (civil_from_days (Day t')) as [[y' m'] d']. unfold ord_civil. cbn in *.
  symmetry.
  destruct (Z.compare_spec y y') as [Ey|Ey|Ey];
    [|apply Z.compare_lt_iff; lia|apply Z.compare_gt_iff; lia].
  destruct (Z.compare_spec (m - 1 + 1) (m' - 1 + 1)) as [Em|Em|Em];
    [|apply Z.compare_lt_iff; lia|apply Z.compare_gt_iff; lia].
  destruct (Z.compare_spec d d') as [Ed|Ed|Ed];
    [apply Z.compare_eq_iff|apply Z.compare_lt_iff|apply Z.compare_gt_iff]; lia.
Qed.

(** ** The periods of a listing *)

Lemma compare_chars_refl (a : list ascii) : compare_chars a a = Eq.
Proof.
  induction a as [|x a IH]; [done|]. cbn [compare_chars].
  by rewrite Z.compare_refl.
Qed.

Lemma Day_sub (t k : Z) : Day (t - k * 86400000) = Day t - k.
Proof. unfold Day, msPerDay. Z.div_mod_to_equations. lia. Qed.

Lemma _ds_Day (t t' : Z) : Day t = Day t' -> _ds t = _ds t'.
Proof. intros H. unfold _ds, getFullYear, getMonth, getDate. by rewrite H. Qed.

Lemma _ds_eq (t t' : Z) :
  0 <= t < Y10K -> 0 <= t' < Y10K -> _ds t = _ds t' <-> Day t = Day t'.
Proof.
  intros Ht Ht'. split; [|apply _ds_Day].
  intros E. apply Z.compare_eq. rewrite <- (_ds_compare t t') by done.
  unfold str_compare. rewrite E. apply compare_chars_refl.
Qed.

Lemma _ds_geb (t t' : Z) :
  0 <= t < Y10K -> 0 <= t' < Y10K -> str_geb (_ds t) (_ds t') = true <-> Day t' <= Day t.
Proof.
  intros Ht Ht'. unfold str_geb. rewrite _ds_compare by done.
  destruct (Z.compare_spec (Day t) (Day t')); split; try done; lia.
Qed.

Lemma year_inj (y y' : Z) :
  1000 <= y <= 9999 -> 1000 <= y' <= 9999 ->
  chars (string_of_Z y) = chars (string_of_Z y') -> y = y'.
Proof.
  intros Hy Hy' E. apply Z.compare_eq. rewrite <- compare_year by done.
  rewrite E. apply compare_chars_refl.
Qed.

Lemma two_inj (n n' : Z) :
  1 <= n <= 31 -> 1 <= n' <= 31 ->
  chars (padStart2 (string_of_Z n)) = chars (padStart2 (string_of_Z n')) -> n = n'.
Proof.
  intros Hn Hn' E. apply Z.compare_eq. rewrite <- compare_two by done.
  rewrite E. apply compare_chars_refl.
Qed.

Lemma slice0_7_ds (t : Z) :
  0 <= t < Y10K ->
  chars (slice0 7 (_ds t)) =
    chars (string_of_Z (getFullYear t)) ++ "-"%char ::
    chars (padStart2 (string_of_Z (getMonth t + 1))).
Proof.
  intros Ht. pose proof (getFullYear_range t Ht) as Hy.
  pose proof (getMonth_range t) as Hm.
  unfold slice0. rewrite str_chars, _ds_chars.
  assert (length (chars (string_of_Z (getFullYear t))) = 4%nat) as Ly
    by (apply length_year; lia).
  assert (length (chars (padStart2 (string_of_Z (getMonth t + 1)))) = 2%nat) as Lm
    by (apply length_two; lia).
  destruct (chars (string_of_Z (getFullYear t))) as [|a [|b [|c [|d [|]]]]];
    try (cbn in Ly; lia).
  destruct (chars (padStart2 (string_of_Z (getMonth t + 1)))) as [|e [|g [|]]];
    try (cbn in Lm; lia).
  reflexivity.
Qed.

Lemma slice0_4_ds (t : Z) :
  0 <= t < Y10K -> chars (slice0 4 (_ds t)) = chars (string_of_Z (getFullYear t)).
Proof.
  intros Ht. pose proof (getFullYear_range t Ht) as Hy.
  unfold slice0. rewrite str_chars, _ds_chars.
  assert (length (chars (string_of_Z (getFullYear t))) = 4%nat) as Ly
    by (apply length_year; lia).
  destruct (chars (string_of_Z (getFullYear t))) as [|a [|b [|c [|d [|]]]]];
    try (cbn in Ly; lia).
  reflexivity.
Qed.

Lemma monday_day (now : Z) :
  getDay (monday now) = 1 /\ Day now - 6 <= Day (monday now) <= Day now.
Proof.
  unfold monday. pose proof (Z.mod_pos_bound (Day now + 4) 7 eq_refl) as Hr.
  unfold getDay in *. destruct (_ =? 0) eqn:E.
  - apply Z.eqb_eq in E. rewrite Day_sub. split; [|lia].
    Z.div_mod_to_equations. lia.
  - apply Z.eqb_neq in E. rewrite Day_sub. split; [|lia].
    Z.div_mod_to_equations. lia.
Qed.

Lemma monday_range (now : Z) : 6 * msPerDay <= now < Y10K -> 0 <= monday now < Y10K.
Proof.
  intros Hn. unfold monday. pose proof (Z.mod_pos_bound (Day now + 4) 7 eq_refl) as Hr.
  unfold getDay, msPerDay in *. destruct (_ =? 0) eqn:E.
  - lia.
  - apply Z.eqb_neq in E. lia.
Qed.

(** X15.  Three periods of [getExpenses], on the date that the date
    field writes for a moment [t], from the epoch to the end of the year
    9999: 'today' is the day of the clock, 'month' is its month of its
    year, and 'year' is its year. *)
Theorem in_period_days (now t : Z) :
  0 <= now < Y10K -> 0 <= t < Y10K ->
  (in_period now "today" (_ds t) = true <-> Day t = Day now) /\
  (in_period now "month" (_ds t) = true <->
     getFullYear t = getFullYear now /\ getMonth t = getMonth now) /\
  (in_period now "year" (_ds t) = true <-> getFullYear t = getFullYear now).
Proof.
  intros Hn0 Ht.
  pose proof (getFullYear_range t Ht) as Hy.
  pose proof (getFullYear_range now Hn0) as Hy'.
  pose proof (getMonth_range t) as Hm. pose proof (getMonth_range now) as Hm'.
  split_and!.
  - rewrite in_period_today. by apply _ds_eq.
  - change (in_period now "month" (_ds t))
      with (bool_decide (slice0 7 (_ds t) = slice0 7 (_ds now))).
    rewrite bool_decide_eq_true. split.
    + intros E. apply (f_equal chars) in E. rewrite !slice0_7_ds in E by done.
      apply app_inj_1 in E as [E1 E2]; [|by rewrite !length_year by lia].
      injection E2 as E2. apply year_inj in E1; [|lia|lia].
      apply two_inj in E2; [|lia|lia]. split; [done|lia].
    + intros [E1 E2]. apply chars_inj. rewrite !slice0_7_ds by done. by rewrite E1, E2.
  - change (in_period now "year" (_ds t))
      with (bool_decide (slice0 4 (_ds t) = slice0 4 (_ds now))).
    rewrite bool_decide_eq_true. split.
    + intros E. apply (f_equal chars) in E. rewrite !slice0_4_ds in E by done.
      apply year_inj in E; [done|lia|lia].
    + intros E. apply chars_inj. rewrite !slice0_4_ds by done. by rewrite E.
Qed.

Lemma slice0_4_7 (d d' : string) : slice0 7 d = slice0 7 d' -> slice0 4 d = slice0 4 d'.
Proof.
  unfold slice0. intros E. apply (f_equal chars) in E. rewrite !str_chars in E.
  f_equal.
  change 4%nat with (4 `min` 7)%nat.
  rewrite <- (take_take (chars d) 4 7), <- (take_take (chars d') 4 7). by rewrite E.
Qed.

(** X16.  The listings nest: from the sixth day after the epoch to the end
    of the year 9999, an expense that the listing of 'today' has is in
    the listings of '3days', 'week', 'month' and 'year' of the same owner
    and category, and one that the listing of 'month' has is in that of
    'year'; every listing is part of the listing of 'all'. *)
Theorem listings_nest (now userId : Z) (category_ : option string) (db : database)
    (e : expense) :
  6 * msPerDay <= now < Y10K ->
  let listed period :=
    exists l, getExpenses now userId (Some period) category_ db = (Resolved l, db) /\ e ∈ l in
  (listed "today"%string ->
   listed "3days"%string /\ listed "week"%string /\ listed "month"%string) /\
  (listed "month"%string -> listed "year"%string) /\
  (forall period, listed period -> listed "all"%string).
Proof.
  intros Hn listed.
  assert (0 <= now < Y10K) as Hn0 by (unfold msPerDay in Hn; lia).
  assert (forall p q : string,
            (in_period now p (date e) = true -> in_period now q (date e) = true) ->
            listed p -> listed q) as Hpq.
  { intros p q Himp (l & Hl & He). rewrite getExpenses_eval in Hl.
    injection Hl as <-. rewrite sort_perm in He.
    apply list_elem_of_filter in He as [Hc He].
    apply list_elem_of_filter in He as [Hp He]. cbn [default from_option id] in Hp.
    eexists. split; [apply getExpenses_eval|]. rewrite sort_perm.
    apply list_elem_of_filter. split; [done|].
    apply list_elem_of_filter. split; [|done]. by apply Himp. }
  split_and!.
  - intros Ht. split_and!; revert Ht; apply Hpq; rewrite in_period_today; intros ->.
    + change (in_period now "3days" (_ds now))
        with (str_geb (_ds now) (_ds (now - 2 * 86400000))).
      rewrite _ds_geb; [rewrite Day_sub; lia|done|unfold msPerDay in Hn; lia].
    + change (in_period now "week" (_ds now)) with (str_geb (_ds now) (_ds (monday now))).
      rewrite _ds_geb; [apply monday_day|done|by apply monday_range].
    + change (in_period now "month" (_ds now))
        with (bool_decide (slice0 7 (_ds now) = slice0 7 (_ds now))).
      by apply bool_decide_eq_true.
  - apply Hpq.
    change (in_period now "month" (date e))
      with (bool_decide (slice0 7 (date e) = slice0 7 (_ds now))).
    change (in_period now "year" (date e))
      with (bool_decide (slice0 4 (date e) = slice0 4 (_ds now))).
    rewrite !bool_decide_eq_true. apply slice0_4_7.
  - intros period. by apply Hpq.
Qed.

(** ** The statistics by month *)

Lemma month_map0 (keys : list string) (m : gmap string propval) (k : string) :
  k ∈ keys -> fold_left (fun m k => <[k := PNum zero]> m) keys m !! k = Some (PNum zero).
Proof.
  assert (forall keys (m : gmap string propval),
    m !! k = Some (PNum zero) ->
    fold_left (fun m k => <[k := PNum zero]> m) keys m !! k = Some (PNum zero)) as Hkeep.
  { clear. induction keys as [|k' keys IH]; intros m Hm; [done|]. cbn [fold_left].
    apply IH. destruct (decide (k' = k)) as [->|]; [apply lookup_insert_eq|].
    by rewrite lookup_insert_ne. }
  revert m. induction keys as [|k' keys IH]; intros m Hin; [by apply elem_of_nil in Hin|].
  cbn [fold_left]. apply elem_of_cons in Hin as [->|Hin]; [|by apply IH].
  apply Hkeep, lookup_insert_eq.
Qed.

Lemma month_step_other (m : gmap string propval) (e : expense) (k : string) :
  slice0 7 (date e) <> k -> month_step m e !! k = m !! k.
Proof.
  intros Hne. unfold month_step. cbv zeta. destruct (obj_has _ _); [|done].
  unfold obj_set. case_bool_decide; [done|]. by rewrite lookup_insert_ne.
Qed.

Lemma month_step_key (m : gmap string propval) (e : expense) (x : num) :
  slice0 7 (date e) <> "__proto__"%string ->
  m !! slice0 7 (date e) = Some (PNum x) ->
  month_step m e !! slice0 7 (date e) = Some (PNum (num_add x (amount e))).
Proof.
  intros Hp Hm. unfold month_step, obj_has, obj_get. cbv zeta. rewrite Hm.
  unfold obj_set. rewrite bool_decide_eq_false_2 by done. cbn [plus].
  apply lookup_insert_eq.
Qed.

Lemma month_fold (keys : list string) (l : list expense) :
  "__proto__"%string ∉ keys ->
  forall (m : gmap string propval) (v : string -> num),
  (forall k, k ∈ keys -> m !! k = Some (PNum (v k))) ->
  forall k, k ∈ keys ->
    fold_left month_step l m !! k =
      Some (PNum (fold_left num_add (amounts (fun e => slice0 7 (date e) = k) l) (v k))).
Proof.
  intros Hp. induction l as [|e l IH]; intros m v Hm k Hk; [by apply Hm|].
  cbn [fold_left]. unfold amounts. rewrite filter_cons.
  set (k' := slice0 7 (date e)).
  destruct (decide (k' ∈ keys)) as [Hin|Hnin].
  - rewrite (IH _ (fun k => if decide (k' = k) then num_add (v k) (amount e) else v k));
      [|intros k0 Hk0|done].
    + destruct (decide (k' = k)) as [->|]; done.
    + destruct (decide (k' = k0)) as [<-|Hne].
      * apply month_step_key; [|by apply Hm].
        intros E. apply Hp. by rewrite <- E.
      * rewrite month_step_other by done. by apply Hm.
  - rewrite (IH _ v); [|intros k0 Hk0|done].
    + rewrite decide_False; [done|]. by intros <-.
    + rewrite month_step_other; [by apply Hm|]. by intros <-.
Qed.

Lemma month_key_today (now : Z) :
  0 <= now < Y10K -> month_key (getFullYear now, getMonth now) = slice0 7 (_ds now).
Proof.
  intros Hn. apply chars_inj. rewrite slice0_7_ds by done.
  unfold month_key. cbn [fst snd]. by rewrite !chars_app.
Qed.

Lemma months_of_years (now : Z) (ym : Z * Z) :
  0 <= now < Y10K -> ym ∈ months_of now -> 1969 <= ym.1 <= 9999.
Proof.
  intros Hn Hin. unfold months_of in Hin.
  apply list_elem_of_fmap in Hin as (i & E & Hi). apply elem_of_seq in Hi.
  pose proof (month_before_spec now (11 - Z.of_nat i)) as Hs. rewrite <- E in Hs.
  pose proof (getFullYear_range now Hn). pose proof (getMonth_range now).
  destruct ym as [y m]. cbn [fst]. lia.
Qed.

Lemma month_key_digits (ym : Z * Z) :
  1000 <= ym.1 <= 9999 -> 0 <= ym.2 < 12 ->
  chars (month_key ym) =
    [digit (ym.1 / 1000); digit (ym.1 / 100 mod 10); digit (ym.1 / 10 mod 10);
     digit (ym.1 mod 10); "-"%char; digit ((ym.2 + 1) / 10); digit ((ym.2 + 1) mod 10)].
Proof.
  intros Hy Hm. unfold month_key. rewrite !chars_app.
  pose proof (check_year_all ym.1 Hy) as Ey.
  pose proof (check_two_all (ym.2 + 1) ltac:(lia)) as Em.
  apply bool_decide_eq_true in Ey, Em. by rewrite Ey, Em.
Qed.

Lemma iso_date_digits (y m d : Z) :
  1000 <= y <= 9999 -> 1 <= m <= 12 -> 1 <= d <= 31 ->
  chars (iso_date (y, m, d)) =
    chars (string_of_Z y) ++ "-"%char :: chars (padStart2 (string_of_Z m)) ++
    "-"%char :: chars (padStart2 (string_of_Z d)).
Proof.
  intros Hy Hm Hd. unfold iso_date. rewrite str_chars.
  pose proof (check_year_all y Hy) as Ey.
  pose proof (check_two_all m ltac:(lia)) as Em.
  pose proof (check_two_all d Hd) as Ed.
  apply bool_decide_eq_true in Ey, Em, Ed. by rewrite Ey, Em, Ed.
Qed.

(** The key of a month begins the dates of that month, and no others. *)
Lemma begins_with_month (ym : Z * Z) (y m d : Z) :
  1000 <= ym.1 <= 9999 -> 0 <= ym.2 < 12 ->
  1000 <= y <= 9999 -> 1 <= m <= 12 -> 1 <= d <= 31 ->
  begins_with (month_key ym) (iso_date (y, m, d)) <-> ym = (y, m - 1).
Proof.
  intros Hy Hm Hy' Hm' Hd. unfold begins_with.
  rewrite iso_date_digits by done.
  assert (chars (month_key ym) =
          chars (string_of_Z ym.1) ++ "-"%char :: chars (padStart2 (string_of_Z (ym.2 + 1))))
    as -> by (unfold month_key; by rewrite !chars_app).
  pose proof (year_inj ym.1 y Hy Hy') as Iy.
  pose proof (two_inj (ym.2 + 1) m ltac:(lia) ltac:(lia)) as Im.
  pose proof (length_year ym.1 Hy) as L1. pose proof (length_year y Hy') as L2.
  pose proof (length_two (ym.2 + 1) ltac:(lia)) as L3.
  pose proof (length_two m ltac:(lia)) as L4.
  split.
  - intros [r E].
    destruct (chars (string_of_Z ym.1)) as [|a1 [|a2 [|a3 [|a4 [|]]]]]; try done.
    destruct (chars (string_of_Z y)) as [|b1 [|b2 [|b3 [|b4 [|]]]]]; try done.
    destruct (chars (padStart2 (string_of_Z (ym.2 + 1)))) as [|c1 [|c2 [|]]]; try done.
    destruct (chars (padStart2 (string_of_Z m))) as [|d1 [|d2 [|]]]; try done.
    cbn [app] in E. injection E as -> -> -> -> -> -> _.
    destruct ym as [y0 m0]. cbn [fst snd] in *.
    f_equal; [symmetry|]; [|assert (m0 + 1 = m) by auto; lia]; symmetry; auto.
  - intros ->. cbn [fst snd]. replace (m - 1 + 1) with m by lia.
    exists ("-"%char :: chars (padStart2 (string_of_Z d))).
    rewrite <- app_assoc. reflexivity.
Qed.

(** The first seven characters are the key when the date begins with it. *)
Lemma slice0_begins (k d : string) :
  length (chars k) = 7%nat -> slice0 7 d = k <-> begins_with k d.
Proof.
  intros Hl. unfold slice0, begins_with. split.
  - intros <-. rewrite str_chars. exists (drop 7 (chars d)). by rewrite take_drop.
  - intros [r ->]. apply chars_inj. rewrite str_chars.
    rewrite take_app_le by lia. by rewrite take_ge by lia.
Qed.

Lemma month_key_length (ym : Z * Z) :
  1000 <= ym.1 <= 9999 -> 0 <= ym.2 < 12 -> length (chars (month_key ym)) = 7%nat.
Proof. intros Hy Hm. by rewrite month_key_digits. Qed.

Lemma month_abbrev_spec (m : Z) : 0 <= m < 12 -> templ (MN !! Z.to_nat m) = month_abbrev m.
Proof. intros Hm. by apply (month_cases m (fun m => templ (MN !! Z.to_nat m) = month_abbrev m)). Qed.

(** C7.  From the epoch to the end of the year 9999, for every user and
    every database, [statsByMonth] resolves to twelve labels and twelve
    values, for the month of the clock and the eleven months before it,
    the month of the clock last.  A label is the French abbreviation of
    the month, a space and the year.  A value is the sum, added up from 0
    in the order of the store, of the amounts of the expenses of the user
    whose date begins with the seven characters 'YYYY-MM' of the month,
    and 0 when there is none; these characters begin the date
    'YYYY-MM-DD' of every day of that month and of no other.  When the
    amounts of the user are whole numbers that add up to less than 2^53,
    the twelve values add up to the sum of the amounts of the expenses of
    the user of these twelve months. *)
Theorem statsByMonth_twelve_months (now userId : Z) (db : database) :
  0 <= now < Y10K ->
  let mine := filter (owned_by userId) (records (expenses db)) in
  let sum_of := fun ym =>
    total (amounts (fun e => begins_with (month_key ym) (date e)) mine) in
  exists s,
    statsByMonth now userId db = (Resolved s, db) /\
    length (labels s) = 12%nat /\ length (data s) = 12%nat /\
    months_of now = map (month_before now) [11; 10; 9; 8; 7; 6; 5; 4; 3; 2; 1; 0] /\
    month_before now 0 = (getFullYear now, getMonth now) /\
    labels s =
      map (fun ym => month_abbrev ym.2 +:+ " " +:+ string_of_Z ym.1)%string (months_of now) /\
    data s = map (fun ym => Own (PNum (sum_of ym))) (months_of now) /\
    (forall ym, ym ∈ months_of now ->
       1969 <= ym.1 <= 9999 /\ 0 <= ym.2 < 12 /\
       forall y m d, 1000 <= y <= 9999 -> 1 <= m <= 12 -> 1 <= d <= 31 ->
         begins_with (month_key ym) (iso_date (y, m, d)) <-> ym = (y, m - 1)) /\
    (forall ym, (forall e, e ∈ mine -> ~ begins_with (month_key ym) (date e)) ->
       sum_of ym = zero) /\
    (whole_amounts (map amount mine) ->
       total (map sum_of (months_of now)) =
         total (amounts (fun e => Exists (fun ym => begins_with (month_key ym) (date e))
                                         (months_of now)) mine)).
Proof.
  intros Hn mine sum_of. assert (0 <= now) as Hn0 by lia.
  assert (forall ym, ym ∈ months_of now -> 1000 <= ym.1 <= 9999 /\ 0 <= ym.2 < 12) as Hr.
  { intros ym Hin. pose proof (months_of_years now ym Hn Hin).
    pose proof (months_of_range now ym Hin). lia. }
  assert (forall ym, ym ∈ months_of now ->
            total (amounts (fun e => slice0 7 (date e) = month_key ym) mine) = sum_of ym)
    as Hsum.
  { intros ym Hin. destruct (Hr ym Hin) as [Hy Hm]. unfold sum_of, amounts. f_equal. f_equal.
    apply filter_ext_in. intros e _. apply slice0_begins. by apply month_key_length. }
  eexists. split; [reflexivity|]. cbn [labels data].
  assert (length (month_keys now) = 12%nat) as Hlen
    by (unfold month_keys; by rewrite length_map, length_seq).
  rewrite !length_map, Hlen.
  do 4 (split; [done || apply month_before_0|]).
  fold mine. rewrite (month_keys_spec now Hn0).
  split; [|split; [|split; [|split]]].
  - rewrite map_map. apply map_ext_in. intros [y m] Hin.
    apply list_elem_of_In in Hin. destruct (Hr _ Hin) as [Hy Hm].
    cbn [fst snd] in *. rewrite month_label_spec by lia. by rewrite month_abbrev_spec.
  - rewrite map_map. apply map_ext_in. intros ym Hin. apply list_elem_of_In in Hin.
    unfold obj_get. fold month_step.
    rewrite (month_fold (map month_key (months_of now)) mine (months_of_not_proto now) _
               (fun _ => zero)).
    + fold (total (amounts (fun e => slice0 7 (date e) = month_key ym) mine)).
      by rewrite Hsum.
    + intros k0 Hk0. by apply month_map0.
    + by apply list_elem_of_fmap_2.
  - intros ym Hin. pose proof (months_of_years now ym Hn Hin).
    destruct (Hr ym Hin) as [Hy Hm]. split_and!; try lia.
    intros y m d Hy' Hm' Hd. by apply begins_with_month.
  - intros ym Hno. unfold sum_of, amounts. by rewrite filter_none.
  - intros Hw.
    pose proof (total_by_key (fun e => slice0 7 (date e)) (map month_key (months_of now))
                  mine (months_of_NoDup now) Hw) as Ht.
    rewrite map_map in Ht.
    erewrite map_ext_in in Ht
      by (intros ym Hin; apply list_elem_of_In in Hin; apply (Hsum ym Hin)).
    cbv beta in Ht. rewrite Ht. unfold amounts. f_equal. f_equal.
    apply filter_ext_in. intros e _. rewrite Exists_exists, list_elem_of_fmap. split.
    + intros (ym & E & Hin). exists ym. split; [done|].
      destruct (Hr ym Hin). apply slice0_begins; [by apply month_key_length|done].
    + intros (ym & Hin & Hb). exists ym. split; [|done].
      destruct (Hr ym Hin). apply slice0_begins; [by apply month_key_length|done].
Qed.

(** ** The listing of today *)

Lemma _ds_iso (t : Z) : 0 <= t < Y10K -> _ds t = iso_date (civil_from_days (Day t)).
Proof.
  intros Ht. pose proof (getFullYear_range t Ht) as Hy.
  pose proof (getMonth_range t) as Hm. pose proof (getDate_range t) as Hd.
  apply chars_inj. rewrite _ds_chars.
  pose proof (check_year_all (getFullYear t)) as Ey.
  pose proof (check_two_all (getMonth t + 1)) as Em.
  pose proof (check_two_all (getDate t)) as Ed.
  unfold check_year, check_two in *.
  rewrite bool_decide_eq_true in Ey, Em, Ed.
  rewrite Ey, Em, Ed by lia.
  unfold getFullYear, getMonth, getDate.
  destruct (civil_from_days (Day t)) as [[y m] d]. cbn [fst snd iso_date].
  rewrite str_chars. replace (m - 1 + 1) with m by lia. done.
Qed.

Lemma StronglySorted_among {A} (P : A -> Prop) (R R' : A -> A -> Prop) (l : list A) :
  (forall a b, P a -> P b -> R a b -> R' a b) ->
  Forall P l -> StronglySorted R l -> StronglySorted R' l.
Proof.
  intros Himp HP Hs. induction Hs as [|a l Hs IH Ha]; [constructor|].
  apply Forall_cons in HP as [Pa HP]. constructor; [by apply IH|].
  rewrite Forall_forall in *. intros b Hb. apply Himp; auto.
Qed.

Lemma compare_recency_same_date (a b : expense) :
  date a = date b -> compare_recency a b = compare_time a b.
Proof.
  intros E. unfold compare_recency, compare_time, lex at 1, str_compare.
  by rewrite E, compare_chars_refl.
Qed.

(** C1.  For every user and every database that the application reaches,
    from the epoch to the end of the year 9999,
    [getExpenses(userId, 'today', 'Toutes')] (all categories, also when the
    category is left out) resolves to the expenses of the store whose
    [user_id] is [userId] and whose [date] is the text 'YYYY-MM-DD' of the
    civil date of the clock, each as often as it is stored, in an order
    that descends by hour, then by minute, then by the time stamp [ts];
    the database is as before. *)
Theorem getExpenses_today_listing (now userId : Z) (category_ : option string)
    (db : database) :
  reachable db ->
  0 <= now < Y10K ->
  default "Toutes"%string category_ = "Toutes"%string ->
  exists l,
    getExpenses now userId (Some "today"%string) category_ db = (Resolved l, db) /\
    l ≡ₚ filter (fun e => user_id e = num_of_Z userId /\
                          date e = iso_date (civil_from_days (Day now)))
                (records (expenses db)) /\
    StronglySorted not_earlier l.
Proof.
  intros Hr Hn Hc. apply reachable_ok in Hr as (_ & _ & Hok).
  rewrite Forall_forall in Hok.
  eexists. split; [apply getExpenses_eval|]. cbn [default].
  rewrite (filter_all (category_matches category_))
    by (intros x; right; left; exact Hc).
  split.
  - rewrite sort_perm, list_filter_filter.
    erewrite filter_ext_in; [reflexivity|]. intros x Hx. cbv beta.
    rewrite in_period_today, (owned_by_ok _ _ (Hok x Hx)), (_ds_iso now Hn). tauto.
  - apply (StronglySorted_among (fun e => date e = _ds now) not_older).
    + intros a b Ea Eb. unfold not_older, not_earlier.
      rewrite compare_recency_same_date; [done|congruence].
    + apply Forall_forall. intros x Hx. rewrite sort_perm in Hx.
      apply list_elem_of_filter in Hx as [Hx _]. by apply in_period_today.
    + apply sort_by_recency_sorted.
      apply Forall_forall. intros x Hx. apply list_elem_of_filter in Hx as [_ Hx].
      apply list_elem_of_filter in Hx as [_ Hx]. by apply Hok.
Qed.

(** ** Listings by day *)

Lemma is_digit_code (c : ascii) : is_digit c = true -> 48 <= code c <= 57.
Proof. unfold is_digit. cbv zeta. lia. Qed.

(** Two dates of the shape 'YYYY-MM-DD' compare as the days they write. *)
Lemma str_compare_iso (s s' : string) :
  iso_shape s = true -> iso_shape s' = true ->
  str_compare s s' = (date_number s ?= date_number s').
Proof.
  unfold iso_shape, str_compare, date_number.
  destruct (chars s) as [|a [|b [|c [|d [|h [|e [|f [|h' [|g [|i [|]]]]]]]]]]]; try done.
  destruct (chars s') as [|a' [|b' [|c' [|d' [|k [|e' [|f' [|k' [|g' [|i' [|]]]]]]]]]]];
    try done.
  cbn [forallb]. intros H H'.
  repeat match goal with
         | H : _ && _ = true |- _ => apply andb_true_iff in H as [? H]
         | H : _ && _ = true |- _ => apply andb_true_iff in H as [H ?]
         | H : bool_decide _ = true |- _ => apply bool_decide_eq_true in H
         end.
  subst h h' k k'. cbn [fold_left compare_chars].
  change (is_digit "-") with false. cbv iota.
  repeat match goal with H : is_digit ?c = true |- _ =>
    rewrite H; apply is_digit_code in H end.
  change (code "-" ?= code "-") with Eq. cbv iota.
  symmetry.
  destruct (Z.compare_spec (code a) (code a'));
    [|apply Z.compare_lt_iff; lia|apply Z.compare_gt_iff; lia].
  destruct (Z.compare_spec (code b) (code b'));
    [|apply Z.compare_lt_iff; lia|apply Z.compare_gt_iff; lia].
  destruct (Z.compare_spec (code c) (code c'));
    [|apply Z.compare_lt_iff; lia|apply Z.compare_gt_iff; lia].
  destruct (Z.compare_spec (code d) (code d'));
    [|apply Z.compare_lt_iff; lia|apply Z.compare_gt_iff; lia].
  destruct (Z.compare_spec (code e) (code e'));
    [|apply Z.compare_lt_iff; lia|apply Z.compare_gt_iff; lia].
  destruct (Z.compare_spec (code f) (code f'));
    [|apply Z.compare_lt_iff; lia|apply Z.compare_gt_iff; lia].
  destruct (Z.compare_spec (code g) (code g'));
    [|apply Z.compare_lt_iff; lia|apply Z.compare_gt_iff; lia].
  destruct (Z.compare_spec (code i) (code i'));
    [apply Z.compare_eq_iff|apply Z.compare_lt_iff|apply Z.compare_gt_iff]; lia.
Qed.

Lemma compare_recency_iso (a b : expense) :
  iso_shape (date a) = true -> iso_shape (date b) = true ->
  compare_recency a b = compare_newest a b.
Proof.
  intros Ha Hb. unfold compare_recency, compare_newest, compare_time, lex at 1 4.
  by rewrite str_compare_iso.
Qed.

(** X2.  Every listing of a user whose stored dates all have the shape
    'YYYY-MM-DD', whatever the period and the category: the expenses of
    the user that pass the two tests, each as often as it is stored, in an
    order that descends by the day that the date writes, then by hour,
    minute and time stamp. *)
Theorem getExpenses_listing (now userId : Z) (period category_ : option string)
    (db : database) :
  reachable db ->
  Forall (fun e => owned_by userId e -> iso_shape (date e) = true) (records (expenses db)) ->
  exists l,
    getExpenses now userId period category_ db = (Resolved l, db) /\
    l ≡ₚ filter (category_matches category_)
           (filter (fun e => in_period now (default "all"%string period) (date e) = true)
              (filter (owned_by userId) (records (expenses db)))) /\
    StronglySorted newest_first l.
Proof.
  intros Hr Hiso. apply reachable_ok in Hr as (_ & _ & Hok). rewrite Forall_forall in Hok, Hiso.
  eexists. split; [apply getExpenses_eval|]. split; [apply sort_perm|].
  apply (StronglySorted_among (fun e => iso_shape (date e) = true) not_older).
  - intros a b Ha Hb. unfold not_older, newest_first. by rewrite compare_recency_iso.
  - apply Forall_forall. intros x Hx. rewrite sort_perm in Hx.
    do 2 apply list_elem_of_filter in Hx as [_ Hx].
    apply list_elem_of_filter in Hx as [Ho Hx]. by apply Hiso.
  - apply sort_by_recency_sorted. apply Forall_forall. intros x Hx.
    do 3 apply list_elem_of_filter in Hx as [_ Hx]. by apply Hok.
Qed.

(** ** The date of today, written, stored, listed and shown *)

Lemma todayStr_ds (t : Z) : todayStr t = _ds t.
Proof. reflexivity. Qed.

(** X17.  An expense that is added with the date that [todayStr] gives at
    the time of the call is in the listing of 'today' at a later time
    exactly when that time is of the same day. *)
Theorem addExpense_today_listed (now now' userId : Z) (f : expenseFields)
    (db : database) :
  reachable db -> valid_fields f -> in_date f = Some (todayStr now) ->
  0 <= now < Y10K -> 0 <= now' < Y10K ->
  exists k db' e l,
    addExpense now userId f db = (Resolved k, db') /\
    e ∈ records (expenses db') /\ expense_key e = k /\ date e = todayStr now /\
    getExpenses now' userId (Some "today"%string) None db' = (Resolved l, db') /\
    (e ∈ l <-> Day now' = Day now).
Proof.
  intros Hr Hv Hd Hn Hn'. pose proof (reachable_ok db Hr) as (_ & (_ & _ & Hg) & _).
  set (e := with_key (keygen (expenses db)) (expense_record now userId f)).
  exists (keygen (expenses db)), (with_expense db (expense_record now userId f)), e.
  eexists. split; [apply addExpense_valid; [done|lia]|].
  assert (e ∈ records (expenses (with_expense db (expense_record now userId f)))) as Hin.
  { cbn [with_expense expenses records]. apply elem_of_app. right. left. }
  assert (date e = todayStr now) as Hde by (cbn; by rewrite Hd).
  split_and!; [done|done|done|apply getExpenses_eval|].
  rewrite sort_perm, list_elem_of_filter, list_elem_of_filter, list_elem_of_filter.
  cbn [default from_option id]. rewrite in_period_today, Hde, todayStr_ds.
  rewrite (_ds_eq now now') by done. split.
  - intros (_ & E & _). done.
  - intros E. split_and!; try done.
    + right. by left.
    + unfold owned_by. cbn. by apply num_eqb_of_Z.
Qed.

(** X18.  From the epoch on, the date that [todayStr] writes is the date
    that [_ds] gives; [fmtDate] shows it as day, month and year, and the
    label of [statsByDay] as day and month, each month and day on two
    digits; up to the end of the year 9999 it has ten characters.  Of
    the empty date [fmtDate] shows nothing. *)
Theorem dates_shown (t : Z) :
  0 <= t ->
  let dd := padStart2 (string_of_Z (getDate t)) in
  let mm := padStart2 (string_of_Z (getMonth t + 1)) in
  let yyyy := string_of_Z (getFullYear t) in
  todayStr t = _ds t /\
  fmtDate (todayStr t) = (dd +:+ "/" +:+ mm +:+ "/" +:+ yyyy)%string /\
  day_label (_ds t) = (dd +:+ "/" +:+ mm)%string /\
  (t < Y10K -> slength (todayStr t) = 10) /\
  fmtDate EmptyString = EmptyString.
Proof.
  intros Ht dd mm yyyy. pose proof (getFullYear_epoch t Ht) as Hy.
  pose proof (getMonth_range t) as Hm. pose proof (getDate_range t) as Hd.
  assert ("-"%char ∉ chars yyyy) as Hyh by (apply string_of_Z_no_hyphen; lia).
  assert ("-"%char ∉ chars mm) as Hmh
    by (apply padStart2_no_hyphen, string_of_Z_no_hyphen; lia).
  assert ("-"%char ∉ chars dd) as Hdh
    by (apply padStart2_no_hyphen, string_of_Z_no_hyphen; lia).
  assert (_ds t = (yyyy +:+ "-" +:+ mm +:+ "-" +:+ dd)%string) as E by reflexivity.
  split_and!; try done.
  - rewrite todayStr_ds. unfold fmtDate.
    assert (str_truthy (_ds t) = true) as -> by (rewrite E; by destruct yyyy).
    cbn [negb]. by rewrite E, split3.
  - unfold day_label. by rewrite E, split3.
  - intros Hlt. rewrite todayStr_ds. unfold slength.
    rewrite <- (chars_str (_ds t)), length_str, _ds_chars.
    rewrite length_app. cbn [length]. rewrite length_app. cbn [length].
    pose proof (getFullYear_range t (conj Ht Hlt)) as Hy'.
    rewrite length_year by lia. rewrite !length_two by lia. done.
Qed.

(** ** The total of a listing and the statistics *)

(** With whole amounts, the sums by key are whole amounts. *)
Lemma whole_by_key (key : expense -> string) (keys : list string) (l : list expense) :
  NoDup keys -> whole_amounts (map amount l) ->
  whole_amounts (map (fun k => total (amounts (fun e => key e = k) l)) keys).
Proof.
  intros Hnd Hw. pose proof Hw as [Hl Hs].
  assert (map (fun k => total (amounts (fun e => key e = k) l)) keys =
          map (fun k => num_of_Z (sumZ (amounts (fun e => key e = k) l))) keys) as ->.
  { apply map_ext. intros k. apply total_whole. by apply whole_amounts_filter. }
  split.
  - apply Forall_forall. intros n Hn. apply list_elem_of_fmap in Hn as (k & -> & _).
    eexists. split; [|done]. apply (sumZ_filter (fun e => key e = k) l Hl).
  - rewrite (sumZ_by_key key keys l Hnd).
    pose proof (sumZ_filter (fun e => key e ∈ keys) l Hl). lia.
Qed.

(** X19.  When no category of the store is the name of a member of
    [Object.prototype], the values of [statsByCategory] are numbers; and
    when the amounts of the listing of the same user and period in all
    categories are whole numbers that add up to less than 2^53, the
    values, added up in any order, give the total that [renderList] shows
    for that listing. *)
Theorem statsByCategory_total (now userId : Z) (period : option string) (db : database) :
  reachable db ->
  (forall e, e ∈ records (expenses db) -> category e ∉ Object_prototype) ->
  exists l m vals,
    getExpenses now userId period (Some "Toutes"%string) db = (Resolved l, db) /\
    statsByCategory now userId period db = (Resolved m, db) /\
    map snd (map_to_list m) = map PNum vals /\
    (whole_amounts (map amount l) ->
     forall vals', vals' ≡ₚ vals -> total vals' = renderList_total l).
Proof.
  intros Hr Hcat. apply reachable_ok in Hr as (_ & _ & Hok).
  unfold statsByCategory, await. rewrite getExpenses_eval.
  set (L := sort by_recency _).
  assert (forall e, e ∈ L -> e ∈ records (expenses db)) as Hsub.
  { intros e He. unfold L in He. rewrite sort_perm in He.
    do 3 apply list_elem_of_filter in He as [_ He]. done. }
  assert (Forall (fun e => category e ∉ Object_prototype) L) as HC.
  { apply Forall_forall. intros e He. by apply Hcat, Hsub. }
  assert (Forall (fun e => stored_amount (amount e)) L) as HA.
  { apply Forall_forall. intros e He. rewrite Forall_forall in Hok.
    by destruct (Hok e (Hsub e He)). }
  set (m := fold_left _ L ∅).
  assert (forall c, m !! c =
            match amounts (fun e => category e = c) L with
            | [] => None
            | a => Some (PNum (total a))
            end) as Hm.
  { intros c. unfold m. by rewrite (keyed_fold category L HC HA ∅ (fun _ => None)). }
  set (keys := map fst (map_to_list m)).
  assert (NoDup keys) as Hnd by apply NoDup_fst_map_to_list.
  exists L, m, (map (fun c => total (amounts (fun e => category e = c) L)) keys).
  split; [done|]. split; [done|]. split.
  - unfold keys. rewrite !map_map. apply map_ext_in. intros [c v] Hin.
    apply list_elem_of_In, elem_of_map_to_list in Hin. rewrite Hm in Hin. cbn [fst snd].
    destruct (amounts (fun e => category e = c) L); [done|]. by injection Hin as <-.
  - intros Hw vals' Hp.
    rewrite <- (total_perm _ vals' (whole_by_key category keys L Hnd Hw)) by done.
    rewrite (total_by_key category keys L Hnd Hw), renderList_total_amounts.
    unfold amounts. rewrite filter_all_in; [done|].
    intros e He. unfold keys.
    destruct (m !! category e) as [v|] eqn:E.
    + apply elem_of_map_to_list in E. by apply (list_elem_of_fmap_2 fst) in E.
    + rewrite Hm in E.
      destruct (amounts (fun e' => category e' = category e) L) eqn:Ea; [|done].
      by destruct (proj1 (amounts_nil (fun e' => category e' = category e) L) Ea e He).
Qed.

(** ** The month of the clock in the statistics *)

(** X20.  From the epoch to the end of the year 9999, the last of the
    twelve values of [statsByMonth] is that of the month of the clock: the
    sum, in the order of the store, of the amounts of the expenses of the
    user whose date begins with the 'YYYY-MM' of the clock.  When the
    amounts of the listing of 'month' of the same user in all categories
    are whole numbers that add up to less than 2^53, it is the total that
    [renderList] shows for that listing. *)
Theorem statsByMonth_current_month (now userId : Z) (db : database) :
  0 <= now < Y10K ->
  exists s l v,
    statsByMonth now userId db = (Resolved s, db) /\
    getExpenses now userId (Some "month"%string) (Some "Toutes"%string) db
      = (Resolved l, db) /\
    last (data s) = Some (Own (PNum v)) /\
    v = total (amounts (fun e => begins_with (month_key (getFullYear now, getMonth now))
                                             (date e))
                       (filter (owned_by userId) (records (expenses db)))) /\
    (whole_amounts (map amount l) -> v = renderList_total l).
Proof.
  intros Hn. assert (0 <= now) as Hn0 by lia.
  set (k := month_key (getFullYear now, getMonth now)).
  set (mine := filter (owned_by userId) (records (expenses db))).
  assert (length (chars k) = 7%nat) as Hlen.
  { apply month_key_length; cbn [fst snd].
    - pose proof (getFullYear_range now Hn). lia.
    - apply getMonth_range. }
  exists {| labels := map month_label (month_keys now);
            data := map (obj_get (fold_left month_step mine
                           (fold_left (fun m k => <[k := PNum zero]> m) (month_keys now) ∅)))
                        (month_keys now) |}.
  eexists. exists (total (amounts (fun e => slice0 7 (date e) = k) mine)).
  split; [reflexivity|]. split; [apply getExpenses_eval|].
  cbn [data]. rewrite (month_keys_spec now Hn0).
  set (keys := map month_key (months_of now)).
  assert (last keys = Some k) as Hlast.
  { unfold keys, k. rewrite <- month_before_0. reflexivity. }
  assert (k ∈ keys) as Hk by (by apply last_Some_elem_of).
  split_and!.
  - pose proof Hlast as Hsplit. apply last_Some in Hsplit as [keys' Hsplit].
    rewrite Hsplit at 2. rewrite map_app. cbn [map]. rewrite last_snoc. do 2 f_equal.
    unfold obj_get.
    by rewrite (month_fold keys _ (months_of_not_proto now) _ (fun _ => zero));
      [|intros k0 Hk0; by apply month_map0|done].
  - unfold amounts. do 2 f_equal. apply filter_ext_in. intros e _.
    by apply slice0_begins.
  - intros Hw. rewrite renderList_total_amounts. symmetry. apply total_perm; [done|].
    rewrite sort_perm. unfold amounts. apply Permutation_map.
    rewrite (filter_all_in (category_matches (Some "Toutes"%string)))
      by (intros x _; right; by left).
    erewrite filter_ext_in; [reflexivity|]. intros x _.
    cbn [default from_option id].
    change (in_period now "month" (date x))
      with (bool_decide (slice0 7 (date x) = slice0 7 (_ds now))).
    rewrite bool_decide_eq_true. unfold k. by rewrite month_key_today.
Qed.

(** ** The amount that is stored *)

Lemma Qmake_cents (z : Z) : (z # 100 == inject_Z z * (1 # 100))%Q.
Proof. unfold Qeq. cbn. lia. Qed.

(** X21.  The amount that [addExpense] stores for an amount below 1e21:
    the double nearest to a whole number of hundredths, that number of
    hundredths being the nearest to the double that was handed in, so at
    most half a hundredth away from it.  An amount below half a hundredth
    passes the test of [addExpense] and is stored as 0. *)
Theorem addExpense_amount_cents (now userId : Z) (f : expenseFields) (db : database)
    (q : Q) :
  reachable db -> valid_fields f ->
  ToNumber (in_amount f) = Fin q -> (q < inject_Z (10 ^ 21))%Q ->
  exists k db' e cents,
    addExpense now userId f db = (Resolved k, db') /\
    last (records (expenses db')) = Some e /\ expense_key e = k /\
    amount e = round64 (cents # 100) /\ 0 <= cents /\
    (Qabs (q - (cents # 100)) <= 1 # 200)%Q /\
    ((q < 1 # 200)%Q -> amount e = zero).
Proof.
  intros Hr Hv Hq Hlt. pose proof (reachable_ok db Hr) as (_ & (_ & _ & Hg) & _).
  pose proof Hv as (_ & Hpos & _). rewrite Hq in Hpos.
  assert (0 < q)%Q as Hq0.
  { unfold num_gtb, num_ltb, zero, num_of_Z in Hpos. change (inject_Z 0) with 0%Q in Hpos.
    by destruct (0 ?= q)%Q eqn:E. }
  set (cents := round_half_up q).
  assert (inject_Z cents <= q * 100 + (1 # 2) /\ q * 100 + (1 # 2) < inject_Z (cents + 1))%Q
    as [Hlo Hhi] by (split; [apply Qfloor_le|apply Qlt_floor]).
  rewrite inject_Z_plus in Hhi. change (inject_Z 1) with 1%Q in Hhi.
  assert (0 <= cents) as Hc.
  { unfold cents, round_half_up. change 0 with (Qfloor 0). apply Qfloor_resp_le. lra. }
  assert (parseFloat_toFixed2 (Fin q) = round64 (cents # 100)) as Hamount.
  { unfold parseFloat_toFixed2.
    destruct (Qle_bool (inject_Z (10 ^ 21)) (Qabs q)) eqn:E.
    - apply Qle_bool_iff in E. rewrite Qabs_pos in E by lra. lra.
    - rewrite Qgt_alt in Hq0. by rewrite Hq0. }
  exists (keygen (expenses db)), (with_expense db (expense_record now userId f)),
    (with_key (keygen (expenses db)) (expense_record now userId f)), cents.
  split; [apply addExpense_valid; [done|lia]|].
  split; [cbn [with_expense expenses records]; apply last_snoc|].
  split; [done|]. split; [cbn; by rewrite Hq|]. split; [done|]. split.
  - apply Qabs_Qle_condition. rewrite Qmake_cents. split; lra.
  - intros Hsmall. cbn. rewrite Hq, Hamount.
    assert (cents = 0) as ->; [|done].
    assert (inject_Z cents < 1)%Q as H1 by lra.
    change 1%Q with (inject_Z 1) in H1. rewrite <- Zlt_Qlt in H1. lia.
Qed.

(** ** Every listing is a part of the listing of all *)

Lemma not_positive_trans (x y z : expense) :
  expense_ok x -> expense_ok y -> expense_ok z ->
  num_gtb (by_recency x y) zero = false -> not_older y z ->
  num_gtb (by_recency x z) zero = false.
Proof.
  intros Hx Hy Hz Hxy Hyz.
  destruct (num_gtb (by_recency x z) zero) eqn:E; [|done].
  apply num_gtb_sgn in E. rewrite by_recency_sgn in E by done.
  assert (compare_recency y x <> Gt) as Hyx.
  { rewrite <- by_recency_sgn by done. intros G. apply num_gtb_sgn in G. congruence. }
  pose proof order_compare_recency as Hoc.
  assert (compare_recency x y <> Lt) as Hxy'.
  { rewrite (oc_antisym _ Hoc y x). by destruct (compare_recency y x). }
  pose proof (oc_not_lt_trans _ Hoc x y z Hxy' Hyz) as Hxz.
  rewrite (oc_antisym _ Hoc x z) in E. by destruct (compare_recency x z).
Qed.

Lemma sort_insert_filter (P : expense -> Prop) `{!forall e, Decision (P e)}
    (x : expense) (l : list expense) :
  expense_ok x -> Forall expense_ok l -> StronglySorted not_older l ->
  filter P (sort_insert by_recency x l) =
    if decide (P x) then sort_insert by_recency x (filter P l) else filter P l.
Proof.
  intros Hx. induction l as [|y r IH]; intros Hok Hs.
  - cbn [sort_insert]. rewrite filter_cons, filter_nil. by destruct (decide (P x)).
  - apply Forall_cons in Hok as [Hy Hok]. apply StronglySorted_inv in Hs as [Hs Hyr].
    cbn [sort_insert]. destruct (num_gtb (by_recency x y) zero) eqn:E.
    + rewrite !filter_cons, (IH Hok Hs).
      destruct (decide (P x)), (decide (P y)); try done.
      cbn [sort_insert]. by rewrite E.
    + rewrite filter_cons. destruct (decide (P x)) as [Px|Px]; [|done].
      assert (Forall (fun z => num_gtb (by_recency x z) zero = false) (y :: r)) as Hall.
      { constructor; [done|]. rewrite Forall_forall in Hyr, Hok |- *.
        intros z Hz. by apply (not_positive_trans x y z); auto. }
      assert (Forall (fun z => num_gtb (by_recency x z) zero = false)
                (filter P (y :: r))) as Hf.
      { rewrite Forall_forall in Hall |- *. intros z Hz. apply Hall.
        by apply list_elem_of_filter in Hz as [_ Hz]. }
      destruct (filter P (y :: r)) as [|z t]; [done|].
      apply Forall_cons in Hf as [Hz _]. cbn [sort_insert]. by rewrite Hz.
Qed.

Lemma sort_filter (P : expense -> Prop) `{!forall e, Decision (P e)} (l : list expense) :
  Forall expense_ok l ->
  sort by_recency (filter P l) = filter P (sort by_recency l).
Proof.
  induction l as [|x l IH]; intros Hok; [done|].
  apply Forall_cons in Hok as [Hx Hok]. cbn [sort foldr]. fold (sort by_recency l).
  rewrite sort_insert_filter; [|done| |by apply sort_by_recency_sorted].
  - rewrite filter_cons. destruct (decide (P x)); [|by apply IH].
    cbn [sort foldr]. fold (sort by_recency (filter P l)). by rewrite IH.
  - apply Forall_forall. intros y Hy. rewrite sort_perm in Hy.
    rewrite Forall_forall in Hok. by apply Hok.
Qed.

(** X22.  In a reachable database every listing is cut out of the listing
    of all periods and all categories of the same user: its expenses are
    those of that listing that pass the test of the period and the test of
    the category, in the order they have there. *)
Theorem listing_of_all_filtered (now userId : Z) (db : database) :
  reachable db ->
  exists all,
    getExpenses now userId (Some "all"%string) (Some "Toutes"%string) db
      = (Resolved all, db) /\
    forall period category_,
      getExpenses now userId period category_ db =
        (Resolved
           (filter (category_matches category_)
              (filter (fun e => in_period now (default "all"%string period) (date e) = true)
                 all)),
         db).
Proof.
  intros Hr. apply reachable_ok in Hr as (_ & _ & Hok).
  eexists. split; [apply getExpenses_eval|].
  intros period category_. rewrite getExpenses_eval. do 2 f_equal.
  set (mine := filter (owned_by userId) (records (expenses db))).
  assert (Forall expense_ok mine) as Hmine.
  { apply Forall_forall. intros e He. apply list_elem_of_filter in He as [_ He].
    rewrite Forall_forall in Hok. by apply Hok. }
  assert (forall (P : expense -> Prop) `{!forall e, Decision (P e)},
            Forall expense_ok (filter P mine)) as Hsub.
  { intros P ?. apply Forall_forall. intros e He.
    apply list_elem_of_filter in He as [_ He]. rewrite Forall_forall in Hmine. by apply Hmine. }
  rewrite (filter_all_in (category_matches (Some "Toutes"%string)))
    by (intros x _; right; by left).
  rewrite (filter_all_in
             (fun e => in_period now (default "all"%string (Some "all"%string)) (date e) = true))
    by (intros x _; reflexivity).
  rewrite sort_filter.
  - f_equal. by apply sort_filter.
  - by apply Hsub.
Qed.

(** ** The further properties at sample calls *)

Lemma db_alice_reachable : reachable db_alice.
Proof. apply rtc_once, (step_createUser noon "  Alice " "1234" empty_db). Defined.

Lemma valid_taxi : valid_fields taxi.
Proof. split_and!; reflexivity. Defined.

Lemma taxi_stored :
  with_key 1 (expense_record noon 1 taxi) ∈ records (expenses db_taxi).
Proof. vm_compute. left. Defined.

Lemma noon_range : 6 * msPerDay <= noon < Y10K.
Proof. vm_compute. split; [discriminate|reflexivity]. Defined.

Lemma noon_range0 : 0 <= noon < Y10K.
Proof. vm_compute. split; [discriminate|reflexivity]. Defined.

Lemma add_then_get_witness :
  1 = keygen (objectStore_of Expenses empty_db) /\
  _get Expenses 1 db_taxi =
    (Resolved (Some (with_key (Stored := stored_of Expenses) 1 (expense_record noon 1 taxi))),
     db_taxi) /\
  (forall k', k' <> 1 ->
     (_get Expenses k' db_taxi).1 = (_get Expenses k' empty_db).1) /\
  (_count Expenses db_taxi).1 =
    Resolved (Z.of_nat (length (records (objectStore_of Expenses empty_db))) + 1).
Proof.
  apply (add_then_get Expenses (expense_record noon 1 taxi) empty_db db_taxi 1).
  - apply rtc_refl.
  - vm_compute. reflexivity.
Defined.

Lemma stored_expense_shape_witness :
  name (with_key 1 (expense_record noon 1 taxi)) <> EmptyString /\
  trim (name (with_key 1 (expense_record noon 1 taxi)))
    = name (with_key 1 (expense_record noon 1 taxi)).
Proof.
  destruct (stored_expense_shape db_taxi (with_key 1 (expense_record noon 1 taxi))
              db_taxi_reachable taxi_stored) as (H1 & H2 & _).
  split; [exact H1 | exact H2].
Defined.

Lemma alice_stored :
  mkUser 1 "alice" (_hash "1234") (num_of_Z noon) ∈ records (users db_alice).
Proof. vm_compute. left. Defined.

Lemma stored_user_shape_witness :
  toLowerCase (trim "alice") = "alice"%string /\ 2 <= slength "alice".
Proof.
  destruct (stored_user_shape db_alice (mkUser 1 "alice" (_hash "1234") (num_of_Z noon))
              db_alice_reachable alice_stored) as (H1 & H2 & _).
  split; [exact H1 | exact H2].
Defined.

Lemma verifyUser_outcome_witness :
  (verifyUser "  Alice " "1234" db_alice).2 = db_alice.
Proof.
  destruct (verifyUser_outcome "  Alice " "1234" db_alice db_alice_reachable) as [H _].
  exact H.
Defined.

Lemma deleteExpense_by_owner_witness :
  exists db',
    deleteExpense 1 1 db_taxi = (Resolved true, db') /\
    users db' = users db_taxi /\
    keygen (expenses db') = keygen (expenses db_taxi).
Proof.
  destruct (deleteExpense_by_owner db_taxi (with_key 1 (expense_record noon 1 taxi)) 1
              db_taxi_reachable taxi_stored eq_refl) as (db' & H1 & H2 & H3 & _).
  exists db'. split; [exact H1|]. split; [exact H2 | exact H3].
Defined.

Lemma records_never_rewritten_witness :
  keygen (expenses db_taxi) <= keygen (expenses (addExpense noon 1 coffee db_taxi).2).
Proof.
  destruct (records_never_rewritten db_taxi (addExpense noon 1 coffee db_taxi).2
              db_taxi_reachable (rtc_once _ _ (step_addExpense noon 1 coffee db_taxi)))
    as (_ & _ & H & _).
  exact H.
Defined.

Lemma other_user_unaffected_witness :
  (getExpenses noon 1 None None (addExpense noon 2 coffee db_taxi).2).1 =
    (getExpenses noon 1 None None db_taxi).1.
Proof.
  assert (1 <> 2) as Hne by discriminate.
  destruct (other_user_unaffected 1 2 db_taxi db_taxi_reachable Hne) as [H _].
  destruct (H noon coffee noon None None) as [H1 _]. exact H1.
Defined.

Lemma listings_nest_witness :
  exists l, getExpenses noon 1 (Some "week"%string) None db_taxi = (Resolved l, db_taxi) /\
            with_key 1 (expense_record noon 1 taxi) ∈ l.
Proof.
  destruct (listings_nest noon 1 None db_taxi (with_key 1 (expense_record noon 1 taxi))
              noon_range) as (H & _).
  apply H. eexists. split; [apply getExpenses_eval|]. vm_compute. left.
Defined.

Lemma addExpense_today_listed_witness :
  exists k db' e l,
    addExpense noon 1 taxi empty_db = (Resolved k, db') /\
    e ∈ records (expenses db') /\ expense_key e = k /\ date e = todayStr noon /\
    getExpenses (noon + 1) 1 (Some "today"%string) None db' = (Resolved l, db') /\
    (e ∈ l <-> Day (noon + 1) = Day noon).
Proof.
  apply (addExpense_today_listed noon (noon + 1) 1 taxi empty_db).
  - apply rtc_refl.
  - exact valid_taxi.
  - reflexivity.
  - exact noon_range0.
  - vm_compute. split; [discriminate|reflexivity].
Defined.

Lemma dates_shown_witness :
  fmtDate (todayStr noon) = "10/03/2024"%string /\ day_label (_ds noon) = "10/03"%string.
Proof.
  assert (0 <= noon) as H by (unfold noon; lia).
  destruct (dates_shown noon H) as (_ & H1 & H2 & _).
  split; [exact H1 | exact H2].
Defined.

Lemma resolved_inj {A} (x y : A) (d d' : database) :
  (Resolved x, d) = (Resolved y, d') -> x = y /\ d = d'.
Proof. intros H. by injection H. Qed.

Lemma add_all_reachable (calls : list (Z * Z * expenseFields)) (db : database) :
  reachable db -> reachable (add_all calls db).
Proof.
  revert db. induction calls as [|[[now userId] f] calls IH]; intros db Hr; [done|].
  change (reachable (add_all calls (addExpense now userId f db).2)).
  apply IH. eapply rtc_r; [exact Hr|apply step_addExpense].
Defined.

Lemma db_many_reachable : reachable db_many.
Proof. apply add_all_reachable, rtc_refl. Defined.

Lemma db_cents_reachable : reachable db_cents.
Proof. apply add_all_reachable, rtc_refl. Defined.

Lemma db_whole_reachable : reachable db_whole.
Proof. apply add_all_reachable, rtc_refl. Defined.

Lemma whole_list (zs : list Z) :
  forallb (Z.leb 0) zs = true -> fold_right Z.add 0 zs < 2 ^ 53 ->
  whole_amounts (map num_of_Z zs).
Proof.
  intros Hz Hs. split.
  - apply Forall_forall. intros n Hn. apply list_elem_of_fmap in Hn as (z & -> & Hin).
    exists z. split; [|done]. rewrite forallb_forall in Hz.
    apply Z.leb_le, Hz. by apply list_elem_of_In.
  - replace (sumZ (map num_of_Z zs)) with (fold_right Z.add 0 zs); [done|].
    clear. induction zs as [|z zs IH]; [done|].
    cbn [map sumZ foldr fold_right]. rewrite whole_of_Z.
    fold (sumZ (map num_of_Z zs)). by rewrite IH.
Defined.

Lemma plain_categories (db : database) :
  forallb (fun e => bool_decide (category e ∉ Object_prototype)) (records (expenses db))
    = true ->
  forall e, e ∈ records (expenses db) -> category e ∉ Object_prototype.
Proof.
  intros H e He. rewrite forallb_forall in H.
  apply list_elem_of_In, H in He. by apply bool_decide_eq_true in He.
Defined.

Lemma plain_dates (db : database) :
  forallb (fun e => bool_decide (date e ∉ Object_prototype)) (records (expenses db))
    = true ->
  forall e, e ∈ records (expenses db) -> date e ∉ Object_prototype.
Proof.
  intros H e He. rewrite forallb_forall in H.
  apply list_elem_of_In, H in He. by apply bool_decide_eq_true in He.
Defined.

Lemma iso_dates (userId : Z) (db : database) :
  forallb (fun e => iso_shape (date e)) (records (expenses db)) = true ->
  Forall (fun e => owned_by userId e -> iso_shape (date e) = true) (records (expenses db)).
Proof.
  intros H. rewrite forallb_forall in H. apply Forall_forall. intros e He _.
  by apply list_elem_of_In, H in He.
Defined.

Lemma getExpenses_today_listing_witness :
  iso_date (civil_from_days (Day noon)) = "2024-03-10"%string /\
  exists l,
    getExpenses noon 1 (Some "today"%string) None db_many = (Resolved l, db_many) /\
    map (fun e => (expense_key e, name e, hour e, minute e)) l =
      [(8, "Diner"%string, num_of_Z 20, num_of_Z 15);
       (3, "Cafe"%string, num_of_Z 8, num_of_Z 30);
       (1, "Taxi"%string, num_of_Z 8, num_of_Z 30)] /\
    l ≡ₚ filter (fun e => user_id e = num_of_Z 1 /\
                          date e = iso_date (civil_from_days (Day noon)))
                (records (expenses db_many)) /\
    StronglySorted not_earlier l.
Proof.
  split; [vm_compute; reflexivity|].
  destruct (getExpenses_today_listing noon 1 None db_many db_many_reachable noon_range0
              eq_refl) as (l & H1 & H2 & H3).
  exists l. split; [exact H1|]. split; [|split; [exact H2 | exact H3]].
  rewrite getExpenses_eval in H1. apply resolved_inj in H1 as [<- _]. vm_compute. reflexivity.
Defined.

(** C2 as it is stated fails: the amount 1.234 is read back as 1.23. *)
Lemma addExpense_roundtrip_changes_amount :
  let db' := (addExpense noon 1 coffee empty_db).2 in
  let e := mkExpense 1 (num_of_Z 1) "Cafe" (StringToNumber "1.23") "Alimentation"
                     "2024-03-10" (num_of_Z 8) (num_of_Z 30) (num_of_Z noon) in
  addExpense noon 1 coffee empty_db = (Resolved 1, db') /\
  getExpenses noon 1 (Some "all"%string) None db' = (Resolved [e], db') /\
  ToNumber (in_amount coffee) = StringToNumber "1.234" /\
  amount e = StringToNumber "1.23" /\
  num_eqb (StringToNumber "1.234") (StringToNumber "1.23") = false /\
  ~ same_fields coffee e.
Proof.
  repeat split; try (vm_compute; reflexivity).
  intros (_ & H & _). vm_compute in H. discriminate H.
Qed.

Lemma addExpense_then_getExpenses_witness :
  exists k db' l e,
    addExpense noon 1 (entry "  Cafe  " "1.005" "" "2024-03-11" "" "abc") db_many
      = (Resolved k, db') /\
    getExpenses (noon + 1) 1 (Some "all"%string) None db' = (Resolved l, db') /\
    e ∈ l /\
    e = {| expense_key := 9; user_id := num_of_Z 1; name := "Cafe";
           amount := num_of_Z 1; category := "Alimentation"; date := "2024-03-11";
           hour := zero; minute := zero; ts := num_of_Z noon |} /\
    length l = 8%nat.
Proof.
  assert (trim "  Cafe  " <> EmptyString) as Ht by (vm_compute; discriminate).
  assert (num_gtb (ToNumber (JStr "1.005")) zero = true) as Ha by (vm_compute; reflexivity).
  assert ("2024-03-11"%string <> EmptyString) as Hd by discriminate.
  destruct (addExpense_then_getExpenses noon (noon + 1) 1
              (entry "  Cafe  " "1.005" "" "2024-03-11" "" "abc") db_many
              "  Cafe  " "2024-03-11" db_many_reachable eq_refl Ht Ha eq_refl Hd)
    as (k & db' & l & e & H1 & H2 & H3 & _ & H5).
  exists k, db', l, e. split; [exact H1|]. split; [exact H2|]. split; [exact H3|].
  assert (valid_fields (entry "  Cafe  " "1.005" "" "2024-03-11" "" "abc")) as Hv
    by (split; [|split]; vm_compute; reflexivity).
  assert (keygen (expenses db_many) <> 0) as Hk by (vm_compute; discriminate).
  rewrite (addExpense_valid noon 1 _ db_many Hv Hk) in H1.
  rewrite H5. split.
  - apply resolved_inj in H1 as [<- _]. vm_compute. reflexivity.
  - apply resolved_inj in H1 as [_ <-].
    rewrite getExpenses_eval in H2. apply resolved_inj in H2 as [<- _].
    vm_compute. reflexivity.
Defined.

(** C7 as it is stated fails: with the amounts 0.3 in February and 0.2 and
    0.1 in March the twelve values are ten times 0, 0.3 and
    0.30000000000000004, which add up to 0.6000000000000001, while the
    three amounts add up to 0.6. *)
Lemma statsByMonth_sum_is_rounded :
  exists s,
    statsByMonth noon 1 db_cents = (Resolved s, db_cents) /\
    map (fun e => (date e, amount e)) (records (expenses db_cents)) =
      [("2024-02-29"%string, StringToNumber "0.3");
       ("2024-03-09"%string, StringToNumber "0.2");
       ("2024-03-10"%string, StringToNumber "0.1")] /\
    data s =
      map (fun n => Own (PNum n))
        [zero; zero; zero; zero; zero; zero; zero; zero; zero; zero;
         StringToNumber "0.3"; StringToNumber "0.30000000000000004"] /\
    total [zero; zero; zero; zero; zero; zero; zero; zero; zero; zero;
           StringToNumber "0.3"; StringToNumber "0.30000000000000004"]
      = StringToNumber "0.6000000000000001" /\
    total (map amount (records (expenses db_cents))) = StringToNumber "0.6" /\
    num_eqb (StringToNumber "0.6000000000000001") (StringToNumber "0.6") = false.
Proof. eexists. repeat split; vm_compute; reflexivity. Qed.

Lemma statsByMonth_twelve_months_witness :
  (exists s,
     statsByMonth noon 1 db_many = (Resolved s, db_many) /\
     labels s =
       ["Avr 2023"; "Mai 2023"; "Jun 2023"; "Jul 2023"; "Aoû 2023"; "Sep 2023";
        "Oct 2023"; "Nov 2023"; "Déc 2023"; "Jan 2024"; "Fév 2024"; "Mar 2024"]%string /\
     data s =
       map (fun n => Own (PNum n))
         [num_of_Z 7; zero; zero; zero; zero; zero; zero; zero; zero; zero;
          StringToNumber "0.3"; StringToNumber "4000.3"]) /\
  (exists s,
     statsByMonth noon 1 db_whole = (Resolved s, db_whole) /\
     data s =
       map (fun n => Own (PNum n))
         [zero; zero; zero; zero; zero; zero; zero; zero; zero; zero;
          num_of_Z 300; num_of_Z 8000] /\
     total [zero; zero; zero; zero; zero; zero; zero; zero; zero; zero;
            num_of_Z 300; num_of_Z 8000] =
       total (amounts (fun e => Exists (fun ym => begins_with (month_key ym) (date e))
                                       (months_of noon))
                      (filter (owned_by 1) (records (expenses db_whole))))).
Proof.
  split.
  - destruct (statsByMonth_twelve_months noon 1 db_many noon_range0)
      as (s & H1 & _ & _ & _ & _ & HL & HD & _).
    exists s. split; [exact H1|]. rewrite HL, HD. split; vm_compute; reflexivity.
  - destruct (statsByMonth_twelve_months noon 1 db_whole noon_range0)
      as (s & H1 & _ & _ & _ & _ & _ & HD & _ & _ & HT).
    exists s. split; [exact H1|]. split; [rewrite HD; vm_compute; reflexivity|].
    rewrite <- HT.
    + vm_compute. reflexivity.
    + replace (map amount (filter (owned_by 1) (records (expenses db_whole))))
        with (map num_of_Z [1500; 300; 2500; 4000]) by (vm_compute; reflexivity).
      apply whole_list; vm_compute; reflexivity.
Defined.

Lemma statsByCategory_sums_witness :
  (exists l m,
     getExpenses noon 1 (Some "all"%string) (Some "Toutes"%string) db_many
       = (Resolved l, db_many) /\
     statsByCategory noon 1 (Some "all"%string) db_many = (Resolved m, db_many) /\
     m !! "Alimentation"%string = Some (PNum (StringToNumber "2507.6")) /\
     m !! "Transport"%string = Some (PNum (num_of_Z 1500)) /\
     m !! "Loisirs"%string = Some (PNum (num_of_Z 9)) /\
     m !! "Autre"%string = None) /\
  (exists l m,
     getExpenses noon 1 (Some "all"%string) (Some "Toutes"%string) db_cents
       = (Resolved l, db_cents) /\
     statsByCategory noon 1 (Some "all"%string) db_cents = (Resolved m, db_cents) /\
     map amount l = [StringToNumber "0.1"; StringToNumber "0.2"; StringToNumber "0.3"] /\
     m !! "Alimentation"%string = Some (PNum (StringToNumber "0.6000000000000001"))).
Proof.
  split.
  - destruct (statsByCategory_sums noon 1 (Some "all"%string) db_many db_many_reachable
                (plain_categories db_many eq_refl)) as (l & m & H1 & H2 & H3).
    exists l, m. split; [exact H1|]. split; [exact H2|].
    rewrite getExpenses_eval in H1. apply resolved_inj in H1 as [<- _].
    rewrite !H3. split_and!; vm_compute; reflexivity.
  - destruct (statsByCategory_sums noon 1 (Some "all"%string) db_cents db_cents_reachable
                (plain_categories db_cents eq_refl)) as (l & m & H1 & H2 & H3).
    exists l, m. split; [exact H1|]. split; [exact H2|].
    rewrite getExpenses_eval in H1. apply resolved_inj in H1 as [<- _].
    rewrite !H3. split_and!; vm_compute; reflexivity.
Defined.

Lemma getExpenses_listing_witness :
  exists l,
    getExpenses noon 1 (Some "all"%string) None db_many = (Resolved l, db_many) /\
    map (fun e => (name e, date e, date_number (date e))) l =
      [("Diner", "2024-03-10", 20240310); ("Cafe", "2024-03-10", 20240310);
       ("Taxi", "2024-03-10", 20240310); ("The", "2024-03-09", 20240309);
       ("Riz", "2024-02-29", 20240229); ("Lait", "2023-04-01", 20230401);
       ("Vieux", "2023-03-31", 20230331)]%string /\
    StronglySorted newest_first l.
Proof.
  destruct (getExpenses_listing noon 1 (Some "all"%string) None db_many db_many_reachable
              (iso_dates 1 db_many eq_refl)) as (l & H1 & _ & H3).
  exists l. split; [exact H1|]. split; [|exact H3].
  rewrite getExpenses_eval in H1. apply resolved_inj in H1 as [<- _]. vm_compute. reflexivity.
Defined.

Lemma addExpense_outcome_witness :
  addExpense noon 1 (entry "Riz" "1.005" "Alimentation" "2024-03-10" "12" "0") db_many =
    (Resolved 9,
     with_expense db_many
       (expense_record noon 1 (entry "Riz" "1.005" "Alimentation" "2024-03-10" "12" "0"))) /\
  amount (expense_record noon 1 (entry "Riz" "1.005" "Alimentation" "2024-03-10" "12" "0"))
    = num_of_Z 1 /\
  addExpense noon 1 (entry "Riz" "1e-400" "Alimentation" "2024-03-10" "12" "0") db_many =
    (Rejected MontantInvalide, db_many).
Proof.
  destruct (addExpense_outcome noon 1
              (entry "Riz" "1.005" "Alimentation" "2024-03-10" "12" "0") db_many
              db_many_reachable) as [H _].
  destruct (addExpense_outcome noon 1
              (entry "Riz" "1e-400" "Alimentation" "2024-03-10" "12" "0") db_many
              db_many_reachable) as (_ & _ & H' & _).
  split; [|split].
  - rewrite H; [reflexivity|]. split_and!; vm_compute; reflexivity.
  - vm_compute. reflexivity.
  - apply H'; vm_compute; reflexivity.
Defined.

Lemma statsByDay_series_witness :
  (exists l dates,
     getExpenses noon 1 (Some "all"%string) (Some "Toutes"%string) db_many
       = (Resolved l, db_many) /\
     statsByDay noon 1 (Some "all"%string) db_many =
       (Resolved
          {| labels := map day_label dates;
             data := map (fun d => Own (PNum (total (amounts (fun e => date e = d) l))))
                         dates |},
        db_many) /\
     map day_label dates = ["31/03"; "01/04"; "29/02"; "09/03"; "10/03"]%string /\
     map (fun d => Own (PNum (total (amounts (fun e => date e = d) l)))) dates =
       map (fun n => Own (PNum n))
         [num_of_Z 9; num_of_Z 7; StringToNumber "0.3"; StringToNumber "0.2";
          StringToNumber "4000.1"] /\
     StronglySorted (fun a b => str_compare a b = Lt) dates) /\
  (exists l dates,
     getExpenses noon 1 (Some "all"%string) (Some "Toutes"%string) db_whole
       = (Resolved l, db_whole) /\
     map (fun d => Own (PNum (total (amounts (fun e => date e = d) l)))) dates =
       map (fun n => Own (PNum n)) [num_of_Z 300; num_of_Z 4000; num_of_Z 4000] /\
     total (map (fun d => total (amounts (fun e => date e = d) l)) dates) =
       renderList_total l /\
     renderList_total l = num_of_Z 8300).
Proof.
  split.
  - destruct (statsByDay_series noon 1 (Some "all"%string) db_many db_many_reachable
                (plain_dates db_many eq_refl)) as (l & dates & H1 & H2 & H3 & _).
    exists l, dates. split; [exact H1|]. split; [exact H2|].
    assert (statsByDay noon 1 (Some "all"%string) db_many =
            (Resolved
               {| labels := ["31/03"; "01/04"; "29/02"; "09/03"; "10/03"]%string;
                  data := map (fun n => Own (PNum n))
                            [num_of_Z 9; num_of_Z 7; StringToNumber "0.3";
                             StringToNumber "0.2"; StringToNumber "4000.1"] |},
             db_many)) as E by (vm_compute; reflexivity).
    rewrite E in H2. apply resolved_inj in H2 as [H2 _].
    split; [exact (eq_sym (f_equal labels H2))|].
    split; [exact (eq_sym (f_equal data H2))|exact H3].
  - destruct (statsByDay_series noon 1 (Some "all"%string) db_whole db_whole_reachable
                (plain_dates db_whole eq_refl)) as (l & dates & H1 & H2 & _ & _ & HT).
    exists l, dates. split; [exact H1|].
    assert (statsByDay noon 1 (Some "all"%string) db_whole =
            (Resolved
               {| labels := ["29/02"; "09/03"; "10/03"]%string;
                  data := map (fun n => Own (PNum n))
                            [num_of_Z 300; num_of_Z 4000; num_of_Z 4000] |},
             db_whole)) as E by (vm_compute; reflexivity).
    rewrite E in H2. apply resolved_inj in H2 as [H2 _].
    split; [exact (eq_sym (f_equal data H2))|].
    rewrite getExpenses_eval in H1. apply resolved_inj in H1 as [<- _].
    split; [|vm_compute; reflexivity].
    apply HT.
    replace (map amount _) with (map num_of_Z [2500; 1500; 4000; 300])
      by (vm_compute; reflexivity).
    apply whole_list; vm_compute; reflexivity.
Defined.

Lemma in_period_days_witness :
  (in_period noon "today" (_ds (noon - 10 * msPerDay)) = true <->
     Day (noon - 10 * msPerDay) = Day noon) /\
  (in_period noon "month" (_ds (noon - 10 * msPerDay)) = true <->
     getFullYear (noon - 10 * msPerDay) = getFullYear noon /\
     getMonth (noon - 10 * msPerDay) = getMonth noon) /\
  (in_period noon "year" (_ds (noon - 10 * msPerDay)) = true <->
     getFullYear (noon - 10 * msPerDay) = getFullYear noon) /\
  _ds (noon - 10 * msPerDay) = "2024-02-29"%string /\
  in_period noon "month" "2024-02-29" = false /\
  in_period noon "year" "2024-02-29" = true.
Proof.
  assert (0 <= noon - 10 * msPerDay < Y10K) as Ht
    by (vm_compute; split; [discriminate|reflexivity]).
  destruct (in_period_days noon (noon - 10 * msPerDay) noon_range0 Ht) as (H1 & H2 & H3).
  split; [exact H1|]. split; [exact H2|]. split; [exact H3|].
  split_and!; vm_compute; reflexivity.
Defined.

Lemma statsByCategory_total_witness :
  exists l m vals,
    getExpenses noon 1 (Some "all"%string) (Some "Toutes"%string) db_whole
      = (Resolved l, db_whole) /\
    statsByCategory noon 1 (Some "all"%string) db_whole = (Resolved m, db_whole) /\
    map snd (map_to_list m) = map PNum vals /\
    map amount l = [num_of_Z 2500; num_of_Z 1500; num_of_Z 4000; num_of_Z 300] /\
    m !! "Alimentation"%string = Some (PNum (num_of_Z 2800)) /\
    m !! "Transport"%string = Some (PNum (num_of_Z 1500)) /\
    m !! "Loisirs"%string = Some (PNum (num_of_Z 4000)) /\
    total vals = renderList_total l /\
    total (rev vals) = renderList_total l /\
    renderList_total l = num_of_Z 8300.
Proof.
  destruct (statsByCategory_total noon 1 (Some "all"%string) db_whole db_whole_reachable
              (plain_categories db_whole eq_refl)) as (l & m & vals & H1 & H2 & H3 & H4).
  exists l, m, vals. split; [exact H1|]. split; [exact H2|]. split; [exact H3|].
  unfold statsByCategory, await in H2. rewrite getExpenses_eval in H1, H2.
  apply resolved_inj in H1 as [<- _]. apply resolved_inj in H2 as [<- _].
  assert (whole_amounts (map amount
            (sort by_recency
               (filter (category_matches (Some "Toutes"%string))
                  (filter (fun e => in_period noon (default "all"%string (Some "all"%string))
                                      (date e) = true)
                     (filter (owned_by 1) (records (expenses db_whole)))))))) as Hw.
  { replace (map amount _) with (map num_of_Z [2500; 1500; 4000; 300])
      by (vm_compute; reflexivity).
    apply whole_list; vm_compute; reflexivity. }
  split; [vm_compute; reflexivity|]. split; [vm_compute; reflexivity|].
  split; [vm_compute; reflexivity|]. split; [vm_compute; reflexivity|].
  split; [exact (H4 Hw vals (Permutation_refl vals))|].
  split; [exact (H4 Hw (rev vals) (Permutation_sym (Permutation_rev vals)))|].
  vm_compute. reflexivity.
Defined.

Lemma statsByMonth_current_month_witness :
  (exists s l v,
     statsByMonth noon 1 db_whole = (Resolved s, db_whole) /\
     getExpenses noon 1 (Some "month"%string) (Some "Toutes"%string) db_whole
       = (Resolved l, db_whole) /\
     last (data s) = Some (Own (PNum v)) /\
     map name l = ["Diner"; "Taxi"; "Cine"]%string /\
     v = num_of_Z 8000 /\
     v = renderList_total l) /\
  (exists s l v,
     statsByMonth noon 1 db_cents = (Resolved s, db_cents) /\
     getExpenses noon 1 (Some "month"%string) (Some "Toutes"%string) db_cents
       = (Resolved l, db_cents) /\
     last (data s) = Some (Own (PNum v)) /\
     map name l = ["Cafe"; "The"]%string /\
     v = StringToNumber "0.30000000000000004").
Proof.
  split.
  - destruct (statsByMonth_current_month noon 1 db_whole noon_range0)
      as (s & l & v & H1 & H2 & H3 & H4 & H5).
    exists s, l, v. split; [exact H1|]. split; [exact H2|]. split; [exact H3|].
    rewrite getExpenses_eval in H2. apply resolved_inj in H2 as [<- _].
    split; [vm_compute; reflexivity|]. split; [rewrite H4; vm_compute; reflexivity|].
    apply H5.
    replace (map amount _) with (map num_of_Z [2500; 1500; 4000])
      by (vm_compute; reflexivity).
    apply whole_list; vm_compute; reflexivity.
  - destruct (statsByMonth_current_month noon 1 db_cents noon_range0)
      as (s & l & v & H1 & H2 & H3 & H4 & _).
    exists s, l, v. split; [exact H1|]. split; [exact H2|]. split; [exact H3|].
    rewrite getExpenses_eval in H2. apply resolved_inj in H2 as [<- _].
    split; [vm_compute; reflexivity|]. rewrite H4. vm_compute. reflexivity.
Defined.

Lemma addExpense_amount_cents_witness :
  ToNumber (JStr "1.005") = Fin (1131529406376837 # 1125899906842624) /\
  exists k db' e cents,
    addExpense noon 1 (entry "Riz" "1.005" "Alimentation" "2024-03-10" "12" "0") db_many
      = (Resolved k, db') /\
    last (records (expenses db')) = Some e /\ expense_key e = k /\
    amount e = round64 (cents # 100) /\ 0 <= cents /\
    (Qabs ((1131529406376837 # 1125899906842624) - (cents # 100)) <= 1 # 200)%Q /\
    amount e = num_of_Z 1.
Proof.
  split; [vm_compute; reflexivity|].
  assert (valid_fields (entry "Riz" "1.005" "Alimentation" "2024-03-10" "12" "0")) as Hv
    by (split; [|split]; vm_compute; reflexivity).
  assert (ToNumber (in_amount (entry "Riz" "1.005" "Alimentation" "2024-03-10" "12" "0"))
          = Fin (1131529406376837 # 1125899906842624)) as Hq by (vm_compute; reflexivity).
  assert (1131529406376837 # 1125899906842624 < inject_Z (10 ^ 21))%Q as Hlt
    by (vm_compute; reflexivity).
  destruct (addExpense_amount_cents noon 1
              (entry "Riz" "1.005" "Alimentation" "2024-03-10" "12" "0") db_many
              (1131529406376837 # 1125899906842624) db_many_reachable Hv Hq Hlt)
    as (k & db' & e & cents & H1 & H2 & H3 & H4 & H5 & H6 & _).
  exists k, db', e, cents. split; [exact H1|]. split; [exact H2|]. split; [exact H3|].
  split; [exact H4|]. split; [exact H5|]. split; [exact H6|].
  assert (cents = 100) as ->.
  { apply Qabs_Qle_condition in H6 as [Ha Hb].
    unfold Qle, Qminus, Qplus, Qopp in Ha, Hb. cbn in Ha, Hb. lia. }
  rewrite H4. vm_compute. reflexivity.
Defined.

Lemma listing_of_all_filtered_witness :
  exists all,
    getExpenses noon 1 (Some "all"%string) (Some "Toutes"%string) db_many
      = (Resolved all, db_many) /\
    map name all = ["Diner"; "Cafe"; "Taxi"; "The"; "Riz"; "Lait"; "Vieux"]%string /\
    getExpenses noon 1 (Some "year"%string) (Some "Alimentation"%string) db_many =
      (Resolved
         (filter (category_matches (Some "Alimentation"%string))
            (filter (fun e => in_period noon "year" (date e) = true) all)),
       db_many) /\
    map name (filter (category_matches (Some "Alimentation"%string))
                (filter (fun e => in_period noon "year" (date e) = true) all))
      = ["Diner"; "Cafe"; "The"; "Riz"]%string.
Proof.
  destruct (listing_of_all_filtered noon 1 db_many db_many_reachable) as (all & H1 & H2).
  exists all. split; [exact H1|].
  split; [|split; [exact (H2 (Some "year"%string) (Some "Alimentation"%string))|]];
    rewrite getExpenses_eval in H1; apply resolved_inj in H1 as [<- _];
    vm_compute; reflexivity.
Defined.
